(** * Articulate: reactions, view tracking and the blog cache

    A shallow embedding of the reaction toggle (usecase/like_usecase.go over
    repository/mongodb/like_repo.go), of the view tracker, the cache-aside
    reads and the cache invalidation (usecase/blog_usecase.go over
    repository/mongodb/blog_repo.go and the Redis-backed BlogCacheStore),
    and of the popularity score, with the properties the specification
    states about them.

    Conventions.  A Mongo collection is a list of documents in insertion
    order; [FindOne] and [UpdateOne] act on the first document that matches
    the filter.  Redis is a finite map from keys to entries with an optional
    expiry second, on the same clock as the callers.  Go's [error] results
    are explicit: [None] is [nil].  Failures of the Mongo driver are given
    to each call as a [faults] record; a cache that fails is another
    implementation of the cache interface.  The first half of the file has
    the definitions, the second the facts. *)

From Stdlib Require Import ZArith List Bool Lia Ascii String Reals Lra.
From stdpp Require Import base option list gmap strings pretty.

Open Scope string_scope.
Open Scope list_scope.
Open Scope nat_scope.

(* ===================================================================== *)
(** * Counting in collections *)
(* ===================================================================== *)

Section Counting.
Context {A : Type}.

(** CountDocuments with a filter [p]. *)
Fixpoint count_docs (p : A → bool) (c : list A) : nat :=
  match c with
  | [] => 0
  | d :: c' => (if p d then 1 else 0) + count_docs p c'
  end.

(** FindOne with a filter [p]: the first matching document. *)
Fixpoint find_one (p : A → bool) (c : list A) : option A :=
  match c with
  | [] => None
  | d :: c' => if p d then Some d else find_one p c'
  end.

(** UpdateOne without upsert: rewrites the first matching document and
    reports whether one matched. *)
Fixpoint update_one (p : A → bool) (f : A → A) (c : list A) : option (list A) :=
  match c with
  | [] => None
  | d :: c' =>
      if p d then Some (f d :: c')
      else match update_one p f c' with
           | Some c'' => Some (d :: c'')
           | None => None
           end
  end.

Definition b2n (b : bool) : nat := if b then 1 else 0.
End Counting.

(* ===================================================================== *)
(** * Reactions: like_repo.go and like_usecase.go *)
(* ===================================================================== *)

Module Reaction.

Inductive TargetType := TargetTypeBlog | TargetTypeComment.
Inductive LikeType := LIKE_TYPE_LIKE | LIKE_TYPE_DISLIKE.

#[global] Instance TargetType_eq_dec : EqDecision TargetType.
Proof. solve_decision. Defined.
#[global] Instance LikeType_eq_dec : EqDecision LikeType.
Proof. solve_decision. Defined.

(** entity.Like, as stored in the [blog_likes] collection.  The two
    timestamps are left out: nothing modelled here reads them. *)
Record Like := mkLike {
  ID : string;
  UserID : string;
  TargetID : string;
  TType : TargetType;
  Type_ : LikeType;
  IsDeleted : bool;
}.

Definition with_type (ty : LikeType) (l : Like) : Like :=
  mkLike (ID l) (UserID l) (TargetID l) (TType l) ty (IsDeleted l).

Definition with_deleted (b : bool) (l : Like) : Like :=
  mkLike (ID l) (UserID l) (TargetID l) (TType l) (Type_ l) b.

(** Errors of the repository and of the use case. *)
Inductive error := ErrReactionNotFound | ErrDriver (msg : string).

(** ** Filters of like_repo.go *)

(** CreateReaction's filter: user_id, target_id, target_type. *)
Definition key_filter (u t : string) (tt : TargetType) (d : Like) : bool :=
  bool_decide (UserID d = u) && bool_decide (TargetID d = t)
  && bool_decide (TType d = tt).

(** DeleteReaction's filter: _id and is_deleted = false. *)
Definition id_active_filter (id : string) (d : Like) : bool :=
  bool_decide (ID d = id) && negb (IsDeleted d).

(** GetReactionByUserIDAndTargetID's filter. *)
Definition user_target_active_filter (u t : string) (d : Like) : bool :=
  bool_decide (UserID d = u) && bool_decide (TargetID d = t)
  && negb (IsDeleted d).

(** CountLikesByTargetID / CountDislikesByTargetID's filter. *)
Definition target_type_active_filter (t : string) (ty : LikeType) (d : Like) : bool :=
  bool_decide (TargetID d = t) && bool_decide (Type_ d = ty)
  && negb (IsDeleted d).

(** ** like_repo.go *)

(** CreateReaction: an upsert on (user_id, target_id, target_type).  A
    matching document gets [type] and [is_deleted = false]; without one a
    document is inserted from the filter, the $set fields and the
    $setOnInsert id [uuid] (the value [uuid.New()] produced for this
    call).  The second component is the document's [ID] as the caller
    sees it afterwards: set from UpsertedID on insert, untouched
    otherwise. *)
Definition CreateReaction (uuid : string) (like : Like) (c : list Like)
  : list Like * Like :=
  let set d := with_deleted false (with_type (Type_ like) d) in
  match update_one (key_filter (UserID like) (TargetID like) (TType like)) set c with
  | Some c' => (c', like)
  | None =>
      let doc := mkLike uuid (UserID like) (TargetID like) (TType like)
                        (Type_ like) false in
      (c ++ [doc], mkLike uuid (UserID like) (TargetID like) (TType like)
                          (Type_ like) (IsDeleted like))
  end.

(** DeleteReaction: soft delete by id; ModifiedCount = 0 is reported as
    ErrReactionNotFound. *)
Definition DeleteReaction (reactionID : string) (c : list Like)
  : list Like * option error :=
  match update_one (id_active_filter reactionID) (with_deleted true) c with
  | Some c' => (c', None)
  | None => (c, Some ErrReactionNotFound)
  end.

Definition GetReactionByUserIDAndTargetID (u t : string) (c : list Like)
  : Like + error :=
  match find_one (user_target_active_filter u t) c with
  | Some l => inl l
  | None => inr ErrReactionNotFound
  end.

Definition CountLikesByTargetID (t : string) (c : list Like) : nat :=
  count_docs (target_type_active_filter t LIKE_TYPE_LIKE) c.

Definition CountDislikesByTargetID (t : string) (c : list Like) : nat :=
  count_docs (target_type_active_filter t LIKE_TYPE_DISLIKE) c.

(** ** like_usecase.go *)

(** What a toggle hands back: the error it returns, the collection it
    leaves, and the (like_count, dislike_count) pair it writes to the blog
    when the target is a blog and the function reaches that point. *)
Record outcome := mkOutcome {
  out_err : option error;
  out_likes : list Like;
  out_counts : option (nat * nat);
}.

Definition refresh_counts (t : string) (tt : TargetType) (c : list Like)
  : option (nat * nat) :=
  if bool_decide (tt = TargetTypeBlog)
  then Some (CountLikesByTargetID t c, CountDislikesByTargetID t c)
  else None.

Definition ToggleLike (uuid userID targetID : string) (targetType : TargetType)
    (c : list Like) : outcome :=
  match GetReactionByUserIDAndTargetID userID targetID c with
  | inr (ErrDriver m) => mkOutcome (Some (ErrDriver m)) c None
  | inl existingReaction =>
      if bool_decide (Type_ existingReaction = LIKE_TYPE_LIKE) then
        let '(c', resultErr) := DeleteReaction (ID existingReaction) c in
        mkOutcome resultErr c' (refresh_counts targetID targetType c')
      else
        let '(c', _) :=
          CreateReaction uuid (with_type LIKE_TYPE_LIKE existingReaction) c in
        mkOutcome None c' (refresh_counts targetID targetType c')
  | inr ErrReactionNotFound =>
      let newLike := mkLike "" userID targetID targetType LIKE_TYPE_LIKE false in
      let '(c', _) := CreateReaction uuid newLike c in
      mkOutcome None c' (refresh_counts targetID targetType c')
  end.

Definition ToggleDislike (uuid userID targetID : string) (targetType : TargetType)
    (c : list Like) : outcome :=
  match GetReactionByUserIDAndTargetID userID targetID c with
  | inr (ErrDriver m) => mkOutcome (Some (ErrDriver m)) c None
  | inl existingReaction =>
      if bool_decide (Type_ existingReaction = LIKE_TYPE_DISLIKE) then
        match DeleteReaction (ID existingReaction) c with
        | (c', Some e) => mkOutcome (Some e) c' None
        | (c', None) => mkOutcome None c' (refresh_counts targetID targetType c')
        end
      else
        let '(c', _) :=
          CreateReaction uuid (with_type LIKE_TYPE_DISLIKE existingReaction) c in
        mkOutcome None c' (refresh_counts targetID targetType c')
  | inr ErrReactionNotFound =>
      let newDislike := mkLike "" userID targetID targetType LIKE_TYPE_DISLIKE false in
      let '(c', _) := CreateReaction uuid newDislike c in
      mkOutcome None c' (refresh_counts targetID targetType c')
  end.

(** ** Sequences of toggles *)

Inductive kind := KLike | KDislike.

Record op := mkOp {
  op_kind : kind;
  op_uuid : string;
  op_user : string;
  op_target : string;
  op_ttype : TargetType;
}.

Definition apply_op (o : op) (c : list Like) : outcome :=
  match op_kind o with
  | KLike => ToggleLike (op_uuid o) (op_user o) (op_target o) (op_ttype o) c
  | KDislike => ToggleDislike (op_uuid o) (op_user o) (op_target o) (op_ttype o) c
  end.

Definition run (ops : list op) (c : list Like) : list Like :=
  fold_left (λ c o, out_likes (apply_op o c)) ops c.

(** ** The transition table of the reaction state machine *)

Inductive RState := RNone | RLiked | RDisliked.

Definition toggleLike (s : RState) : RState :=
  match s with RNone => RLiked | RLiked => RNone | RDisliked => RLiked end.

Definition toggleDislike (s : RState) : RState :=
  match s with RNone => RDisliked | RDisliked => RNone | RLiked => RDisliked end.

Definition table (k : kind) : RState → RState :=
  match k with KLike => toggleLike | KDislike => toggleDislike end.

Definition apply_table (ops : list op) (s : RState) : RState :=
  fold_left (λ s o, table (op_kind o) s) ops s.

(** The state the use case observes for (user, target). *)
Definition state_of (u t : string) (c : list Like) : RState :=
  match GetReactionByUserIDAndTargetID u t c with
  | inl l => match Type_ l with LIKE_TYPE_LIKE => RLiked | LIKE_TYPE_DISLIKE => RDisliked end
  | inr _ => RNone
  end.

Definition active_count (u t : string) (c : list Like) : nat :=
  count_docs (user_target_active_filter u t) c.

Definition key_count (u t : string) (tt : TargetType) (c : list Like) : nat :=
  count_docs (key_filter u t tt) c.

Definition id_count (id : string) (c : list Like) : nat :=
  count_docs (λ d, bool_decide (ID d = id)) c.

(** ** The collection effect of both toggles *)

Definition kind_type (k : kind) : LikeType :=
  match k with KLike => LIKE_TYPE_LIKE | KDislike => LIKE_TYPE_DISLIKE end.

Definition type_state (ty : LikeType) : RState :=
  match ty with LIKE_TYPE_LIKE => RLiked | LIKE_TYPE_DISLIKE => RDisliked end.

(** What ToggleLike ([ty] = like) and ToggleDislike ([ty] = dislike) do
    to the collection. *)
Definition toggle (ty : LikeType) (uuid u t : string) (tt : TargetType)
    (c : list Like) : list Like :=
  match find_one (user_target_active_filter u t) c with
  | Some e =>
      if bool_decide (Type_ e = ty) then (DeleteReaction (ID e) c).1
      else (CreateReaction uuid (with_type ty e) c).1
  | None => (CreateReaction uuid (mkLike "" u t tt ty false) c).1
  end.

(** How a toggle changes the collection, by the state it starts from:
    an insert or a revival from None, a soft delete from the state of the
    toggle's own type, an in-place change of [type] from the other. *)
Inductive mechanism (ty : LikeType) (uuid u t : string) (tt : TargetType)
    (c : list Like) : RState → list Like → Prop :=
| mech_insert :
    key_count u t tt c = 0 →
    mechanism ty uuid u t tt c RNone (c ++ [mkLike uuid u t tt ty false])
| mech_revive l1 d l2 :
    c = l1 ++ d :: l2 → key_filter u t tt d = true → IsDeleted d = true →
    mechanism ty uuid u t tt c RNone
              (l1 ++ mkLike (ID d) u t tt ty false :: l2)
| mech_soft_delete l1 e l2 :
    c = l1 ++ e :: l2 → user_target_active_filter u t e = true →
    Type_ e = ty →
    mechanism ty uuid u t tt c (type_state ty)
              (l1 ++ with_deleted true e :: l2)
| mech_flip l1 e l2 :
    c = l1 ++ e :: l2 → user_target_active_filter u t e = true →
    Type_ e ≠ ty →
    mechanism ty uuid u t tt c (type_state (Type_ e))
              (l1 ++ with_type ty e :: l2).

(** Well-formed collections: ids are unique, there is at most one
    document per (user, target, target type) and at most one active
    document per (user, target). *)
Record WF (c : list Like) : Prop := mkWF {
  wf_id : ∀ id, id_count id c ≤ 1;
  wf_key : ∀ u t tt, key_count u t tt c ≤ 1;
  wf_active : ∀ u t, active_count u t c ≤ 1;
}.

(** The ids [uuid.New()] hands out are new: none is in the collection
    and none is handed out twice. *)
Definition fresh (ops : list op) (c : list Like) : Prop :=
  NoDup (map op_uuid ops) ∧ Forall (λ o, id_count (op_uuid o) c = 0) ops.

Definition on_pair (u t : string) (o : op) : Prop :=
  op_user o = u ∧ op_target o = t.

(** Sample calls used in the examples. *)
Definition demo_like (uuid : string) : op :=
  mkOp KLike uuid "u1" "b1" TargetTypeBlog.

Definition demo_dislike (uuid : string) : op :=
  mkOp KDislike uuid "u1" "b1" TargetTypeBlog.

End Reaction.

(* ===================================================================== *)
(** * Go strings and errors *)
(* ===================================================================== *)

Definition lower_ascii (a : ascii) : ascii :=
  let n := nat_of_ascii a in
  if (65 <=? n) && (n <=? 90) then ascii_of_nat (n + 32) else a.

(** strings.ToLower, on ASCII text (Go also maps letters beyond ASCII;
    those bytes are left as they are here). *)
Fixpoint ToLower (s : string) : string :=
  match s with
  | EmptyString => EmptyString
  | String a s' => String (lower_ascii a) (ToLower s')
  end.

(** strings.Contains. *)
Fixpoint Contains (s substr : string) : bool :=
  String.prefix substr s
  || match s with
     | EmptyString => false
     | String _ s' => Contains s' substr
     end.

(** strings.HasPrefix. *)
Definition HasPrefix (s pre : string) : bool := String.prefix pre s.

(** strings.ReplaceAll for a one-byte [old], as in
    [strings.ReplaceAll(s, " ", "-")]. *)
Fixpoint ReplaceAll (s : string) (old : ascii) (new : string) : string :=
  match s with
  | EmptyString => EmptyString
  | String a s' =>
      if bool_decide (a = old) then new +:+ ReplaceAll s' old new
      else String a (ReplaceAll s' old new)
  end.

(** Go errors: [errors.New] (and [fmt.Errorf] without %w), and
    [fmt.Errorf("prefix: %w", err)]. *)
Inductive error :=
| New (msg : string)
| Errorf (prefix : string) (inner : error).

(** err.Error(). *)
Fixpoint Error (e : error) : string :=
  match e with
  | New msg => msg
  | Errorf p inner => p +:+ ": " +:+ Error inner
  end.

#[global] Instance error_eq_dec : EqDecision error.
Proof. solve_decision. Defined.

Definition ErrNoDocuments : error := New "mongo: no documents in result".

(* ===================================================================== *)
(** * Blogs and views: entities and blog_repo.go *)
(* ===================================================================== *)

(** Modelled from the spec: entity.BlogStatus (the entity package is not
    among the sources); section 3 gives its three values. *)
Inductive BlogStatus :=
| BlogStatusDraft | BlogStatusPublished | BlogStatusArchived.

#[global] Instance BlogStatus_eq_dec : EqDecision BlogStatus.
Proof. solve_decision. Defined.

(** entity.BlogView, a document of [blog_views]. *)
Record BlogView := mkBlogView {
  BlogID : string;
  UserID : string;
  IPAddress : string;
  UserAgent : string;
  ViewedAt : Z;
}.

(** Which driver calls of one use-case call fail, and with what.  A failed
    driver call leaves its collection as it was. *)
Record faults := mkFaults {
  f_GetBlogByID : option error;
  f_GetBlogBySlug : option error;
  f_GetBlogs : option error;
  f_UpdateBlog : option error;
  f_HasViewedRecently : option error;
  f_GetRecentViewsByIP : option error;
  f_GetRecentViewsByUser : option error;
  f_IncrementViewCount : option error;
  f_RecordView : option error;
  f_GetBlogCounts : option error;
}.

Definition no_faults : faults :=
  mkFaults None None None None None None None None None None.

Section Blogs.

(** [score] is the type of popularity values and [CalculatePopularity]
    is utils.CalculatePopularity, which is not among the sources: the code
    below is parametric in both. *)
Context {score : Type} `{EqDecision score}.
Variable CalculatePopularity : Z → Z → Z → Z → score.

(** entity.Blog, a document of [blogs], with the fields the modelled code
    touches.  Times are seconds on one clock. *)
Record Blog := mkBlog {
  ID : string;
  Title : string;
  Content : string;
  AuthorID : string;
  Slug : string;
  Status : BlogStatus;
  ViewCount : Z;
  LikeCount : Z;
  DislikeCount : Z;
  CommentCount : Z;
  Popularity : score;
  FeaturedImageID : option string;
  PublishedAt : option Z;
  UpdatedAt : Z;
  IsDeleted : bool;
}.

#[global] Instance Blog_eq_dec : EqDecision Blog.
Proof. solve_decision. Defined.

(** The [updates] map handed to UpdateBlog: a present key is [Some]. *)
Record BlogUpdates := mkUpdates {
  u_title : option string;
  u_slug : option string;
  u_content : option string;
  u_status : option BlogStatus;
  u_published_at : option Z;
  u_featured_image_id : option string;
  u_popularity : option score;
  u_updated_at : option Z;
}.

(** len(updates). *)
Definition len_updates (u : BlogUpdates) : nat :=
  b2n (bool_decide (is_Some (u_title u))) + b2n (bool_decide (is_Some (u_slug u)))
  + b2n (bool_decide (is_Some (u_content u)))
  + b2n (bool_decide (is_Some (u_status u)))
  + b2n (bool_decide (is_Some (u_published_at u)))
  + b2n (bool_decide (is_Some (u_featured_image_id u)))
  + b2n (bool_decide (is_Some (u_popularity u)))
  + b2n (bool_decide (is_Some (u_updated_at u))).

(** $set with the map. *)
Definition set_updates (u : BlogUpdates) (b : Blog) : Blog :=
  mkBlog (ID b)
    (default (Title b) (u_title u))
    (default (Content b) (u_content u))
    (AuthorID b)
    (default (Slug b) (u_slug u))
    (default (Status b) (u_status u))
    (ViewCount b) (LikeCount b) (DislikeCount b) (CommentCount b)
    (default (Popularity b) (u_popularity u))
    (match u_featured_image_id u with Some i => Some i | None => FeaturedImageID b end)
    (match u_published_at u with Some p => Some p | None => PublishedAt b end)
    (default (UpdatedAt b) (u_updated_at u))
    (IsDeleted b).

(** The database: the [blogs] and [blog_views] collections. *)
Record database := mkDB {
  blogs : list Blog;
  blog_views : list BlogView;
}.

(** Filter {"_id": blogID, "is_deleted": false}. *)
Definition blog_id_filter (blogID : string) (b : Blog) : bool :=
  bool_decide (ID b = blogID) && negb (IsDeleted b).

(** Filter {"slug": slug, "is_deleted": false}. *)
Definition blog_slug_filter (slug : string) (b : Blog) : bool :=
  bool_decide (Slug b = slug) && negb (IsDeleted b).

Definition GetBlogByID (F : faults) (blogID : string) (db : database)
  : Blog + error :=
  match f_GetBlogByID F with
  | Some e => inr (Errorf "failed to retrieve blog post" e)
  | None =>
      match find_one (blog_id_filter blogID) (blogs db) with
      | Some b => inl b
      | None =>
          inr (Errorf ("blog with id '" +:+ blogID
                       +:+ "' not found or has been deleted") ErrNoDocuments)
      end
  end.

Definition GetBlogBySlug (F : faults) (slug : string) (db : database)
  : Blog + error :=
  match f_GetBlogBySlug F with
  | Some e => inr (Errorf "failed to retrieve blog post" e)
  | None =>
      match find_one (blog_slug_filter slug) (blogs db) with
      | Some b => inl b
      | None =>
          inr (Errorf ("blog with slug '" +:+ slug
                       +:+ "' not found or has been deleted") ErrNoDocuments)
      end
  end.

(** UpdateBlog of the repository: $set of the map, with [updated_at]
    overwritten by the current time; MatchedCount = 0 and ModifiedCount = 0
    are errors. *)
Definition repo_UpdateBlog (F : faults) (now : Z) (blogID : string)
    (updates : BlogUpdates) (db : database) : database * option error :=
  match f_UpdateBlog F with
  | Some e => (db, Some (Errorf "failed to update blog" e))
  | None =>
      let updates' :=
        mkUpdates (u_title updates) (u_slug updates) (u_content updates)
                  (u_status updates) (u_published_at updates)
                  (u_featured_image_id updates) (u_popularity updates) (Some now) in
      match find_one (blog_id_filter blogID) (blogs db) with
      | None => (db, Some (New "blog post not found"))
      | Some b =>
          if bool_decide (set_updates updates' b = b)
          then (db, Some (New "blog post was not modified"))
          else
            (mkDB (default (blogs db)
                     (update_one (blog_id_filter blogID) (set_updates updates')
                                 (blogs db)))
                  (blog_views db), None)
      end
  end.

(** $inc of view_count by one. *)
Definition inc_views (b : Blog) : Blog :=
  mkBlog (ID b) (Title b) (Content b) (AuthorID b) (Slug b) (Status b)
         (ViewCount b + 1) (LikeCount b) (DislikeCount b) (CommentCount b)
         (Popularity b) (FeaturedImageID b) (PublishedAt b) (UpdatedAt b)
         (IsDeleted b).

Definition IncrementViewCount (F : faults) (blogID : string) (db : database)
  : database * option error :=
  match f_IncrementViewCount F with
  | Some e => (db, Some (Errorf "failed to increment view count" e))
  | None =>
      match update_one (blog_id_filter blogID) inc_views (blogs db) with
      | Some bs => (mkDB bs (blog_views db), None)
      | None => (db, Some (New "blog post not found"))
      end
  end.

Definition GetBlogCounts (F : faults) (blogID : string) (db : database)
  : (Z * Z * Z * Z) + error :=
  match f_GetBlogCounts F with
  | Some e => inr (Errorf "failed to get blog counts" e)
  | None =>
      match find_one (blog_id_filter blogID) (blogs db) with
      | Some b => inl (ViewCount b, LikeCount b, DislikeCount b, CommentCount b)
      | None => inr (New "blog not found")
      end
  end.

(** HasViewedRecently: documents of this blog whose ip_address is the
    given one or, when a user id is given, whose user_id is. *)
Definition viewed_filter (blogID userID ipAddress : string) (v : BlogView) : bool :=
  bool_decide (BlogID v = blogID)
  && (bool_decide (IPAddress v = ipAddress)
      || (negb (bool_decide (userID = "")) && bool_decide (UserID v = userID))).

Definition HasViewedRecently (F : faults) (blogID userID ipAddress : string)
    (db : database) : bool + error :=
  match f_HasViewedRecently F with
  | Some e => inr (Errorf "failed to check for recent blog view" e)
  | None =>
      inl (0 <? count_docs (viewed_filter blogID userID ipAddress) (blog_views db))
  end.

Definition RecordView (F : faults) (now : Z)
    (blogID userID ipAddress userAgent : string) (db : database)
  : database * option error :=
  match f_RecordView F with
  | Some e => (db, Some (Errorf "failed to record blog view" e))
  | None =>
      (mkDB (blogs db)
            (blog_views db ++ [mkBlogView blogID userID ipAddress userAgent now]),
       None)
  end.

Definition GetRecentViewsByIP (F : faults) (ipAddress : string) (since : Z)
    (db : database) : list BlogView + error :=
  match f_GetRecentViewsByIP F with
  | Some e => inr (Errorf "failed to retrieve recent views by IP" e)
  | None =>
      inl (List.filter (λ v, bool_decide (IPAddress v = ipAddress)
                             && (since <=? ViewedAt v)%Z) (blog_views db))
  end.

Definition GetRecentViewsByUser (F : faults) (userID : string) (since : Z)
    (db : database) : list BlogView + error :=
  if bool_decide (userID = "") then inl []
  else
    match f_GetRecentViewsByUser F with
    | Some e => inr (Errorf "failed to retrieve recent views by user" e)
    | None =>
        inl (List.filter (λ v, bool_decide (UserID v = userID)
                               && (since <=? ViewedAt v)%Z) (blog_views db))
    end.

End Blogs.

Arguments Blog : clear implicits.
Arguments BlogUpdates : clear implicits.
Arguments database : clear implicits.
(* ===================================================================== *)
(** * Redis and the BlogCacheStore *)
(* ===================================================================== *)

(** Replies of the server. *)
Inductive reply (A : Type) :=
| Ok (a : A)
| Nil
| Fail (e : error).
Arguments Ok {A} a.
Arguments Nil {A}.
Arguments Fail {A} e.

Section Cache.

Context {score : Type} `{EqDecision score}.

(** contract.CachedBlogsPage. *)
Record CachedBlogsPage := mkPage {
  Blogs : list (Blog score);
  Total : Z;
}.

(** What a Redis string of this program holds: the JSON of a blog or of a
    list page.  [json.Unmarshal] gives back what [json.Marshal] was given;
    asked for the other shape it is modelled as failing. *)
Inductive json :=
| JBlog (b : Blog score)
| JPage (p : CachedBlogsPage).

Inductive rvalue :=
| RString (data : json)
| RSet (members : gset string).

(** A key's value and the second after which it is gone, if any. *)
Record rentry := mkEntry {
  r_value : rvalue;
  r_expire : option Z;
}.

(** A key is served as long as the clock has not passed its expiry. *)
Definition live (now : Z) (e : rentry) : bool :=
  match r_expire e with
  | None => true
  | Some t => (now <=? t)%Z
  end.

Definition lookup_live (now : Z) (key : string) (r : gmap string rentry)
  : option rentry :=
  match r !! key with
  | Some e => if live now e then Some e else None
  | None => None
  end.

Definition WRONGTYPE : error :=
  New "WRONGTYPE Operation against a key holding the wrong kind of value".

Definition GET (now : Z) (key : string) (r : gmap string rentry) : reply json :=
  match lookup_live now key r with
  | None => Nil
  | Some e =>
      match r_value e with
      | RString d => Ok d
      | RSet _ => Fail WRONGTYPE
      end
  end.

Definition SET (now : Z) (key : string) (d : json) (ttl : Z)
    (r : gmap string rentry) : gmap string rentry :=
  <[key := mkEntry (RString d) (Some (now + ttl)%Z)]> r.

Definition DEL (key : string) (r : gmap string rentry) : gmap string rentry :=
  delete key r.

(** SCAN over the whole key space with MATCH prefix*. *)
Definition SCAN (now : Z) (pre : string) (r : gmap string rentry) : list string :=
  List.filter (λ k, HasPrefix k pre && bool_decide (is_Some (lookup_live now k r)))
              (map_to_list r).*1.

Definition SADD (now : Z) (key member : string) (r : gmap string rentry)
  : gmap string rentry * option error :=
  match lookup_live now key r with
  | None => (<[key := mkEntry (RSet {[member]}) None]> r, None)
  | Some e =>
      match r_value e with
      | RSet s => (<[key := mkEntry (RSet ({[member]} ∪ s)) (r_expire e)]> r, None)
      | RString _ => (r, Some WRONGTYPE)
      end
  end.

Definition EXPIRE (now : Z) (key : string) (ttl : Z) (r : gmap string rentry)
  : gmap string rentry :=
  match lookup_live now key r with
  | None => r
  | Some e => <[key := mkEntry (r_value e) (Some (now + ttl)%Z)]> r
  end.

Definition SCARD (now : Z) (key : string) (r : gmap string rentry) : Z + error :=
  match lookup_live now key r with
  | None => inl 0%Z
  | Some e =>
      match r_value e with
      | RSet s => inl (Z.of_nat (size s))
      | RString _ => inr WRONGTYPE
      end
  end.

(** ** contract.IBlogCache

    The interface the use case holds.  Every method gets the clock and the
    cache's state and hands the state back. *)
Record IBlogCache (S : Type) := mkCache {
  c_GetBlogBySlug : Z → string → S → S * (option (Blog score) * bool * option error);
  c_SetBlogBySlug : Z → string → Blog score → S → S * option error;
  c_InvalidateBlogBySlug : Z → string → S → S * option error;
  c_GetBlogsPage : Z → string → S → S * (option CachedBlogsPage * bool * option error);
  c_SetBlogsPage : Z → string → CachedBlogsPage → S → S * option error;
  c_InvalidateBlogLists : Z → S → S * option error;
  c_AddRecentViewByIP : Z → string → string → Z → S → S * option error;
  c_GetRecentViewCountByIP : Z → string → S → S * (Z + error);
  c_AddRecentViewByUser : Z → string → string → Z → S → S * option error;
  c_GetRecentIPCountByUser : Z → string → S → S * (Z + error);
}.

(** ** store.BlogCacheStore over Redis *)

Definition detailTTL : Z := 60 * 60.
Definition listTTL : Z := 30 * 60.

Definition blogDetailKey (slug : string) : string := "blog:slug:" +:+ slug.

Definition store_GetBlogBySlug (now : Z) (slug : string) (r : gmap string rentry)
  : gmap string rentry * (option (Blog score) * bool * option error) :=
  match GET now (blogDetailKey slug) r with
  | Nil => (r, (None, false, None))
  | Fail e => (r, (None, false, Some e))
  | Ok (JBlog b) => (r, (Some b, true, None))
  | Ok (JPage _) => (r, (None, false, None))
  end.

Definition store_SetBlogBySlug (now : Z) (slug : string) (blog : Blog score)
    (r : gmap string rentry) : gmap string rentry * option error :=
  (SET now (blogDetailKey slug) (JBlog blog) detailTTL r, None).

Definition store_InvalidateBlogBySlug (now : Z) (slug : string)
    (r : gmap string rentry) : gmap string rentry * option error :=
  (DEL (blogDetailKey slug) r, None).

Definition store_GetBlogsPage (now : Z) (key : string) (r : gmap string rentry)
  : gmap string rentry * (option CachedBlogsPage * bool * option error) :=
  match GET now key r with
  | Nil => (r, (None, false, None))
  | Fail e => (r, (None, false, Some e))
  | Ok (JPage p) => (r, (Some p, true, None))
  | Ok (JBlog _) => (r, (None, false, None))
  end.

Definition store_SetBlogsPage (now : Z) (key : string) (page : CachedBlogsPage)
    (r : gmap string rentry) : gmap string rentry * option error :=
  (SET now key (JPage page) listTTL r, None).

(** pipe.Exec: the queued DELs, in order. *)
Definition exec_pipe (pipe : list string) (r : gmap string rentry)
  : gmap string rentry :=
  fold_left (λ r k, DEL k r) pipe r.

(** The loop of InvalidateBlogLists over the scanned keys: each key is
    queued, and every 200th one flushes the pipeline. *)
Fixpoint invalidate_loop (keys : list string) (pipe : list string) (n : nat)
    (r : gmap string rentry) : gmap string rentry * list string :=
  match keys with
  | [] => (r, pipe)
  | k :: keys' =>
      let pipe' := pipe ++ [k] in
      let n' := S n in
      if (n' mod 200 =? 0)
      then invalidate_loop keys' [] n' (exec_pipe pipe' r)
      else invalidate_loop keys' pipe' n' r
  end.

Definition store_InvalidateBlogLists (now : Z) (r : gmap string rentry)
  : gmap string rentry * option error :=
  let '(r', pipe) := invalidate_loop (SCAN now "blogs:list:" r) [] 0 r in
  (exec_pipe pipe r', None).

Definition recentViewsByIPKey (ip : string) : string :=
  "blog:recentviews:ip:" +:+ ip.

Definition recentViewsByUserKey (userID : string) : string :=
  "blog:recentviews:user:" +:+ userID.

Definition store_AddRecentViewByIP (now : Z) (ip blogID : string) (ttlSeconds : Z)
    (r : gmap string rentry) : gmap string rentry * option error :=
  let key := recentViewsByIPKey ip in
  match SADD now key blogID r with
  | (r', Some e) => (r', Some e)
  | (r', None) => (EXPIRE now key ttlSeconds r', None)
  end.

Definition store_GetRecentViewCountByIP (now : Z) (ip : string)
    (r : gmap string rentry) : gmap string rentry * (Z + error) :=
  (r, SCARD now (recentViewsByIPKey ip) r).

Definition store_AddRecentViewByUser (now : Z) (userID ip : string) (ttlSeconds : Z)
    (r : gmap string rentry) : gmap string rentry * option error :=
  let key := recentViewsByUserKey userID in
  match SADD now key ip r with
  | (r', Some e) => (r', Some e)
  | (r', None) => (EXPIRE now key ttlSeconds r', None)
  end.

Definition store_GetRecentIPCountByUser (now : Z) (userID : string)
    (r : gmap string rentry) : gmap string rentry * (Z + error) :=
  (r, SCARD now (recentViewsByUserKey userID) r).

(** NewBlogCacheStore. *)
Definition BlogCacheStore : IBlogCache (gmap string rentry) :=
  mkCache _
    store_GetBlogBySlug store_SetBlogBySlug store_InvalidateBlogBySlug
    store_GetBlogsPage store_SetBlogsPage store_InvalidateBlogLists
    store_AddRecentViewByIP store_GetRecentViewCountByIP
    store_AddRecentViewByUser store_GetRecentIPCountByUser.

(** The same store with the Redis server unreachable: every command
    returns the connection error and nothing is stored. *)
Definition ErrConn : error := New "dial tcp: connection refused".

Definition DownCacheStore : IBlogCache unit :=
  mkCache _
    (λ _ _ s, (s, (None, false, Some ErrConn)))
    (λ _ _ _ s, (s, Some ErrConn))
    (λ _ _ s, (s, Some ErrConn))
    (λ _ _ s, (s, (None, false, Some ErrConn)))
    (λ _ _ _ s, (s, Some ErrConn))
    (λ _ s, (s, Some ErrConn))
    (λ _ _ _ _ s, (s, Some ErrConn))
    (λ _ _ s, (s, inr ErrConn))
    (λ _ _ _ _ s, (s, Some ErrConn))
    (λ _ _ s, (s, inr ErrConn)).

End Cache.

Arguments CachedBlogsPage : clear implicits.
Arguments json : clear implicits.
Arguments rvalue : clear implicits.
Arguments rentry : clear implicits.
Arguments IBlogCache : clear implicits.

(* ===================================================================== *)
(** * The blog use case: blog_usecase.go *)
(* ===================================================================== *)

(** Go's [int] on a 64-bit platform. *)
Definition wrap64 (z : Z) : Z := ((z + 2 ^ 63) mod 2 ^ 64 - 2 ^ 63)%Z.

(** contract.BlogFilterOptions, with the fields GetBlogs fills in. *)
Record BlogFilterOptions := mkFilter {
  Page : Z;
  PageSize : Z;
  SortBy : string;
  SortOrder : string;
  DateFrom : option Z;
  DateTo : option Z;
}.

(** isBot: the lowered User-Agent contains one of the signatures. *)
Definition botSignatures : list string :=
  ["bot"; "spider"; "crawl"; "slurp"; "curl"; "wget"; "python-requests";
   "httpclient"; "feedfetcher"; "mediapartners-google"].

Definition isBot (userAgent : string) : bool :=
  let ua := ToLower userAgent in
  existsb (λ sig, Contains ua sig) botSignatures.

(** The fraud limits of TrackBlogView. *)
Definition maxIpVelocity : Z := 10.
Definition ipVelocityTTL : Z := 5 * 60.
Definition maxUserIPs : Z := 5.
Definition userIPRotationTTL : Z := 60 * 60.

Definition ErrVelocity : error :=
  New "exceeded view velocity limit: too many views from this IP recently".
Definition ErrRotation : error :=
  New "exceeded IP rotation limit: too many IPs used by this user recently".
Definition ErrAlreadyViewed : error := New "already viewed recently".

Section UseCase.

Context {score : Type} `{EqDecision score}.
Variable CalculatePopularity : Z → Z → Z → Z → score.

(** [time.Time.UTC().Format(time.RFC3339)], of Go's library. *)
Variable FormatRFC3339 : Z → string.

(** GetBlogs of the repository: an aggregation pipeline over [blogs] and
    [users] (filter, optional author lookup, sort, skip, limit) with a
    separate count.  The use case is parametric in it. *)
Variable repo_GetBlogs :
  faults → BlogFilterOptions → database score → (list (Blog score) * Z) + error.

Definition buildBlogsListCacheKey (page pageSize : Z) (sortBy sortOrder : string)
    (dateFrom dateTo : option Z) : string :=
  let df := match dateFrom with Some t => FormatRFC3339 t | None => "" end in
  let dt := match dateTo with Some t => FormatRFC3339 t | None => "" end in
  "blogs:list:p=" +:+ pretty page +:+ ":s=" +:+ pretty pageSize
  +:+ ":sb=" +:+ sortBy +:+ ":so=" +:+ sortOrder
  +:+ ":df=" +:+ df +:+ ":dt=" +:+ dt.

Definition visible (b : Blog score) : bool :=
  bool_decide (Status b = BlogStatusPublished)
  || bool_decide (Status b = BlogStatusArchived).

(** The database part of GetBlogs, after the cache was tried. *)
Definition GetBlogs_db {S : Type} (blogCache : option (IBlogCache score S))
    (F : faults) (now : Z) (page pageSize : Z) (sortBy sortOrder : string)
    (dateFrom dateTo : option Z) (st : S) (db : database score)
  : S * ((list (Blog score) * Z * Z * Z) + error) :=
  let page := if (page <? 1)%Z then 1%Z else page in
  let pageSize := if (pageSize <? 1)%Z then 10%Z else pageSize in
  let filterOptions := mkFilter page pageSize sortBy sortOrder dateFrom dateTo in
  match repo_GetBlogs F filterOptions db with
  | inr err => (st, inr (Errorf "failed to get blogs" err))
  | inl (blogs, totalCount) =>
      let filteredBlogs := List.filter visible blogs in
      let totalPages := Z.quot totalCount pageSize in
      let totalPages :=
        if negb (Z.rem totalCount pageSize =? 0)%Z
        then wrap64 (totalPages + 1) else totalPages in
      let st' :=
        match blogCache with
        | Some cache =>
            let key := buildBlogsListCacheKey page pageSize sortBy sortOrder
                                              dateFrom dateTo in
            (c_SetBlogsPage _ cache now key (mkPage filteredBlogs totalCount) st).1
        | None => st
        end in
      (st', inl (filteredBlogs, totalCount, page, totalPages))
  end.

(** GetBlogs.  The result is (blogs, totalCount, currentPage, totalPages)
    or the error. *)
Definition GetBlogs {S : Type} (blogCache : option (IBlogCache score S))
    (F : faults) (now : Z) (page pageSize : Z) (sortBy sortOrder : string)
    (dateFrom dateTo : option Z) (st : S) (db : database score)
  : S * ((list (Blog score) * Z * Z * Z) + error) :=
  match blogCache with
  | Some cache =>
      let key := buildBlogsListCacheKey page pageSize sortBy sortOrder
                                        dateFrom dateTo in
      match c_GetBlogsPage _ cache now key st with
      | (st1, (Some cached, true, None)) =>
          let total := Total cached in
          let totalPages :=
            if (0 <? pageSize)%Z
            then Z.quot (wrap64 (wrap64 (total + pageSize) - 1)) pageSize
            else 0%Z in
          (st1, inl (Blogs cached, total, page, totalPages))
      | (st1, _) =>
          GetBlogs_db blogCache F now page pageSize sortBy sortOrder
                      dateFrom dateTo st1 db
      end
  | None =>
      GetBlogs_db blogCache F now page pageSize sortBy sortOrder
                  dateFrom dateTo st db
  end.

(** The database part of GetBlogDetail, after the cache was tried. *)
Definition GetBlogDetail_db {S : Type} (blogCache : option (IBlogCache score S))
    (F : faults) (now : Z) (slug : string) (st : S) (db : database score)
  : S * (Blog score + error) :=
  match GetBlogBySlug F slug db with
  | inr err => (st, inr (Errorf "failed to get blog" err))
  | inl blog =>
      if IsDeleted blog then (st, inr (New "blog not found"))
      else if negb (visible blog) then (st, inr (New "blog not found"))
      else
        match blogCache with
        | Some cache => ((c_SetBlogBySlug _ cache now slug blog st).1, inl blog)
        | None => (st, inl blog)
        end
  end.

Definition GetBlogDetail {S : Type} (blogCache : option (IBlogCache score S))
    (F : faults) (now : Z) (slug : string) (st : S) (db : database score)
  : S * (Blog score + error) :=
  if bool_decide (slug = "") then (st, inr (New "slug is required"))
  else
    match blogCache with
    | Some cache =>
        match c_GetBlogBySlug _ cache now slug st with
        | (st1, (Some cached, true, None)) =>
            if visible cached then (st1, inl cached)
            else GetBlogDetail_db blogCache F now slug st1 db
        | (st1, _) => GetBlogDetail_db blogCache F now slug st1 db
        end
    | None => GetBlogDetail_db blogCache F now slug st db
    end.

(** The cache invalidation that ends UpdateBlog. *)
Definition invalidate_after_update {S : Type} (cache : IBlogCache score S)
    (now : Z) (oldSlug : string) (updatedBlog : Blog score) (st : S) : S :=
  let st1 := (c_InvalidateBlogLists _ cache now st).1 in
  let st2 :=
    if negb (bool_decide (Slug updatedBlog = ""))
    then (c_InvalidateBlogBySlug _ cache now (Slug updatedBlog) st1).1
    else st1 in
  if negb (bool_decide (oldSlug = ""))
     && negb (bool_decide (Slug updatedBlog = oldSlug))
  then (c_InvalidateBlogBySlug _ cache now oldSlug st2).1
  else st2.

(** UpdateBlog.  [uuid] is what [uc.uuidgen.NewUUID()] returns in this
    call and [CensorAndCheckBlog] is the AI use case. *)
Definition UpdateBlog {S : Type} (blogCache : option (IBlogCache score S))
    (F : faults) (now : Z) (uuid : string)
    (CensorAndCheckBlog : string → string + error)
    (blogID authorID : string) (title content : option string)
    (status : option BlogStatus) (featuredImageID : option string)
    (st : S) (db : database score)
  : (S * database score) * (Blog score + error) :=
  if bool_decide (blogID = "") then ((st, db), inr (New "blog ID is required"))
  else if bool_decide (authorID = "") then ((st, db), inr (New "author ID is required"))
  else
    match GetBlogByID F blogID db with
    | inr err => ((st, db), inr (Errorf "failed to get blog" err))
    | inl blog =>
        if negb (bool_decide (AuthorID blog = authorID))
        then ((st, db),
              inr (New "unauthorized: only the author can update this blog"))
        else
          let oldSlug := Slug blog in
          let newSlug :=
            match title with
            | Some t => Some (ReplaceAll (ToLower t) " " "-" +:+ "-" +:+ uuid)
            | None => None
            end in
          let checked :=
            match content with
            | Some c =>
                match CensorAndCheckBlog c with
                | inr err => Some (Errorf "failed to check content" err)
                | inl feedback =>
                    if bool_decide (feedback = "no")
                    then Some (New "content contains inappropriate material")
                    else None
                end
            | None => None
            end in
          match checked with
          | Some err => ((st, db), inr err)
          | None =>
              let published_at :=
                match status with
                | Some s =>
                    if bool_decide (s = BlogStatusPublished)
                       && bool_decide (PublishedAt blog = None)
                    then Some now else None
                | None => None
                end in
              let updates : BlogUpdates score :=
                mkUpdates title newSlug content status published_at
                          featuredImageID None None in
              let '(db1, updErr) :=
                if (0 <? len_updates updates)
                then repo_UpdateBlog F now blogID
                       (mkUpdates title newSlug content status published_at
                                  featuredImageID None (Some now)) db
                else (db, None) in
              match updErr with
              | Some err => ((st, db1), inr (Errorf "failed to update blog" err))
              | None =>
                  match GetBlogByID F blogID db1 with
                  | inr err =>
                      ((st, db1), inr (Errorf "failed to get updated blog" err))
                  | inl updatedBlog =>
                      let st' :=
                        match blogCache with
                        | Some cache =>
                            invalidate_after_update cache now oldSlug updatedBlog st
                        | None => st
                        end in
                      ((st', db1), inl updatedBlog)
                  end
              end
          end
    end.

(** UpdateBlogPopularity. *)
Definition UpdateBlogPopularity (F : faults) (now : Z) (blogID : string)
    (db : database score) : database score * option error :=
  match GetBlogCounts F blogID db with
  | inr err => (db, Some err)
  | inl (views, likes, dislikes, comments) =>
      let popularity := CalculatePopularity views likes dislikes comments in
      repo_UpdateBlog F now blogID
        (mkUpdates None None None None None None (Some popularity) None) db
  end.

(** The commit step of TrackBlogView. *)
Definition commit_view (F : faults) (now : Z)
    (blogID userID ipAddress userAgent : string) (db : database score)
  : database score * option error :=
  match IncrementViewCount F blogID db with
  | (db1, Some err) => (db1, Some (Errorf "failed to increment view count" err))
  | (db1, None) =>
      match RecordView F now blogID userID ipAddress userAgent db1 with
      | (db2, Some err) => (db2, Some (Errorf "failed to record user view" err))
      | (db2, None) => ((UpdateBlogPopularity F now blogID db2).1, None)
      end
  end.

(** The IP velocity check of TrackBlogView: [Some] is the rejection. *)
Definition velocity_check {S : Type} (cache : IBlogCache score S) (F : faults)
    (now : Z) (blogID ipAddress : string) (st : S) (db : database score)
  : S * option error :=
  let st1 := (c_AddRecentViewByIP _ cache now ipAddress blogID ipVelocityTTL st).1 in
  match c_GetRecentViewCountByIP _ cache now ipAddress st1 with
  | (st2, inl ipViewCount) =>
      if (maxIpVelocity <? ipViewCount)%Z then (st2, Some ErrVelocity)
      else (st2, None)
  | (st2, inr _) =>
      let shortWindow := (now - 5 * 60)%Z in
      match GetRecentViewsByIP F ipAddress shortWindow db with
      | inl ipViews =>
          if (maxIpVelocity <? Z.of_nat (length ipViews))%Z
          then (st2, Some ErrVelocity) else (st2, None)
      | inr _ => (st2, None)
      end
  end.

(** len(ipSet) for the set of the views' IP addresses. *)
Definition distinct_ips (views : list BlogView) : nat :=
  size (list_to_set (map IPAddress views) : gset string).

(** The user IP-rotation check of TrackBlogView. *)
Definition rotation_check {S : Type} (cache : IBlogCache score S) (F : faults)
    (now : Z) (userID ipAddress : string) (st : S) (db : database score)
  : S * option error :=
  if bool_decide (userID = "") then (st, None)
  else
    let st1 :=
      (c_AddRecentViewByUser _ cache now userID ipAddress userIPRotationTTL st).1 in
    match c_GetRecentIPCountByUser _ cache now userID st1 with
    | (st2, inl userIPCount) =>
        if (maxUserIPs <? userIPCount)%Z then (st2, Some ErrRotation)
        else (st2, None)
    | (st2, inr _) =>
        let mediumWindow := (now - 60 * 60)%Z in
        match GetRecentViewsByUser F userID mediumWindow db with
        | inl userViews =>
            if (maxUserIPs <? Z.of_nat (distinct_ips userViews))%Z
            then (st2, Some ErrRotation) else (st2, None)
        | inr _ => (st2, None)
        end
    end.

(** TrackBlogView. *)
Definition TrackBlogView {S : Type} (blogCache : option (IBlogCache score S))
    (F : faults) (now : Z) (blogID userID ipAddress userAgent : string)
    (st : S) (db : database score) : (S * database score) * option error :=
  if bool_decide (blogID = "") then ((st, db), Some (New "blog ID is required"))
  else if bool_decide (userID = "") && bool_decide (ipAddress = "")
  then ((st, db),
        Some (New "unable to track view without user ID or IP address"))
  else if isBot userAgent then ((st, db), None)
  else
    match HasViewedRecently F blogID userID ipAddress db with
    | inr err =>
        ((st, db), Some (Errorf "failed to check for recent blog view" err))
    | inl true => ((st, db), Some ErrAlreadyViewed)
    | inl false =>
        let '(st', rejected) :=
          match blogCache with
          | Some cache =>
              match velocity_check cache F now blogID ipAddress st db with
              | (st1, Some err) => (st1, Some err)
              | (st1, None) => rotation_check cache F now userID ipAddress st1 db
              end
          | None => (st, None)
          end in
        match rejected with
        | Some err => ((st', db), Some err)
        | None =>
            let '(db', err) :=
              commit_view F now blogID userID ipAddress userAgent db in
            ((st', db'), err)
        end
    end.

(** The outcome the HTTP handler reports for TrackBlogView's result. *)
Inductive view_outcome :=
| Counted | AlreadyViewed | VelocityLimited | RotationLimited | Failed.

Definition TrackBlogViewHandler (err : option error) : view_outcome :=
  match err with
  | None => Counted
  | Some e =>
      let errMsg := Error e in
      if bool_decide (errMsg = "already viewed recently") then AlreadyViewed
      else if bool_decide (errMsg = Error ErrVelocity) then VelocityLimited
      else if bool_decide (errMsg = Error ErrRotation) then RotationLimited
      else Failed
  end.

End UseCase.
(* ===================================================================== *)
(** * A small instance for the examples *)
(* ===================================================================== *)

(** Stand-ins for what the code is parametric in: a popularity over the
    integers, a list query that returns every blog that is not deleted, and
    a printer for times. *)
Definition demo_popularity (views likes dislikes comments : Z) : Z :=
  (views + likes - dislikes + comments)%Z.

Definition demo_format (t : Z) : string := pretty t.

Definition demo_GetBlogs (F : faults) (o : BlogFilterOptions) (db : database Z)
  : (list (Blog Z) * Z) + error :=
  match f_GetBlogs F with
  | Some e => inr (Errorf "failed to get total blog count" e)
  | None =>
      let found := List.filter (λ b, negb (IsDeleted b)) (blogs db) in
      inl (found, Z.of_nat (length found))
  end.

Definition demo_blog (id slug : string) (status : BlogStatus) : Blog Z :=
  mkBlog id "Title" "Content" "author" slug status 0 0 0 0 0%Z None None 0 false.

(** Eleven published blogs b01 .. b11. *)
Definition demo_ids : list string :=
  ["b01"; "b02"; "b03"; "b04"; "b05"; "b06"; "b07"; "b08"; "b09"; "b10"; "b11"].

Definition demo_db : database Z :=
  mkDB (map (λ id, demo_blog id ("slug-" +:+ id) BlogStatusPublished) demo_ids) [].

Definition demo_agent : string := "Mozilla/5.0 (X11; Linux x86_64)".

(** One view request: when, which blog, by whom, from where. *)
Record view_event := mkEvent {
  ev_time : Z;
  ev_blog : string;
  ev_user : string;
  ev_ip : string;
  ev_agent : string;
}.

(** One signed-in user viewing six blogs from six addresses within the
    hour. *)
Definition views_rotating : list view_event :=
  [mkEvent 0 "b01" "u1" "10.0.0.1" demo_agent;
   mkEvent 600 "b02" "u1" "10.0.0.2" demo_agent;
   mkEvent 1200 "b03" "u1" "10.0.0.3" demo_agent;
   mkEvent 1800 "b04" "u1" "10.0.0.4" demo_agent;
   mkEvent 2400 "b05" "u1" "10.0.0.5" demo_agent;
   mkEvent 3000 "b06" "u1" "10.0.0.6" demo_agent].

(** A database with a draft and an archived blog. *)
Definition demo_draft_db : database Z :=
  mkDB [demo_blog "b01" "slug-b01" BlogStatusDraft;
        demo_blog "b02" "slug-b02" BlogStatusArchived] [].

(* ===================================================================== *)
(** * Sequences of view requests *)
(* ===================================================================== *)

Section Views.

Context {score : Type} `{EqDecision score}.
Variable CalculatePopularity : Z → Z → Z → Z → score.

(** One request through TrackBlogView, with every driver call answering. *)
Definition track {S : Type} (blogCache : option (IBlogCache score S))
    (e : view_event) (st : S) (db : database score)
  : (S * database score) * option error :=
  TrackBlogView CalculatePopularity blogCache no_faults (ev_time e) (ev_blog e)
                (ev_user e) (ev_ip e) (ev_agent e) st db.

(** The requests one after the other; the outcomes the handler reports,
    in order, and the state left. *)
Fixpoint run_views {S : Type} (blogCache : option (IBlogCache score S))
    (evs : list view_event) (st : S) (db : database score)
  : list view_outcome * (S * database score) :=
  match evs with
  | [] => ([], (st, db))
  | e :: evs' =>
      let '((st1, db1), err) := track blogCache e st db in
      let '(outs, final) := run_views blogCache evs' st1 db1 in
      (TrackBlogViewHandler err :: outs, final)
  end.

(** viewCount of a blog. *)
Definition view_count (blogID : string) (db : database score) : option Z :=
  ViewCount <$> find_one (blog_id_filter blogID) (blogs db).

(** The set of recent views of an address, as Redis holds it after a
    request at second [t0] that left it with [c0] blogs; [None]: no key. *)
Definition ip_set (r : gmap string (rentry score)) (ip : string)
    (last : option (Z * Z)) (s : gset string) : Prop :=
  match last with
  | None => r !! recentViewsByIPKey ip = None
  | Some (t0, c0) =>
      r !! recentViewsByIPKey ip
      = Some (mkEntry (RSet s) (Some (t0 + ipVelocityTTL)%Z))
      ∧ Z.of_nat (size s) = c0
  end.

(** Blogs that can be viewed for the first time: they have an id, are in
    [blogs] and not deleted, and [blog_views] has no record of them. *)
Definition viewable (bs : list string) (db : database score) : Prop :=
  ∀ b, b ∈ bs →
    b ≠ ""
    ∧ 1 ≤ count_docs (blog_id_filter b) (blogs db)
    ∧ count_docs (λ v, bool_decide (BlogID v = b)) (blog_views db) = 0.

End Views.

(** For each request from one address, the size of the address's set once
    the request's blog was added: the set lives on while each request comes
    within [ttl] seconds of the one before, and starts again with the first
    request after a longer gap.  [last] is the second of the request before
    and the size then. *)
Fixpoint window_counts (ttl : Z) (last : option (Z * Z)) (times : list Z)
  : list Z :=
  match times with
  | [] => []
  | t :: times' =>
      let c :=
        match last with
        | Some (t0, c0) => if (t <=? t0 + ttl)%Z then (c0 + 1)%Z else 1%Z
        | None => 1%Z
        end in
      c :: window_counts ttl (Some (t, c)) times'
  end.

(** The size of the address's set once the request at [now] is added. *)
Definition next_count (now : Z) (last : option (Z * Z)) : Z :=
  match last with
  | Some (t0, c0) => if (now <=? t0 + ipVelocityTTL)%Z then (c0 + 1)%Z else 1%Z
  | None => 1%Z
  end.

(** Each request comes within [ttl] seconds of the one before. *)
Fixpoint gaps_within (ttl : Z) (times : list Z) : bool :=
  match times with
  | t :: (t' :: _) as rest => (t' <=? t + ttl)%Z && gaps_within ttl rest
  | _ => true
  end.

(** What the velocity check makes of a set of that size. *)
Definition velocity_outcome (c : Z) : view_outcome :=
  if (maxIpVelocity <? c)%Z then VelocityLimited else Counted.

(** Requests from one IP, one per blog, at the given seconds. *)
Definition views_from (ip : string) (times : list Z) (blogIDs : list string)
  : list view_event :=
  zip_with (λ t b, mkEvent t b "" ip demo_agent) times blogIDs.

(** Eleven requests within five minutes, and the same spread over six. *)
Definition times_5min : list Z := [0; 29; 58; 87; 116; 145; 174; 203; 232; 261; 290]%Z.
Definition times_6min : list Z := [0; 36; 72; 108; 144; 180; 216; 252; 288; 324; 360]%Z.
(* ===================================================================== *)
(** * The popularity score *)
(* ===================================================================== *)

Module Popularity.

Section Weights.

(** The weights, internal tuning parameters of the scorer. *)
Variables w1 w2 w3 w4 : R.

(** Modelled from the spec: utils.CalculatePopularity, which the use cases
    call and which is not among the sources.  Section 4.1 gives the shape
    [w1*log(1+views) + w2*likes - w3*dislikes + w4*comments]; the value is
    taken in the reals, without the rounding of float64. *)
Definition CalculatePopularity (views likes dislikes comments : Z) : R :=
  (w1 * ln (1 + IZR views) + w2 * IZR likes - w3 * IZR dislikes
   + w4 * IZR comments)%R.

End Weights.

End Popularity.
(* ===================================================================== *)
(** * The reads of the reaction use case *)
(* ===================================================================== *)

Module ReactionQueries.
Import Reaction.

#[global] Instance RState_eq_dec : EqDecision RState.
Proof. solve_decision. Defined.

(** Go error values as [errors.Is] sees them.  A package-level
    [errors.New] variable is one value, told apart from every other by the
    variable it is; [fmt.Errorf] with %w wraps a value. *)
Inductive gerror :=
| Sentinel (var msg : string)
| Wrap (prefix : string) (inner : gerror).

(** err.Error(). *)
Fixpoint gError (e : gerror) : string :=
  match e with
  | Sentinel _ msg => msg
  | Wrap p inner => p +:+ ": " +:+ gError inner
  end.

(** [err == target] for two error values: the same variable. *)
Definition same_error (a b : gerror) : bool :=
  match a, b with
  | Sentinel v _, Sentinel w _ => bool_decide (v = w)
  | _, _ => false
  end.

(** errors.Is: the value itself or one it wraps. *)
Fixpoint errors_Is (err target : gerror) : bool :=
  same_error err target
  || match err with
     | Wrap _ inner => errors_Is inner target
     | Sentinel _ _ => false
     end.

(** [ErrReactionNotFound] of package mongodb (like_repo.go) and
    [ErrReactionNotFound] of package usecase (like_usecase.go): two
    variables with one message. *)
Definition mongodb_ErrReactionNotFound : gerror :=
  Sentinel "mongodb.ErrReactionNotFound" "reaction not found".

Definition usecase_ErrReactionNotFound : gerror :=
  Sentinel "usecase.ErrReactionNotFound" "reaction not found".

(** The value the Mongo repository returns for each [error]. *)
Definition repo_error (e : error) : gerror :=
  match e with
  | ErrReactionNotFound => mongodb_ErrReactionNotFound
  | ErrDriver msg => Wrap "failed to retrieve reaction" (Sentinel "driver" msg)
  end.

(** GetUserReaction: the reaction and the error it returns. *)
Definition GetUserReaction (userID targetID : string) (c : list Like)
  : option Like * option gerror :=
  match GetReactionByUserIDAndTargetID userID targetID c with
  | inl like => (Some like, None)
  | inr e =>
      let err := repo_error e in
      if errors_Is err usecase_ErrReactionNotFound then (None, None)
      else (None, Some (Wrap "failed to get user's reaction" err))
  end.

(** GetReactionCounts, with both counts answering. *)
Definition GetReactionCounts (targetID : string) (c : list Like) : nat * nat :=
  (CountLikesByTargetID targetID c, CountDislikesByTargetID targetID c).

(** What LikeBlogHandler answers for an authenticated user: 200 with
    "Blog liked successfully" or "Blog unliked successfully", or 500 with
    the error of the toggle. *)
Inductive like_response :=
| BlogLiked | BlogUnliked | LikeInternalError (e : error).

Definition LikeBlogHandler (uuid userID blogID : string) (c : list Like)
  : list Like * like_response :=
  let o := ToggleLike uuid userID blogID TargetTypeBlog c in
  match out_err o with
  | Some e => (out_likes o, LikeInternalError e)
  | None =>
      match (GetUserReaction userID blogID (out_likes o)).1 with
      | Some reaction =>
          if bool_decide (Type_ reaction = LIKE_TYPE_LIKE)
          then (out_likes o, BlogLiked) else (out_likes o, BlogUnliked)
      | None => (out_likes o, BlogUnliked)
      end
  end.

(** The documents one user's toggles never touch: those of another
    (user, target) pair. *)
Definition other_pair (u t : string) (d : Like) : bool :=
  negb (bool_decide (UserID d = u) && bool_decide (TargetID d = t)).

(** By how much a toggle of kind [k] moves (likes, dislikes) of its
    target, from the state the user is in. *)
Definition count_change (k : kind) (s : RState) : Z * Z :=
  match k, s with
  | KLike, RNone => (1, 0)
  | KLike, RLiked => (-1, 0)
  | KLike, RDisliked => (1, -1)
  | KDislike, RNone => (0, 1)
  | KDislike, RDisliked => (0, -1)
  | KDislike, RLiked => (-1, 1)
  end%Z.

(** u1 dislikes b1 (after a like), u2 likes it. *)
Definition demo_collection : list Like :=
  run [demo_like "r1"; demo_dislike "r2";
       mkOp KLike "r3" "u2" "b1" TargetTypeBlog] [].

End ReactionQueries.

(* ===================================================================== *)
(** * Whitespace trimming and the sort stage *)
(* ===================================================================== *)

(** unicode.IsSpace on ASCII: space and \t \n \v \f \r. *)
Definition isSpace (a : ascii) : bool :=
  let n := nat_of_ascii a in
  (n =? 32) || ((9 <=? n) && (n <=? 13)).

Fixpoint TrimLeft (s : string) : string :=
  match s with
  | EmptyString => EmptyString
  | String a s' => if isSpace a then TrimLeft s' else s
  end.

Fixpoint TrimRight (s : string) : string :=
  match s with
  | EmptyString => EmptyString
  | String a s' =>
      match TrimRight s' with
      | EmptyString => if isSpace a then EmptyString else String a EmptyString
      | t => String a t
      end
  end.

(** strings.TrimSpace, on ASCII text. *)
Definition TrimSpace (s : string) : string := TrimRight (TrimLeft s).

(** The sort stage buildBlogFilterAndSort returns: the field the pipeline
    sorts on and the direction, 1 or -1. *)
Definition sortStage (opts : BlogFilterOptions) : string * Z :=
  let sortOrder := if bool_decide (SortOrder opts = "asc") then 1%Z else (-1)%Z in
  let sortKey := SortBy opts in
  let sortKey :=
    if bool_decide (sortKey = "") || bool_decide (sortKey = "created_at")
    then "created_at"
    else if bool_decide (sortKey = "view_count") then "view_count"
    else if bool_decide (sortKey = "like_count") then "like_count"
    else if bool_decide (sortKey = "popularity") then "popularity"
    else if bool_decide (sortKey = "username")
            || bool_decide (sortKey = "first_name")
            || bool_decide (sortKey = "last_name")
    then "authorDetails." +:+ sortKey
    else "created_at" in
  (sortKey, sortOrder).

Definition sortKeys : list string :=
  ["created_at"; "view_count"; "like_count"; "popularity";
   "authorDetails.username"; "authorDetails.first_name";
   "authorDetails.last_name"].

(* ===================================================================== *)
(** * Writes of blog_repo.go and blog_usecase.go *)
(* ===================================================================== *)

(** Which of the further driver calls fail, and with what. *)
Record write_faults := mkWriteFaults {
  f_CreateBlog : option error;
  f_AddTagsToBlog : option error;
  f_DeleteBlog : option error;
  f_IncrementLikeCount : option error;
  f_DecrementLikeCount : option error;
}.

Definition no_write_faults : write_faults :=
  mkWriteFaults None None None None None.

(** The server's answer to an insert whose _id is taken. *)
Definition ErrDuplicateKey : error := New "E11000 duplicate key error".

Section BlogWrites.

Context {score : Type} `{EqDecision score}.
Variable CalculatePopularity : Z → Z → Z → Z → score.

Definition with_updated_at (now : Z) (b : Blog score) : Blog score :=
  mkBlog (ID b) (Title b) (Content b) (AuthorID b) (Slug b) (Status b)
         (ViewCount b) (LikeCount b) (DislikeCount b) (CommentCount b)
         (Popularity b) (FeaturedImageID b) (PublishedAt b) now (IsDeleted b).

(** CreateBlog of the repository: the timestamps are set and the document
    is inserted; [_id] is the blog's ID, which the collection keeps
    unique. *)
Definition repo_CreateBlog (G : write_faults) (now : Z) (blog : Blog score)
    (db : database score) : database score * Blog score * option error :=
  let blog := with_updated_at now blog in
  match f_CreateBlog G with
  | Some e => (db, blog, Some (Errorf "failed to create blog post" e))
  | None =>
      if existsb (λ b, bool_decide (ID b = ID blog)) (blogs db)
      then (db, blog, Some (Errorf "failed to create blog post" ErrDuplicateKey))
      else (mkDB (blogs db ++ [blog]) (blog_views db), blog, None)
  end.

(** AddTagsToBlog.  The [tags] array is not among the fields of [Blog]:
    of the update, the $set of [updated_at] is what shows. *)
Definition repo_AddTagsToBlog (G : write_faults) (now : Z) (blogID : string)
    (tagIDs : list string) (db : database score)
  : database score * option error :=
  if (length tagIDs =? 0) then (db, None)
  else
    match f_AddTagsToBlog G with
    | Some e => (db, Some (Errorf "failed to add tags to blog" e))
    | None =>
        match update_one (blog_id_filter blogID) (with_updated_at now)
                         (blogs db) with
        | Some bs => (mkDB bs (blog_views db), None)
        | None => (db, Some (New "blog post not found or already deleted"))
        end
    end.

(** CreateBlog of the use case.  [uuid1] and [uuid2] are what the two
    calls of [uc.uuidgen.NewUUID()] return, [aiUC] is the AI use case, if
    there is one. *)
Definition CreateBlog {S : Type} (blogCache : option (IBlogCache score S))
    (G : write_faults) (now : Z) (uuid1 uuid2 : string)
    (aiUC : option (string → string + error))
    (title content authorID slug : string) (status : BlogStatus)
    (featuredImageID : option string) (tags : list string)
    (st : S) (db : database score)
  : (S * database score) * (Blog score + error) :=
  if bool_decide (title = "") then ((st, db), inr (New "title is required"))
  else if bool_decide (content = "")
  then ((st, db), inr (New "content is required"))
  else if bool_decide (authorID = "")
  then ((st, db), inr (New "author ID is required"))
  else
    let slug :=
      if bool_decide (slug = "") then ReplaceAll (ToLower title) " " "-"
      else slug in
    let blog :=
      mkBlog uuid1 title content authorID (slug +:+ "-" +:+ uuid2) status
             0 0 0 0 (CalculatePopularity 0 0 0 0) featuredImageID
             (if bool_decide (status = BlogStatusPublished)
              then Some now else None)
             now false in
    let blocked :=
      match aiUC with
      | Some CensorAndCheckBlog =>
          match CensorAndCheckBlog content with
          | inr _ => false
          | inl feedback =>
              bool_decide (TrimSpace (ToLower feedback) = "no")
          end
      | None => false
      end in
    if blocked
    then ((st, db), inr (New "content contains inappropriate material"))
    else
      match repo_CreateBlog G now blog db with
      | (db1, _, Some err) =>
          ((st, db1), inr (Errorf "failed to create blog" err))
      | (db1, blog, None) =>
          let db2 :=
            if (0 <? length tags)
            then (repo_AddTagsToBlog G now (ID blog) tags db1).1
            else db1 in
          let st' :=
            match blogCache with
            | Some cache => (c_InvalidateBlogLists _ cache now st).1
            | None => st
            end in
          ((st', db2), inl blog)
      end.

(** $set of is_deleted and updated_at. *)
Definition soft_delete (now : Z) (b : Blog score) : Blog score :=
  mkBlog (ID b) (Title b) (Content b) (AuthorID b) (Slug b) (Status b)
         (ViewCount b) (LikeCount b) (DislikeCount b) (CommentCount b)
         (Popularity b) (FeaturedImageID b) (PublishedAt b) now true.

(** DeleteBlog of the repository. *)
Definition repo_DeleteBlog (G : write_faults) (now : Z) (blogID : string)
    (db : database score) : database score * option error :=
  match f_DeleteBlog G with
  | Some e => (db, Some (Errorf "failed to delete blog" e))
  | None =>
      match update_one (blog_id_filter blogID) (soft_delete now) (blogs db) with
      | Some bs => (mkDB bs (blog_views db), None)
      | None => (db, Some (New "blog post not found"))
      end
  end.

(** DeleteBlog of the use case. *)
Definition DeleteBlog {S : Type} (blogCache : option (IBlogCache score S))
    (F : faults) (G : write_faults) (now : Z) (blogID userID : string)
    (isAdmin : bool) (st : S) (db : database score)
  : (S * database score) * (bool * option error) :=
  if bool_decide (blogID = "")
  then ((st, db), (false, Some (New "blog ID is required")))
  else if bool_decide (userID = "")
  then ((st, db), (false, Some (New "user ID is required")))
  else
    match GetBlogByID F blogID db with
    | inr err => ((st, db), (false, Some (Errorf "failed to get blog" err)))
    | inl blog =>
        if negb isAdmin && negb (bool_decide (AuthorID blog = userID))
        then ((st, db),
              (false,
               Some (New "unauthorized: only the author or admin can delete this blog")))
        else
          match repo_DeleteBlog G now blogID db with
          | (db1, Some err) =>
              ((st, db1), (false, Some (Errorf "failed to delete blog" err)))
          | (db1, None) =>
              let st' :=
                match blogCache with
                | Some cache =>
                    let st1 := (c_InvalidateBlogLists _ cache now st).1 in
                    if negb (bool_decide (Slug blog = ""))
                    then (c_InvalidateBlogBySlug _ cache now (Slug blog) st1).1
                    else st1
                | None => st
                end in
              ((st', db1), (true, None))
          end
    end.

(** $inc of like_count. *)
Definition inc_likes (k : Z) (b : Blog score) : Blog score :=
  mkBlog (ID b) (Title b) (Content b) (AuthorID b) (Slug b) (Status b)
         (ViewCount b) (LikeCount b + k) (DislikeCount b) (CommentCount b)
         (Popularity b) (FeaturedImageID b) (PublishedAt b) (UpdatedAt b)
         (IsDeleted b).

Definition IncrementLikeCount (G : write_faults) (blogID : string)
    (db : database score) : database score * option error :=
  match f_IncrementLikeCount G with
  | Some e => (db, Some (Errorf "failed to increment like count" e))
  | None =>
      match update_one (blog_id_filter blogID) (inc_likes 1) (blogs db) with
      | Some bs => (mkDB bs (blog_views db), None)
      | None => (db, Some (New "blog post not found"))
      end
  end.

(** Filter {"_id": blogID, "is_deleted": false, "like_count": {"$gt": 0}}. *)
Definition blog_liked_filter (blogID : string) (b : Blog score) : bool :=
  blog_id_filter blogID b && (0 <? LikeCount b)%Z.

Definition DecrementLikeCount (G : write_faults) (blogID : string)
    (db : database score) : database score * option error :=
  match f_DecrementLikeCount G with
  | Some e => (db, Some (Errorf "failed to decrement like count" e))
  | None =>
      match update_one (blog_liked_filter blogID) (inc_likes (-1)) (blogs db) with
      | Some bs => (mkDB bs (blog_views db), None)
      | None =>
          (db, Some (New "blog post not found or like count is already zero"))
      end
  end.

(** ** The blog side of a reaction toggle *)

(** $set of like_count, dislike_count, popularity and updated_at. *)
Definition set_reaction_counts (likes dislikes : Z) (popularity : score)
    (now : Z) (b : Blog score) : Blog score :=
  mkBlog (ID b) (Title b) (Content b) (AuthorID b) (Slug b) (Status b)
         (ViewCount b) likes dislikes (CommentCount b)
         popularity (FeaturedImageID b) (PublishedAt b) now (IsDeleted b).

(** UpdateBlog of the repository with the map
    {like_count, dislike_count, popularity}. *)
Definition repo_UpdateBlog_counts (F : faults) (now : Z) (blogID : string)
    (likes dislikes : Z) (popularity : score) (db : database score)
  : database score * option error :=
  match f_UpdateBlog F with
  | Some e => (db, Some (Errorf "failed to update blog" e))
  | None =>
      let set := set_reaction_counts likes dislikes popularity now in
      match find_one (blog_id_filter blogID) (blogs db) with
      | None => (db, Some (New "blog post not found"))
      | Some b =>
          if bool_decide (set b = b)
          then (db, Some (New "blog post was not modified"))
          else
            (mkDB (default (blogs db)
                     (update_one (blog_id_filter blogID) set (blogs db)))
                  (blog_views db), None)
      end
  end.

(** The end of ToggleLike and ToggleDislike: with the two counts at hand,
    the blog's counters and popularity are rewritten; the result of the
    update is dropped. *)
Definition sync_reaction_counts (F : faults) (now : Z) (targetID : string)
    (counts : option (nat * nat)) (db : database score) : database score :=
  match counts with
  | None => db
  | Some (likes, dislikes) =>
      let '(views, comments) :=
        match GetBlogByID F targetID db with
        | inl blog => (ViewCount blog, CommentCount blog)
        | inr _ => (0%Z, 0%Z)
        end in
      let popularity :=
        CalculatePopularity views (Z.of_nat likes) (Z.of_nat dislikes) comments in
      (repo_UpdateBlog_counts F now targetID (Z.of_nat likes) (Z.of_nat dislikes)
                              popularity db).1
  end.

(** ToggleLike and ToggleDislike over both collections. *)
Definition ToggleLikeBlog (F : faults) (now : Z) (uuid userID targetID : string)
    (targetType : Reaction.TargetType) (c : list Reaction.Like)
    (db : database score)
  : (list Reaction.Like * database score) * option Reaction.error :=
  let o := Reaction.ToggleLike uuid userID targetID targetType c in
  ((Reaction.out_likes o,
    sync_reaction_counts F now targetID (Reaction.out_counts o) db),
   Reaction.out_err o).

Definition ToggleDislikeBlog (F : faults) (now : Z) (uuid userID targetID : string)
    (targetType : Reaction.TargetType) (c : list Reaction.Like)
    (db : database score)
  : (list Reaction.Like * database score) * option Reaction.error :=
  let o := Reaction.ToggleDislike uuid userID targetID targetType c in
  ((Reaction.out_likes o,
    sync_reaction_counts F now targetID (Reaction.out_counts o) db),
   Reaction.out_err o).

(** The toggle of either kind. *)
Definition ToggleBlog (k : Reaction.kind) (F : faults) (now : Z)
    (uuid userID targetID : string) (targetType : Reaction.TargetType)
    (c : list Reaction.Like) (db : database score)
  : (list Reaction.Like * database score) * option Reaction.error :=
  match k with
  | Reaction.KLike => ToggleLikeBlog F now uuid userID targetID targetType c db
  | Reaction.KDislike => ToggleDislikeBlog F now uuid userID targetID targetType c db
  end.

(** ExistsBlog of the like use case. *)
Definition ExistsBlog (F : faults) (blogID : string) (db : database score) : bool :=
  match GetBlogByID F blogID db with
  | inl _ => true
  | inr _ => false
  end.

(** What DislikeBlogHandler answers for an authenticated user: 400 for a
    blog id that is not 36 bytes long, 404 for a blog that is not there,
    500 with the toggle's error, or 200 with "Blog disliked successfully"
    or "Blog undisliked successfully". *)
Inductive dislike_response :=
| InvalidBlogID | BlogNotFound | DislikeInternalError (e : Reaction.error)
| BlogDisliked | BlogUndisliked.

Definition DislikeBlogHandler (F : faults) (now : Z) (uuid userID blogID : string)
    (c : list Reaction.Like) (db : database score)
  : (list Reaction.Like * database score) * dislike_response :=
  if negb (String.length blogID =? 36) then ((c, db), InvalidBlogID)
  else if negb (ExistsBlog F blogID db) then ((c, db), BlogNotFound)
  else
    match ToggleDislikeBlog F now uuid userID blogID Reaction.TargetTypeBlog c db with
    | (s, Some e) => (s, DislikeInternalError e)
    | ((c', db'), None) =>
        match (ReactionQueries.GetUserReaction userID blogID c').1 with
        | Some reaction =>
            if bool_decide (Reaction.Type_ reaction = Reaction.LIKE_TYPE_DISLIKE)
            then ((c', db'), BlogDisliked) else ((c', db'), BlogUndisliked)
        | None => ((c', db'), BlogUndisliked)
        end
    end.

(** The fields of a blog that no update of the use case writes. *)
Definition fixed_fields (b : Blog score) : string * string * Z * Z * Z * Z * bool :=
  (ID b, AuthorID b, ViewCount b, LikeCount b, DislikeCount b, CommentCount b,
   IsDeleted b).

(** Every stored slug is non-empty. *)
Definition slugs_nonempty (db : database score) : Prop :=
  Forall (λ b, Slug b ≠ "") (blogs db).

(** ids and slugs are unique among the blogs. *)
Definition unique_ids (db : database score) : Prop :=
  ∀ id, count_docs (λ b, bool_decide (ID b = id)) (blogs db) ≤ 1.

Definition unique_slugs (db : database score) : Prop :=
  ∀ slug, count_docs (λ b, bool_decide (Slug b = slug)) (blogs db) ≤ 1.

(** A set key of Redis after an add at second [t0] that left it with
    [c0] members and the expiry [ttl] seconds on; [None]: no key. *)
Definition key_set (r : gmap string (rentry score)) (key : string) (ttl : Z)
    (last : option (Z * Z)) (s : gset string) : Prop :=
  match last with
  | None => r !! key = None
  | Some (t0, c0) =>
      r !! key = Some (mkEntry (RSet s) (Some (t0 + ttl)%Z))
      ∧ Z.of_nat (size s) = c0
  end.

(** Every cached list page holds visible blogs only. *)
Definition pages_visible (r : gmap string (rentry score)) : Prop :=
  ∀ k e p, r !! k = Some e → r_value e = RString (JPage p) →
           Forall (λ b, visible b = true) (Blogs p).

End BlogWrites.

Section PopularBlogs.

Context {score : Type} `{EqDecision score}.
Variable repo_GetBlogs :
  faults → BlogFilterOptions → database score → (list (Blog score) * Z) + error.

(** GetPopularBlogs.  The result is (blogs, totalCount, currentPage,
    totalPages) or the error. *)
Definition GetPopularBlogs (F : faults) (page pageSize : Z) (db : database score)
  : (list (Blog score) * Z * Z * Z) + error :=
  let page := if (page <? 1)%Z then 1%Z else page in
  let pageSize := if (pageSize <? 1)%Z then 10%Z else pageSize in
  let filterOptions := mkFilter page pageSize "popularity" "desc" None None in
  match repo_GetBlogs F filterOptions db with
  | inr err => inr (Errorf "failed to get popular blogs" err)
  | inl (blogs, totalCount) =>
      let totalPages := Z.quot totalCount pageSize in
      let totalPages :=
        if negb (Z.rem totalCount pageSize =? 0)%Z
        then wrap64 (totalPages + 1) else totalPages in
      inl (blogs, totalCount, page, totalPages)
  end.

End PopularBlogs.

(** The size of a set once a member is added at [now]. *)
Definition next_size (ttl now : Z) (last : option (Z * Z)) : Z :=
  match last with
  | Some (t0, c0) => if (now <=? t0 + ttl)%Z then (c0 + 1)%Z else 1%Z
  | None => 1%Z
  end.

(** What the rotation check makes of a set of that size. *)
Definition rotation_outcome (c : Z) : view_outcome :=
  if (maxUserIPs <? c)%Z then RotationLimited else Counted.

(** Requests of one user, one per (blog, address) visit, at the given
    seconds. *)
Definition views_by (userID : string) (times : list Z)
    (visits : list (string * string)) : list view_event :=
  zip_with (λ t v, mkEvent t v.1 userID v.2 demo_agent) times visits.

(** Six blogs from six addresses, fifty minutes apart. *)
Definition demo_visits : list (string * string) :=
  [("b01", "10.0.0.1"); ("b02", "10.0.0.2"); ("b03", "10.0.0.3");
   ("b04", "10.0.0.4"); ("b05", "10.0.0.5"); ("b06", "10.0.0.6")].

Definition times_50min : list Z := [0; 3000; 6000; 9000; 12000; 15000]%Z.

(** Samples for the examples: an AI use case that answers with a
    capitalised No. *)
Definition demo_ai_No (content : string) : string + error := inl " No ".

(** The blog CreateBlog makes at second 7 from the title "My Title" with
    the ids id1 and id2. *)
Definition demo_created : Blog Z :=
  mkBlog "id1" "My Title" "text" "author" "my-title-id2" BlogStatusPublished
         0 0 0 0 0%Z None (Some 7%Z) 7 false.
(* ===================================================================== *)
(** * Facts about collections *)
(* ===================================================================== *)

Section CountingFacts.
Context {A : Type}.

Lemma count_docs_app p (l1 l2 : list A) :
  count_docs p (l1 ++ l2) = count_docs p l1 + count_docs p l2.
Proof. induction l1 as [|d l1 IH]; simpl; [done | rewrite IH; lia]. Qed.

Lemma count_docs_mid p (l1 l2 : list A) d :
  count_docs p (l1 ++ d :: l2) = count_docs p l1 + b2n (p d) + count_docs p l2.
Proof. rewrite count_docs_app. simpl. unfold b2n. lia. Qed.

Lemma count_docs_snoc p (l : list A) d :
  count_docs p (l ++ [d]) = count_docs p l + b2n (p d).
Proof. rewrite count_docs_mid. simpl. lia. Qed.

Lemma count_docs_In p (c : list A) d :
  In d c → p d = true → 1 ≤ count_docs p c.
Proof.
  induction c as [|x c IH]; simpl; [done |].
  intros [-> | Hin] Hp; [rewrite Hp; lia |].
  specialize (IH Hin Hp). lia.
Qed.

(** With at most one match, two matching documents are the same one. *)
Lemma count_docs_unique p (c : list A) a b :
  count_docs p c ≤ 1 → In a c → In b c → p a = true → p b = true → a = b.
Proof.
  induction c as [|x c IH]; simpl; [done |].
  intros Hle [-> | Ha] [-> | Hb] Hpa Hpb; try done.
  - rewrite Hpa in Hle. pose proof (count_docs_In p c b Hb Hpb). lia.
  - rewrite Hpb in Hle. pose proof (count_docs_In p c a Ha Hpa). lia.
  - apply IH; try done. destruct (p x); lia.
Qed.

Lemma find_one_None p (c : list A) :
  find_one p c = None ↔ count_docs p c = 0.
Proof.
  induction c as [|x c IH]; simpl; [done |].
  destruct (p x); simpl; [split; [done | lia] | done].
Qed.

Lemma find_one_Some p (c : list A) d :
  find_one p c = Some d →
  ∃ l1 l2, c = l1 ++ d :: l2 ∧ p d = true ∧ count_docs p l1 = 0.
Proof.
  induction c as [|x c IH]; simpl; [done |].
  destruct (p x) eqn:Hpx.
  - intros [= ->]. by exists [], c.
  - intros H. destruct (IH H) as (l1 & l2 & -> & Hp & H0).
    exists (x :: l1), l2. simpl. rewrite Hpx. done.
Qed.

Lemma find_one_In p (c : list A) d :
  find_one p c = Some d → In d c ∧ p d = true.
Proof.
  intros H. destruct (find_one_Some _ _ _ H) as (l1 & l2 & -> & Hp & _).
  split; [apply in_elt | done].
Qed.

(** FindOne is determined as soon as the filter matches at most once. *)
Lemma find_one_unique p (c : list A) d :
  count_docs p c ≤ 1 → In d c → p d = true → find_one p c = Some d.
Proof.
  intros Hle Hin Hp.
  destruct (find_one p c) as [e|] eqn:He.
  - destruct (find_one_In _ _ _ He) as [Hine Hpe].
    f_equal. by eapply count_docs_unique.
  - apply find_one_None in He.
    pose proof (count_docs_In p c d Hin Hp). lia.
Qed.

Lemma update_one_None p f (c : list A) :
  update_one p f c = None ↔ count_docs p c = 0.
Proof.
  induction c as [|x c IH]; simpl; [done |].
  destruct (p x); simpl; [split; [done | lia] |].
  destruct (update_one p f c); [split; [done |] | tauto].
  intros H. apply IH in H. done.
Qed.

Lemma update_one_Some p f (c c' : list A) :
  update_one p f c = Some c' →
  ∃ l1 d l2, c = l1 ++ d :: l2 ∧ c' = l1 ++ f d :: l2
             ∧ p d = true ∧ count_docs p l1 = 0.
Proof.
  revert c'. induction c as [|x c IH]; simpl; [done |]. intros c'.
  destruct (p x) eqn:Hpx.
  - intros [= <-]. by exists [], x, c.
  - destruct (update_one p f c) as [c''|]; [| done].
    intros [= <-]. destruct (IH _ eq_refl) as (l1 & d & l2 & -> & -> & Hp & H0).
    exists (x :: l1), d, l2. simpl. rewrite Hpx. done.
Qed.

(** Counting after one document was rewritten in place. *)
Lemma count_docs_replace q (l1 l2 : list A) d d' :
  count_docs q (l1 ++ d' :: l2) + b2n (q d)
  = count_docs q (l1 ++ d :: l2) + b2n (q d').
Proof. rewrite !count_docs_mid. lia. Qed.
(** UpdateOne rewrites the document FindOne returns. *)
Lemma update_one_find_one p f (c : list A) d :
  find_one p c = Some d →
  ∃ l1 l2, c = l1 ++ d :: l2 ∧ count_docs p l1 = 0
           ∧ update_one p f c = Some (l1 ++ f d :: l2).
Proof.
  induction c as [|x c IH]; simpl; [done |].
  destruct (p x) eqn:Hpx.
  - intros [= ->]. by exists [], c.
  - intros H. destruct (IH H) as (l1 & l2 & -> & H0 & ->).
    exists (x :: l1), l2. simpl. rewrite Hpx. done.
Qed.

Lemma find_one_mid p (l1 l2 : list A) d :
  count_docs p l1 = 0 → p d = true → find_one p (l1 ++ d :: l2) = Some d.
Proof.
  induction l1 as [|x l1 IH]; simpl; intros H0 Hd; [by rewrite Hd |].
  destruct (p x); [simpl in H0; lia |]. by apply IH.
Qed.

(** UpdateOne keeps every count whose filter does not see the change. *)
Lemma update_one_count p q f (c c' : list A) :
  (∀ d, q (f d) = q d) → update_one p f c = Some c' →
  count_docs q c' = count_docs q c.
Proof.
  intros Hq Hupd.
  apply update_one_Some in Hupd as (l1 & d & l2 & -> & -> & _ & _).
  pose proof (count_docs_replace q l1 l2 d (f d)) as H. rewrite Hq in H. lia.
Qed.

End CountingFacts.

(* ===================================================================== *)
(** * Facts about the reaction toggle *)
(* ===================================================================== *)

Module ReactionFacts.
Import Reaction.

Lemma key_filter_true u t tt d :
  key_filter u t tt d = true ↔ UserID d = u ∧ TargetID d = t ∧ TType d = tt.
Proof.
  unfold key_filter. rewrite !andb_true_iff, !bool_decide_eq_true. tauto.
Qed.

Lemma active_filter_true u t d :
  user_target_active_filter u t d = true
  ↔ UserID d = u ∧ TargetID d = t ∧ IsDeleted d = false.
Proof.
  unfold user_target_active_filter.
  rewrite !andb_true_iff, !bool_decide_eq_true, negb_true_iff. tauto.
Qed.

Lemma id_active_filter_true id d :
  id_active_filter id d = true ↔ ID d = id ∧ IsDeleted d = false.
Proof.
  unfold id_active_filter.
  rewrite andb_true_iff, bool_decide_eq_true, negb_true_iff. tauto.
Qed.

(** Both use-case functions change the collection as [toggle] does, and
    neither returns an error the repository did not produce. *)
Lemma ToggleLike_likes uuid u t tt c :
  out_likes (ToggleLike uuid u t tt c) = toggle LIKE_TYPE_LIKE uuid u t tt c.
Proof.
  unfold ToggleLike, toggle, GetReactionByUserIDAndTargetID.
  destruct (find_one _ c) as [e|]; simpl.
  - case_bool_decide.
    + by destruct (DeleteReaction _ _).
    + by destruct (CreateReaction _ _ _).
  - by destruct (CreateReaction _ _ _).
Qed.

Lemma ToggleDislike_likes uuid u t tt c :
  out_likes (ToggleDislike uuid u t tt c) = toggle LIKE_TYPE_DISLIKE uuid u t tt c.
Proof.
  unfold ToggleDislike, toggle, GetReactionByUserIDAndTargetID.
  destruct (find_one _ c) as [e|]; simpl.
  - case_bool_decide.
    + by destruct (DeleteReaction _ _) as [c' [err|]].
    + by destruct (CreateReaction _ _ _).
  - by destruct (CreateReaction _ _ _).
Qed.

Lemma apply_op_likes o c :
  out_likes (apply_op o c)
  = toggle (kind_type (op_kind o)) (op_uuid o) (op_user o) (op_target o)
           (op_ttype o) c.
Proof.
  unfold apply_op. destruct (op_kind o); simpl;
    [apply ToggleLike_likes | apply ToggleDislike_likes].
Qed.

Lemma state_of_None u t c :
  state_of u t c = RNone ↔ active_count u t c = 0.
Proof.
  unfold state_of, GetReactionByUserIDAndTargetID, active_count.
  rewrite <- find_one_None.
  destruct (find_one _ c) as [e|]; [| done].
  split; [by destruct (Type_ e) | done].
Qed.

Lemma state_of_found u t c e :
  find_one (user_target_active_filter u t) c = Some e →
  state_of u t c = type_state (Type_ e).
Proof.
  intros H. unfold state_of, GetReactionByUserIDAndTargetID. by rewrite H.
Qed.

(** In a well-formed collection the toggle follows [mechanism] from the
    state the pair is in. *)
Lemma toggle_mechanism ty uuid u t tt c :
  WF c → mechanism ty uuid u t tt c (state_of u t c) (toggle ty uuid u t tt c).
Proof.
  intros [Hid Hkey Hact]. unfold toggle.
  destruct (find_one (user_target_active_filter u t) c) as [e|] eqn:Hfind.
  - rewrite (state_of_found _ _ _ _ Hfind).
    destruct (find_one_In _ _ _ Hfind) as [Hin He].
    pose proof He as He'. apply active_filter_true in He' as (Hu & Ht & Hdel).
    case_bool_decide as Hty.
    + (* the reaction has the toggle's type: soft delete by id *)
      unfold DeleteReaction.
      destruct (update_one (id_active_filter (ID e)) (with_deleted true) c)
        as [c'|] eqn:Hupd.
      * apply update_one_Some in Hupd as (l1 & d & l2 & Hc & -> & Hd & _).
        apply id_active_filter_true in Hd as [Hidd Hdd].
        assert (d = e) as ->.
        { eapply (count_docs_unique (λ x, bool_decide (ID x = ID e)) c);
            [apply Hid | subst c; apply in_elt | done | |];
            by apply bool_decide_eq_true. }
        simpl. rewrite Hty. by eapply mech_soft_delete.
      * apply update_one_None in Hupd.
        pose proof (count_docs_In (id_active_filter (ID e)) c e Hin) as Hge.
        rewrite (proj2 (id_active_filter_true _ _)) in Hge by done.
        specialize (Hge eq_refl). lia.
    + (* the reaction has the other type: upsert on its key *)
      unfold CreateReaction. simpl.
      destruct (update_one (key_filter (UserID e) (TargetID e) (TType e)) _ c)
        as [c'|] eqn:Hupd.
      * apply update_one_Some in Hupd as (l1 & d & l2 & Hc & -> & Hd & _).
        assert (d = e) as ->.
        { eapply (count_docs_unique _ c); [apply Hkey | subst c; apply in_elt
            | done | done | by apply key_filter_true]. }
        simpl.
        replace (with_deleted false (with_type ty e)) with (with_type ty e)
          by (destruct e; simpl in *; by subst).
        by eapply mech_flip.
      * apply update_one_None in Hupd.
        pose proof (count_docs_In _ c e Hin (proj2 (key_filter_true _ _ _ e)
          (conj eq_refl (conj eq_refl eq_refl)))). lia.
  - assert (state_of u t c = RNone) as ->.
    { apply state_of_None. by apply find_one_None. }
    apply find_one_None in Hfind.
    unfold CreateReaction. simpl.
    destruct (update_one (key_filter u t tt) _ c) as [c'|] eqn:Hupd.
    + apply update_one_Some in Hupd as (l1 & d & l2 & Hc & -> & Hd & _).
      simpl. pose proof Hd as Hd'.
      apply key_filter_true in Hd' as (Hu & Ht & Htt).
      replace (with_deleted false (with_type ty d))
        with (mkLike (ID d) u t tt ty false) by (destruct d; simpl in *; by subst).
      eapply mech_revive; [done | done |].
      destruct (IsDeleted d) eqn:Hdel; [done |].
      assert (In d c) as Hin by (subst c; apply in_elt).
      pose proof (count_docs_In _ c d Hin (proj2 (active_filter_true u t d)
        (conj Hu (conj Ht Hdel)))). lia.
    + apply update_one_None in Hupd. simpl. by apply mech_insert.
Qed.

(** Rewriting one document in place keeps the collection well formed when
    id and key stay and no second active document appears. *)
Lemma WF_replace l1 d d' l2 :
  WF (l1 ++ d :: l2) →
  ID d' = ID d → UserID d' = UserID d → TargetID d' = TargetID d →
  TType d' = TType d →
  (IsDeleted d' = false → IsDeleted d = true →
   active_count (UserID d) (TargetID d) (l1 ++ d :: l2) = 0) →
  WF (l1 ++ d' :: l2).
Proof.
  intros [Hid Hkey Hact] Ei Eu Et Ett Hrev. split.
  - intros id. specialize (Hid id). unfold id_count in *.
    pose proof (count_docs_replace (λ x, bool_decide (ID x = id)) l1 l2 d d') as H.
    simpl in H. rewrite Ei in H. lia.
  - intros u t tt. specialize (Hkey u t tt). unfold key_count in *.
    pose proof (count_docs_replace (key_filter u t tt) l1 l2 d d') as H.
    unfold key_filter in H at 2 4. rewrite Eu, Et, Ett in H. lia.
  - intros u t. pose proof (Hact u t) as Hut. unfold active_count in *.
    pose proof (count_docs_replace (user_target_active_filter u t) l1 l2 d d') as H.
    destruct (user_target_active_filter u t d') eqn:Hd'; simpl in H; [| lia].
    apply active_filter_true in Hd' as (Hu & Ht & Hdel).
    destruct (IsDeleted d) eqn:Hdd.
    + specialize (Hrev Hdel eq_refl). rewrite <- Eu, Hu, <- Et, Ht in Hrev.
      rewrite Hrev in H.
      destruct (user_target_active_filter u t d); simpl in H; lia.
    + rewrite (proj2 (active_filter_true u t d)) in H; [simpl in H; lia |].
      by rewrite <- Eu, <- Et.
Qed.

Lemma WF_insert c d :
  WF c → id_count (ID d) c = 0 →
  key_count (UserID d) (TargetID d) (TType d) c = 0 →
  active_count (UserID d) (TargetID d) c = 0 →
  WF (c ++ [d]).
Proof.
  intros [Hid Hkey Hact] Hi Hk Ha. split.
  - intros id. specialize (Hid id). unfold id_count in *.
    rewrite count_docs_snoc. case_bool_decide; simpl; [subst; lia | lia].
  - intros u t tt. specialize (Hkey u t tt). unfold key_count in *.
    rewrite count_docs_snoc.
    destruct (key_filter u t tt d) eqn:Hd; simpl; [| lia].
    apply key_filter_true in Hd as (<- & <- & <-). lia.
  - intros u t. specialize (Hact u t). unfold active_count in *.
    rewrite count_docs_snoc.
    destruct (user_target_active_filter u t d) eqn:Hd; simpl; [| lia].
    apply active_filter_true in Hd as (<- & <- & _). lia.
Qed.

(** What follows from [mechanism]: the collection stays well formed, only
    the handed-out id can be new, and the pair's state moves by the
    table. *)
Lemma mechanism_WF ty uuid u t tt c c' :
  WF c → id_count uuid c = 0 →
  mechanism ty uuid u t tt c (state_of u t c) c' → WF c'.
Proof.
  intros Hwf Hfresh Hm. remember (state_of u t c) as s eqn:Hs.
  symmetry in Hs.
  destruct Hm as [Hk | l1 d l2 Hc Hd Hdel
    | l1 e l2 -> He Hty | l1 e l2 -> He Hty].
  - apply state_of_None in Hs. by apply WF_insert.
  - apply state_of_None in Hs. subst c.
    apply key_filter_true in Hd as (Hu & Ht & Htt).
    apply (WF_replace l1 d _ l2); simpl; try done.
    intros _ _. by rewrite Hu, Ht.
  - apply (WF_replace l1 e _ l2); simpl; try done.
  - apply (WF_replace l1 e _ l2); simpl; try done.
    intros _ Hdel. apply active_filter_true in He as (_ & _ & He). congruence.
Qed.

Lemma mechanism_ids ty uuid u t tt c s c' id :
  mechanism ty uuid u t tt c s c' → id ≠ uuid → id_count id c' = id_count id c.
Proof.
  intros Hm Hne. unfold id_count.
  destruct Hm as [Hk | l1 d l2 -> Hd Hdel
    | l1 e l2 -> He Hty | l1 e l2 -> He Hty].
  - rewrite count_docs_snoc. simpl. case_bool_decide; simpl; [congruence | lia].
  - pose proof (count_docs_replace (λ x, bool_decide (ID x = id)) l1 l2 d
      (mkLike (ID d) u t tt ty false)) as H. simpl in H. lia.
  - pose proof (count_docs_replace (λ x, bool_decide (ID x = id)) l1 l2 e
      (with_deleted true e)) as H. simpl in H. lia.
  - pose proof (count_docs_replace (λ x, bool_decide (ID x = id)) l1 l2 e
      (with_type ty e)) as H. simpl in H. lia.
Qed.

Lemma table_type_state k ty :
  ty ≠ kind_type k → table k (type_state ty) = type_state (kind_type k).
Proof. by destruct k, ty. Qed.

Lemma table_same k : table k (type_state (kind_type k)) = RNone.
Proof. by destruct k. Qed.

Lemma table_none k : table k RNone = type_state (kind_type k).
Proof. by destruct k. Qed.

Lemma mechanism_state k uuid u t tt c c' :
  WF c → id_count uuid c = 0 →
  mechanism (kind_type k) uuid u t tt c (state_of u t c) c' →
  state_of u t c' = table k (state_of u t c).
Proof.
  intros Hwf Hfresh Hm.
  pose proof (mechanism_WF _ _ _ _ _ _ _ Hwf Hfresh Hm) as Hwf'.
  pose proof (wf_active _ Hwf' u t) as Hact'.
  remember (state_of u t c) as s eqn:Hs.
  destruct Hm as [Hk | l1 d l2 Hc Hd Hdel
    | l1 e l2 Hc He Hty | l1 e l2 Hc He Hty].
  - rewrite table_none.
    rewrite (state_of_found u t _ (mkLike uuid u t tt (kind_type k) false));
      [done |].
    apply find_one_unique; [done | apply in_elt |].
    by apply active_filter_true.
  - rewrite table_none.
    rewrite (state_of_found u t _ (mkLike (ID d) u t tt (kind_type k) false));
      [done |].
    apply find_one_unique; [done | apply in_elt |].
    by apply active_filter_true.
  - rewrite table_same. apply state_of_None.
    pose proof (wf_active _ Hwf u t) as Hact. subst c.
    unfold active_count in *.
    pose proof (count_docs_replace (user_target_active_filter u t) l1 l2 e
      (with_deleted true e)) as H.
    rewrite He in H.
    replace (user_target_active_filter u t (with_deleted true e)) with false in H
      by (unfold user_target_active_filter; simpl; by rewrite andb_false_r).
    simpl in H. lia.
  - rewrite table_type_state by done.
    rewrite (state_of_found u t _ (with_type (kind_type k) e)); [done |].
    apply find_one_unique; [done | apply in_elt |].
    apply active_filter_true in He as (? & ? & ?). by apply active_filter_true.
Qed.

(** One toggle, all together. *)
Lemma apply_op_step o c :
  WF c → id_count (op_uuid o) c = 0 →
  let c' := out_likes (apply_op o c) in
  WF c'
  ∧ mechanism (kind_type (op_kind o)) (op_uuid o) (op_user o) (op_target o)
              (op_ttype o) c (state_of (op_user o) (op_target o) c) c'
  ∧ state_of (op_user o) (op_target o) c'
    = table (op_kind o) (state_of (op_user o) (op_target o) c)
  ∧ ∀ id, id ≠ op_uuid o → id_count id c' = id_count id c.
Proof.
  intros Hwf Hfresh c'. subst c'. rewrite apply_op_likes.
  pose proof (toggle_mechanism (kind_type (op_kind o)) (op_uuid o) (op_user o)
    (op_target o) (op_ttype o) c Hwf) as Hm.
  split; [by eapply mechanism_WF |].
  split; [done |].
  split; [by eapply mechanism_state |].
  intros id Hne. by eapply mechanism_ids.
Qed.

Lemma fresh_cons o ops c :
  fresh (o :: ops) c →
  id_count (op_uuid o) c = 0 ∧
  ∀ c', (∀ id, id ≠ op_uuid o → id_count id c' = id_count id c) → fresh ops c'.
Proof.
  intros [Hnd Hall]. simpl in Hnd. apply NoDup_cons in Hnd as [Hnin Hnd].
  apply Forall_cons in Hall as [Ho Hall]. split; [done |].
  intros c' Hids. split; [done |].
  rewrite Forall_forall in *. intros x Hx.
  rewrite Hids; [by apply Hall |].
  intros E. apply Hnin. rewrite <- E. apply list_elem_of_In, in_map.
  by apply list_elem_of_In.
Qed.

Lemma run_WF ops c : WF c → fresh ops c → WF (run ops c).
Proof.
  revert c. induction ops as [|o ops IH]; intros c Hwf Hfr; [done |].
  simpl. apply fresh_cons in Hfr as [Ho Hrest].
  destruct (apply_op_step o c Hwf Ho) as (Hwf' & _ & _ & Hids).
  apply IH; [done | by apply Hrest].
Qed.

Lemma run_fresh pre post c :
  WF c → fresh (pre ++ post) c → fresh post (run pre c).
Proof.
  revert c. induction pre as [|o pre IH]; intros c Hwf Hfr; [done |].
  simpl in *. apply fresh_cons in Hfr as [Ho Hrest].
  destruct (apply_op_step o c Hwf Ho) as (Hwf' & _ & _ & Hids).
  apply IH; [done | by apply Hrest].
Qed.

Lemma run_state u t ops c :
  WF c → fresh ops c → Forall (on_pair u t) ops →
  state_of u t (run ops c) = apply_table ops (state_of u t c).
Proof.
  revert c. induction ops as [|o ops IH]; intros c Hwf Hfr Hon; [done |].
  simpl. apply fresh_cons in Hfr as [Ho Hrest].
  apply Forall_cons in Hon as [[Hu Ht] Hon].
  destruct (apply_op_step o c Hwf Ho) as (Hwf' & _ & Hst & Hids).
  rewrite Hu, Ht in Hst.
  rewrite IH; [by rewrite Hst | done | by apply Hrest | done].
Qed.

Lemma run_app pre post c : run (pre ++ post) c = run post (run pre c).
Proof. unfold run. by rewrite fold_left_app. Qed.

Lemma WF_nil : WF [].
Proof. split; intros; unfold id_count, key_count, active_count; simpl; lia. Qed.

(** In a well-formed collection no toggle returns an error. *)
Lemma apply_op_err o c : WF c → out_err (apply_op o c) = None.
Proof.
  intros Hwf. unfold apply_op, ToggleLike, ToggleDislike,
    GetReactionByUserIDAndTargetID.
  destruct (find_one _ c) as [e|] eqn:Hfind.
  - destruct (find_one_In _ _ _ Hfind) as [Hin He].
    apply active_filter_true in He as (_ & _ & Hdel).
    assert ((DeleteReaction (ID e) c).2 = None) as Hdelete.
    { unfold DeleteReaction.
      destruct (update_one _ _ c) eqn:Hupd; [done |].
      apply update_one_None in Hupd.
      pose proof (count_docs_In (id_active_filter (ID e)) c e Hin
        (proj2 (id_active_filter_true _ _) (conj eq_refl Hdel))). lia. }
    destruct (op_kind o); simpl; case_bool_decide;
      first [ destruct (DeleteReaction _ _) as [c' [err|]]; simpl in *; congruence
            | by destruct (CreateReaction _ _ _) ].
  - destruct (op_kind o); simpl; by destruct (CreateReaction _ _ _).
Qed.

(** C1, as the code has it: for every sequence of ToggleLike and
    ToggleDislike calls by one user on one target, run one after the other
    on a well-formed collection with new ids, the final reaction state is
    the transition table applied to the sequence; every call succeeds and
    leaves at most one active reaction for the pair; and each call changes
    the collection by [mechanism]: from Liked (Disliked) the same toggle
    soft-deletes the active document, the other toggle changes [type] of the
    same document, and from None the toggle is an upsert on (user, target,
    target type), which inserts a document only when the key has none and
    otherwise revives the soft-deleted one in place. *)
Theorem toggle_sequence_follows_table u t c ops :
  WF c → fresh ops c → Forall (on_pair u t) ops →
  state_of u t (run ops c) = apply_table ops (state_of u t c)
  ∧ ∀ pre o post, ops = pre ++ o :: post →
      out_err (apply_op o (run pre c)) = None
      ∧ active_count u t (run (pre ++ [o]) c) ≤ 1
      ∧ mechanism (kind_type (op_kind o)) (op_uuid o) u t (op_ttype o)
                  (run pre c) (state_of u t (run pre c)) (run (pre ++ [o]) c).
Proof.
  intros Hwf Hfr Hon. split; [by apply run_state |].
  intros pre o post ->.
  assert (WF (run pre c)) as Hwf1.
  { apply run_WF; [done |]. destruct Hfr as [Hnd Hall]. split.
    - rewrite map_app in Hnd. by apply NoDup_app in Hnd as (? & _ & _).
    - by apply Forall_app in Hall as [? _]. }
  pose proof (run_fresh pre (o :: post) c Hwf Hfr) as Hfr1.
  apply fresh_cons in Hfr1 as [Ho _].
  apply Forall_app in Hon as [_ Hon]. apply Forall_cons in Hon as [[Hu Ht] _].
  destruct (apply_op_step o (run pre c) Hwf1 Ho) as (Hwf2 & Hm & _ & _).
  rewrite run_app. simpl. rewrite Hu, Ht in Hm.
  split; [by apply apply_op_err |]. split; [apply Hwf2 | done].
Qed.

Lemma fresh_demo :
  fresh [demo_like "r1"; demo_dislike "r2"; demo_dislike "r3"; demo_like "r4"] [].
Proof.
  split; [| by repeat constructor].
  by apply (bool_decide_unpack _).
Qed.

Lemma toggle_sequence_follows_table_witness :
  state_of "u1" "b1"
    (run [demo_like "r1"; demo_dislike "r2"; demo_dislike "r3"; demo_like "r4"] [])
  = RLiked.
Proof.
  refine (proj1 (toggle_sequence_follows_table "u1" "b1" []
    [demo_like "r1"; demo_dislike "r2"; demo_dislike "r3"; demo_like "r4"]
    WF_nil fresh_demo _)).
  repeat constructor.
Defined.

(** C1 as the specification words it fails on the insert: a like, an
    unlike and a second like leave the pair Liked through the document of
    the first like; the third call finds state None and inserts nothing. *)
Lemma toggle_like_from_none_without_insert :
  let c2 := run [demo_like "r1"; demo_like "r2"] [] in
  let c3 := out_likes (ToggleLike "r3" "u1" "b1" TargetTypeBlog c2) in
  state_of "u1" "b1" c2 = RNone
  ∧ state_of "u1" "b1" c3 = RLiked
  ∧ length c3 = length c2
  ∧ map ID c3 = ["r1"].
Proof. vm_compute. done. Qed.

(** C9: CreateReaction is an upsert on (user, target, target type) that
    does not look at is_deleted: with no document under the key it appends
    one, and otherwise it rewrites the first one under the key, deleted or
    not, to the new type and is_deleted = false.  So after any toggles of
    any users on any targets, started from the empty collection with new
    ids, every key has at most one document, active or soft-deleted; and a
    toggle by a pair without active reaction whose key has a soft-deleted
    document puts the reaction back into that document, same id and same
    place, and adds none. *)
Theorem reactions_one_document_per_key ops :
  fresh ops [] →
  (∀ uuid like c,
      key_count (UserID like) (TargetID like) (TType like) c = 0 →
      (CreateReaction uuid like c).1
      = c ++ [mkLike uuid (UserID like) (TargetID like) (TType like)
                     (Type_ like) false])
  ∧ (∀ uuid like l1 d l2,
      key_count (UserID like) (TargetID like) (TType like) l1 = 0 →
      key_filter (UserID like) (TargetID like) (TType like) d = true →
      (CreateReaction uuid like (l1 ++ d :: l2)).1
      = l1 ++ mkLike (ID d) (UserID d) (TargetID d) (TType d) (Type_ like) false
           :: l2)
  ∧ (∀ u t tt, key_count u t tt (run ops []) ≤ 1)
  ∧ (∀ o l1 d l2,
      run ops [] = l1 ++ d :: l2 →
      key_filter (op_user o) (op_target o) (op_ttype o) d = true →
      state_of (op_user o) (op_target o) (run ops []) = RNone →
      IsDeleted d = true
      ∧ out_likes (apply_op o (run ops []))
        = l1 ++ mkLike (ID d) (op_user o) (op_target o) (op_ttype o)
                       (kind_type (op_kind o)) false :: l2).
Proof.
  intros Hfr.
  assert (∀ uuid like l1 d l2,
      key_count (UserID like) (TargetID like) (TType like) l1 = 0 →
      key_filter (UserID like) (TargetID like) (TType like) d = true →
      (CreateReaction uuid like (l1 ++ d :: l2)).1
      = l1 ++ mkLike (ID d) (UserID d) (TargetID d) (TType d) (Type_ like) false
           :: l2) as Hupsert.
  { intros uuid like l1 d l2 Hl1 Hd. unfold CreateReaction.
    induction l1 as [|x l1 IH]; simpl.
    - by rewrite Hd.
    - unfold key_count in Hl1. simpl in Hl1.
      destruct (key_filter _ _ _ x) eqn:Hx; [simpl in Hl1; lia |].
      specialize (IH Hl1).
      destruct (update_one _ _ (l1 ++ d :: l2)) as [c'|] eqn:Hupd.
      + simpl in *. by rewrite IH.
      + apply update_one_None in Hupd. rewrite count_docs_mid, Hd in Hupd.
        simpl in Hupd. lia. }
  split; [| split; [done | split]].
  - intros uuid like c Hk. unfold CreateReaction.
    destruct (update_one _ _ c) eqn:Hupd; [| done].
    apply update_one_Some in Hupd as (l1 & d & l2 & -> & _ & Hd & _).
    unfold key_count in Hk. rewrite count_docs_mid, Hd in Hk. simpl in Hk. lia.
  - apply (run_WF ops [] WF_nil Hfr).
  - intros o l1 d l2 Hc Hd Hst.
    pose proof (run_WF ops [] WF_nil Hfr) as Hwf.
    assert (IsDeleted d = true) as Hdel.
    { destruct (IsDeleted d) eqn:Hdel; [done |].
      apply state_of_None in Hst. rewrite Hc in Hst.
      unfold active_count in Hst. rewrite count_docs_mid in Hst.
      apply key_filter_true in Hd as (Hu & Ht & _).
      rewrite (proj2 (active_filter_true _ _ d)) in Hst by done.
      simpl in Hst. lia. }
    split; [done |].
    assert (key_count (op_user o) (op_target o) (op_ttype o) l1 = 0) as Hl1.
    { pose proof (wf_key _ Hwf (op_user o) (op_target o) (op_ttype o)) as Hk.
      rewrite Hc in Hk. unfold key_count in *.
      rewrite count_docs_mid, Hd in Hk. simpl in Hk. lia. }
    rewrite apply_op_likes. unfold toggle.
    apply state_of_None in Hst. unfold active_count in Hst.
    apply find_one_None in Hst. rewrite Hst, Hc.
    rewrite (Hupsert _ (mkLike "" _ _ _ _ false)); simpl; try done.
    apply key_filter_true in Hd as (-> & -> & ->). done.
Qed.

Lemma reactions_one_document_per_key_witness :
  key_count "u1" "b1" TargetTypeBlog
    (run [demo_like "r1"; demo_dislike "r2"; demo_dislike "r3"; demo_like "r4"] [])
  ≤ 1.
Proof.
  exact (proj1 (proj2 (proj2 (reactions_one_document_per_key
    [demo_like "r1"; demo_dislike "r2"; demo_dislike "r3"; demo_like "r4"]
    fresh_demo))) "u1" "b1" TargetTypeBlog).
Defined.

End ReactionFacts.

(* ===================================================================== *)
(** * Facts about the cache-aside reads *)
(* ===================================================================== *)

Section CacheAsideFacts.

Context {score : Type} `{EqDecision score}.
Variable FormatRFC3339 : Z → string.
Variable repo_GetBlogs :
  faults → BlogFilterOptions → database score → (list (Blog score) * Z) + error.





End CacheAsideFacts.

Section StoreFacts.

Context {score : Type} `{EqDecision score}.



Lemma visible_not_draft (b : Blog score) :
  visible b = true ↔ Status b ≠ BlogStatusDraft.
Proof. unfold visible. destruct (Status b); simpl; split; done. Qed.




(** ** Invalidation *)

Lemma exec_pipe_app pipe1 pipe2 (r : gmap string (rentry score)) :
  exec_pipe (pipe1 ++ pipe2) r = exec_pipe pipe2 (exec_pipe pipe1 r).
Proof. unfold exec_pipe. by rewrite fold_left_app. Qed.

Lemma exec_pipe_cons k0 pipe (r : gmap string (rentry score)) :
  exec_pipe (k0 :: pipe) r = exec_pipe pipe (DEL k0 r).
Proof. done. Qed.

Lemma exec_pipe_lookup pipe (r : gmap string (rentry score)) k :
  exec_pipe pipe r !! k = if bool_decide (k ∈ pipe) then None else r !! k.
Proof.
  revert r. induction pipe as [|k0 pipe IH]; intros r.
  - case_bool_decide as Hin; [by apply elem_of_nil in Hin | done].
  - rewrite exec_pipe_cons, IH. unfold DEL.
    destruct (decide (k = k0)) as [->|Hne].
    + rewrite lookup_delete_eq.
      rewrite (bool_decide_eq_true_2 (k0 ∈ k0 :: pipe))
        by (apply elem_of_cons; by left).
      by case_bool_decide.
    + rewrite lookup_delete_ne by done.
      case_bool_decide as Hin.
      * rewrite bool_decide_eq_true_2; [done | apply elem_of_cons; by right].
      * rewrite bool_decide_eq_false_2; [done |].
        rewrite elem_of_cons. tauto.
Qed.

(** The batched loop deletes exactly the scanned keys. *)
Lemma invalidate_loop_spec keys pipe n (r r' : gmap string (rentry score)) pipe' :
  invalidate_loop keys pipe n r = (r', pipe') →
  exec_pipe pipe' r' = exec_pipe (pipe ++ keys) r.
Proof.
  revert pipe n r. induction keys as [|k keys IH]; intros pipe n r Hloop.
  - simpl in Hloop. injection Hloop as <- <-. by rewrite app_nil_r.
  - cbn [invalidate_loop] in Hloop.
    destruct (S n mod 200 =? 0); apply IH in Hloop; rewrite Hloop.
    + simpl. rewrite <- exec_pipe_app. by rewrite <- app_assoc.
    + by rewrite <- app_assoc.
Qed.

Lemma InvalidateBlogLists_store now (r : gmap string (rentry score)) :
  store_InvalidateBlogLists now r = (exec_pipe (SCAN now "blogs:list:" r) r, None).
Proof.
  unfold store_InvalidateBlogLists.
  destruct (invalidate_loop _ _ _ _) as [r' pipe] eqn:Hloop.
  apply invalidate_loop_spec in Hloop. by rewrite Hloop.
Qed.

Lemma SCAN_elem_of now pre (r : gmap string (rentry score)) k :
  k ∈ SCAN now pre r
  ↔ HasPrefix k pre = true ∧ is_Some (lookup_live now k r).
Proof.
  unfold SCAN. rewrite list_elem_of_In, filter_In, andb_true_iff, bool_decide_eq_true.
  split; [tauto |]. intros [Hp Hl]. split; [| done].
  apply list_elem_of_In, list_elem_of_fmap.
  unfold lookup_live in Hl. destruct (r !! k) as [e|] eqn:Hk; [| by destruct Hl].
  exists (k, e). split; [done |]. by apply elem_of_map_to_list.
Qed.

Lemma live_mono now now' (e : rentry score) :
  (now ≤ now')%Z → live now e = false → live now' e = false.
Proof.
  unfold live. destruct (r_expire e) as [t|]; [| done].
  rewrite !Z.leb_gt. lia.
Qed.

Lemma lookup_live_None_mono now now' k (r : gmap string (rentry score)) :
  (now ≤ now')%Z → lookup_live now k r = None → lookup_live now' k r = None.
Proof.
  unfold lookup_live. intros Hle. destruct (r !! k) as [e|]; [| done].
  destruct (live now e) eqn:Hl; [done |]. by rewrite (live_mono now now').
Qed.

(** After InvalidateBlogLists no key of the list namespace is served, now
    or later, and the other keys are as before. *)
Lemma InvalidateBlogLists_effect now (r : gmap string (rentry score)) k :
  let r' := (store_InvalidateBlogLists now r).1 in
  (HasPrefix k "blogs:list:" = true → lookup_live now k r' = None)
  ∧ (r' !! k = None ∨ r' !! k = r !! k).
Proof.
  rewrite InvalidateBlogLists_store. simpl.
  rewrite exec_pipe_lookup. unfold lookup_live at 1. rewrite exec_pipe_lookup.
  case_bool_decide as Hin; [by split; [| left] |].
  split; [| by right].
  intros Hp. rewrite SCAN_elem_of in Hin.
  destruct (lookup_live now k r) as [e|] eqn:Hl.
  - exfalso. apply Hin. by split.
  - exact Hl.
Qed.

Lemma GET_None now k (r : gmap string (rentry score)) :
  lookup_live now k r = None → GET now k r = Nil.
Proof. unfold GET. by intros ->. Qed.

Lemma lookup_live_DEL now k k' (r : gmap string (rentry score)) :
  lookup_live now k r = None → lookup_live now k (DEL k' r) = None.
Proof.
  unfold lookup_live, DEL. intros H.
  destruct (decide (k' = k)) as [->|Hne].
  - by rewrite lookup_delete_eq.
  - by rewrite lookup_delete_ne.
Qed.

Lemma lookup_live_DEL_eq now k (r : gmap string (rentry score)) :
  lookup_live now k (DEL k r) = None.
Proof. unfold lookup_live, DEL. by rewrite lookup_delete_eq. Qed.



End StoreFacts.




(* ===================================================================== *)
(** * Facts about view tracking *)
(* ===================================================================== *)

Section ViewFacts.

Context {score : Type} `{EqDecision score}.
Variable CalculatePopularity : Z → Z → Z → Z → score.




(** The recency check has no window: a record of this blog from this
    address, of whatever age, makes every later request of the blog from
    the address end as "already viewed recently", with nothing changed. *)
Lemma recorded_view_always_suppresses {S : Type}
    (blogCache : option (IBlogCache score S)) now blogID userID ip ua
    (st : S) (db : database score) v :
  In v (blog_views db) → BlogID v = blogID → IPAddress v = ip →
  blogID ≠ "" → ip ≠ "" → isBot ua = false →
  TrackBlogView CalculatePopularity blogCache no_faults now blogID userID
                ip ua st db
  = ((st, db), Some ErrAlreadyViewed).
Proof.
  intros Hin Hb Hip Hid Hipne Hbot. unfold TrackBlogView.
  rewrite (bool_decide_eq_false_2 (blogID = "")) by done.
  rewrite (bool_decide_eq_false_2 (ip = "")) by done.
  rewrite andb_false_r, Hbot.
  unfold HasViewedRecently. simpl.
  assert (1 ≤ count_docs (viewed_filter blogID userID ip) (blog_views db)) as Hc.
  { apply (count_docs_In _ _ v Hin). unfold viewed_filter.
    rewrite (bool_decide_eq_true_2 (BlogID v = blogID)) by done.
    by rewrite (bool_decide_eq_true_2 (IPAddress v = ip)) by done. }
  destruct (count_docs _ _) as [|n]; [lia | done].
Qed.

(** ** The velocity check on the Redis-backed store *)

Lemma set_updates_filter blogID (u : BlogUpdates score) (b : Blog score) :
  blog_id_filter blogID (set_updates u b) = blog_id_filter blogID b.
Proof. done. Qed.

Lemma repo_UpdateBlog_keeps F now blogID u (db : database score) :
  blog_views (repo_UpdateBlog F now blogID u db).1 = blog_views db
  ∧ ∀ id, count_docs (blog_id_filter id) (blogs (repo_UpdateBlog F now blogID u db).1)
          = count_docs (blog_id_filter id) (blogs db).
Proof.
  unfold repo_UpdateBlog.
  destruct (f_UpdateBlog F); [done |].
  destruct (find_one _ (blogs db)); [| done].
  case_bool_decide; [done |]. simpl. split; [done |]. intros id.
  destruct (update_one _ _ (blogs db)) as [bs'|] eqn:Hupd; [| done]. simpl.
  eapply update_one_count; [| exact Hupd]. intros d. apply set_updates_filter.
Qed.

(** The commit step, with every driver call answering, on a blog that
    exists: the view is counted and recorded, and the other blogs stay
    viewable. *)
Lemma commit_view_viewable now b userID ip ua bs (db : database score) :
  viewable (b :: bs) db → b ∉ bs →
  ∃ db1, commit_view CalculatePopularity no_faults now b userID ip ua db
         = (db1, None)
         ∧ viewable bs db1.
Proof.
  intros Hv Hnotin.
  destruct (Hv b) as (_ & Hex & _); [apply elem_of_cons; by left |].
  unfold commit_view, IncrementViewCount. simpl.
  destruct (update_one (blog_id_filter b) inc_views (blogs db)) as [bs1|] eqn:Hupd.
  2: { apply update_one_None in Hupd. lia. }
  unfold RecordView. simpl.
  eexists. split; [done |].
  intros x Hx. destruct (Hv x) as (Hne & Hexx & Hnorec);
    [apply elem_of_cons; by right |].
  unfold UpdateBlogPopularity.
  assert (x ≠ b) as Hxb by (intros ->; done).
  assert (count_docs (λ v, bool_decide (BlogID v = x))
            (blog_views db ++ [mkBlogView b userID ip ua now]) = 0) as Hrec.
  { rewrite count_docs_snoc, Hnorec. simpl.
    by rewrite bool_decide_eq_false_2 by done. }
  assert (1 ≤ count_docs (blog_id_filter x) bs1) as Hbs1.
  { erewrite update_one_count; [exact Hexx | | exact Hupd]. by intros d. }
  split; [done |].
  destruct (GetBlogCounts _ _ _) as [[[[v l] d] c]|err]; simpl; [| done].
  destruct (repo_UpdateBlog_keeps no_faults now b
              (mkUpdates None None None None None None
                         (Some (CalculatePopularity v l d c)) None)
              (mkDB bs1 (blog_views db ++ [mkBlogView b userID ip ua now])))
    as [Hviews Hblogs].
  rewrite Hviews, Hblogs. done.
Qed.

Lemma lookup_live_insert now key (e : rentry score) (r : gmap string (rentry score)) :
  live now e = true → lookup_live now key (<[key := e]> r) = Some e.
Proof. intros Hl. unfold lookup_live. by rewrite lookup_insert_eq, Hl. Qed.

Lemma SADD_new now key m (r : gmap string (rentry score)) :
  lookup_live now key r = None →
  SADD now key m r = (<[key := mkEntry (RSet {[m]}) None]> r, None).
Proof. unfold SADD. by intros ->. Qed.

Lemma SADD_live now key m (r : gmap string (rentry score)) s exp :
  lookup_live now key r = Some (mkEntry (RSet s) exp) →
  SADD now key m r = (<[key := mkEntry (RSet ({[m]} ∪ s)) exp]> r, None).
Proof. unfold SADD. by intros ->. Qed.

Lemma EXPIRE_live now key ttl (r : gmap string (rentry score)) e :
  lookup_live now key r = Some e →
  EXPIRE now key ttl r = <[key := mkEntry (r_value e) (Some (now + ttl)%Z)]> r.
Proof. unfold EXPIRE. by intros ->. Qed.

Lemma SCARD_set now key (r : gmap string (rentry score)) s exp :
  lookup_live now key r = Some (mkEntry (RSet s) exp) →
  SCARD now key r = inl (Z.of_nat (size s)).
Proof. unfold SCARD. by intros ->. Qed.

Lemma live_renewed now (v : rvalue score) :
  live now (mkEntry v (Some (now + ipVelocityTTL)%Z)) = true.
Proof. unfold live, ipVelocityTTL. apply Z.leb_le. simpl. lia. Qed.

(** AddRecentViewByIP on the store: the blog joins the set when the key is
    still served and starts a new set otherwise; the expiry is renewed. *)
Lemma AddRecentViewByIP_ip_set now ip b (r : gmap string (rentry score)) last s :
  ip_set r ip last s → b ∉ s →
  ∃ s1, ip_set (store_AddRecentViewByIP now ip b ipVelocityTTL r).1 ip
               (Some (now, next_count now last)) s1
        ∧ ∀ x, x ∈ s1 → x = b ∨ x ∈ s.
Proof.
  intros Hset Hb.
  assert (∀ (r0 : gmap string (rentry score)),
    lookup_live now (recentViewsByIPKey ip) r0 = None →
    ip_set (store_AddRecentViewByIP now ip b ipVelocityTTL r0).1 ip
           (Some (now, 1%Z)) {[b]}) as Hnew.
  { intros r0 Hnone. unfold store_AddRecentViewByIP.
    rewrite (SADD_new _ _ _ _ Hnone).
    erewrite EXPIRE_live by (by apply lookup_live_insert).
    cbv [ip_set fst r_value].
    split; [by rewrite lookup_insert_eq | by rewrite size_singleton]. }
  destruct last as [[t0 c0]|]; unfold next_count.
  - destruct Hset as [Hr Hsize].
    destruct (now <=? t0 + ipVelocityTTL)%Z eqn:Hlive.
    + exists ({[b]} ∪ s).
      assert (lookup_live now (recentViewsByIPKey ip) r
              = Some (mkEntry (RSet s) (Some (t0 + ipVelocityTTL)%Z))) as Hlook
        by (unfold lookup_live; rewrite Hr; unfold live; simpl; by rewrite Hlive).
      split.
      * unfold store_AddRecentViewByIP. rewrite (SADD_live _ _ _ _ _ _ Hlook).
        erewrite EXPIRE_live
          by (apply lookup_live_insert; unfold live; simpl; exact Hlive).
        cbv [ip_set fst r_value].
        split; [by rewrite lookup_insert_eq |].
        rewrite size_union by (by apply disjoint_singleton_l).
        rewrite size_singleton. lia.
      * intros x Hx. apply elem_of_union in Hx as [Hx | Hx]; [left | by right].
        by apply elem_of_singleton in Hx.
    + exists {[b]}. split; [| intros x Hx; left; by apply elem_of_singleton in Hx].
      apply Hnew. unfold lookup_live. rewrite Hr. unfold live. simpl.
      by rewrite Hlive.
  - exists {[b]}. split; [| intros x Hx; left; by apply elem_of_singleton in Hx].
    apply Hnew. unfold lookup_live. by rewrite Hset.
Qed.

(** The velocity check on the store rejects exactly when the set, with the
    request's blog in it, holds more than ten. *)
Lemma velocity_check_store now ip b (r : gmap string (rentry score)) db last s :
  ip_set r ip last s → b ∉ s →
  ∃ r1 s1,
    velocity_check BlogCacheStore no_faults now b ip r db
    = (r1, if (maxIpVelocity <? next_count now last)%Z
           then Some ErrVelocity else None)
    ∧ ip_set r1 ip (Some (now, next_count now last)) s1
    ∧ ∀ x, x ∈ s1 → x = b ∨ x ∈ s.
Proof.
  intros Hset Hb.
  destruct (AddRecentViewByIP_ip_set now ip b r last s Hset Hb)
    as (s1 & [Hr1 Hsize] & Hsub).
  exists (store_AddRecentViewByIP now ip b ipVelocityTTL r).1, s1.
  split; [| by split].
  unfold velocity_check.
  change (c_AddRecentViewByIP _ BlogCacheStore) with (@store_AddRecentViewByIP score).
  change (c_GetRecentViewCountByIP _ BlogCacheStore)
    with (@store_GetRecentViewCountByIP score).
  unfold store_GetRecentViewCountByIP.
  erewrite SCARD_set
    by (unfold lookup_live; rewrite Hr1; by rewrite live_renewed).
  rewrite Hsize. by destruct (maxIpVelocity <? _)%Z.
Qed.

Lemma count_docs_le {A : Type} (p q : A → bool) (c : list A) :
  (∀ d, p d = true → q d = true) → count_docs p c ≤ count_docs q c.
Proof.
  intros Hpq. induction c as [|x c IH]; simpl; [done |].
  destruct (p x) eqn:Hp; [rewrite (Hpq x Hp); lia | destruct (q x); lia].
Qed.

Lemma window_counts_cons ttl last t times :
  window_counts ttl last (t :: times)
  = match last with
    | Some (t0, c0) => if (t <=? t0 + ttl)%Z then (c0 + 1)%Z else 1%Z
    | None => 1%Z
    end
    :: window_counts ttl
         (Some (t, match last with
                   | Some (t0, c0) => if (t <=? t0 + ttl)%Z then (c0 + 1)%Z else 1%Z
                   | None => 1%Z
                   end)) times.
Proof. done. Qed.

(** One anonymous first view of a blog through the store. *)
Lemma track_step now ip b bs (r : gmap string (rentry score)) db last s :
  ip ≠ "" → viewable (b :: bs) db → b ∉ bs →
  ip_set r ip last s → (∀ x, x ∈ b :: bs → x ∉ s) →
  ∃ r1 db1 s1 err,
    track CalculatePopularity (Some BlogCacheStore)
          (mkEvent now b "" ip demo_agent) r db = ((r1, db1), err)
    ∧ TrackBlogViewHandler err = velocity_outcome (next_count now last)
    ∧ ip_set r1 ip (Some (now, next_count now last)) s1
    ∧ (∀ x, x ∈ bs → x ∉ s1)
    ∧ viewable bs db1.
Proof.
  intros Hip Hv Hnotin Hset Hfresh.
  destruct (Hv b) as (Hb & _ & Hnorec); [apply elem_of_cons; by left |].
  assert (b ∉ s) as Hbs by (apply Hfresh, elem_of_cons; by left).
  destruct (velocity_check_store now ip b r db last s Hset Hbs)
    as (r1 & s1 & Hcheck & Hset1 & Hsub).
  assert (∀ x, x ∈ bs → x ∉ s1) as Hfresh1.
  { intros x Hx Hin. destruct (Hsub x Hin) as [-> | Hxs]; [done |].
    revert Hxs. apply Hfresh, elem_of_cons. by right. }
  assert (viewable bs db) as Hv'.
  { intros x Hx. apply Hv, elem_of_cons. by right. }
  unfold track, TrackBlogView. cbn [ev_time ev_blog ev_user ev_ip ev_agent].
  rewrite (bool_decide_eq_false_2 (b = "")) by done.
  rewrite (bool_decide_eq_false_2 (ip = "")) by done.
  rewrite andb_false_r.
  assert (isBot demo_agent = false) as -> by reflexivity.
  assert (HasViewedRecently no_faults b "" ip db = inl false) as ->.
  { unfold HasViewedRecently. cbn [f_HasViewedRecently no_faults].
    pose proof (count_docs_le (viewed_filter b "" ip)
                  (λ v, bool_decide (BlogID v = b)) (blog_views db)) as Hle.
    rewrite Hnorec in Hle.
    assert (count_docs (viewed_filter b "" ip) (blog_views db) = 0) as ->; [| done].
    apply Nat.le_0_r, Hle. intros d Hd. unfold viewed_filter in Hd.
    by apply andb_true_iff in Hd as [Hd _]. }
  rewrite Hcheck. unfold velocity_outcome.
  destruct (maxIpVelocity <? next_count now last)%Z.
  - exists r1, db, s1, (Some ErrVelocity).
    split; [done |]. split; [by vm_compute |]. split; [done |]. by split.
  - destruct (commit_view_viewable now b "" ip demo_agent bs db Hv Hnotin)
      as (db1 & Hcommit & Hv1).
    exists r1, db1, s1, None.
    unfold rotation_check. rewrite (bool_decide_eq_true_2 ("" = "")) by done.
    rewrite Hcommit.
    split; [done |]. split; [done |]. split; [done |]. by split.
Qed.

(** The velocity check over a whole sequence: anonymous first views of
    distinct blogs from one address, started with no set for the address
    in Redis.  The outcome of each view is decided by the size of the set
    as [window_counts] has it, where the window is renewed by every view
    and never drops the views of a run that goes on. *)
Lemma velocity_by_renewed_window ip times bs (r : gmap string (rentry score))
    db last s :
  ip ≠ "" → length times = length bs → NoDup bs → viewable bs db →
  ip_set r ip last s → (∀ x, x ∈ bs → x ∉ s) →
  (run_views CalculatePopularity (Some BlogCacheStore) (views_from ip times bs)
             r db).1
  = map velocity_outcome (window_counts ipVelocityTTL last times).
Proof.
  intros Hip. revert bs r db last s.
  induction times as [|t times IH]; intros bs r db last s Hlen Hnd Hv Hset Hfresh.
  - by destruct bs.
  - destruct bs as [|b bs]; [done |]. simpl in Hlen.
    apply NoDup_cons in Hnd as [Hnotin Hnd].
    destruct (track_step t ip b bs r db last s Hip Hv Hnotin Hset Hfresh)
      as (r1 & db1 & s1 & err & Htrack & Hout & Hset1 & Hfresh1 & Hv1).
    rewrite window_counts_cons. fold (next_count t last).
    unfold views_from. cbn [zip_with run_views]. rewrite Htrack.
    specialize (IH bs r1 db1 (Some (t, next_count t last)) s1
                   ltac:(lia) Hnd Hv1 Hset1 Hfresh1).
    unfold views_from in IH.
    destruct (run_views _ _ _ r1 db1) as [outs final]. simpl in IH. simpl.
    by rewrite Hout, IH.
Qed.

(** While no gap is longer than the expiry the set only grows. *)
Lemma window_counts_run ttl t0 c0 times :
  gaps_within ttl (t0 :: times) = true →
  window_counts ttl (Some (t0, c0)) times
  = map (λ i, (c0 + Z.of_nat i)%Z) (seq 1 (length times)).
Proof.
  revert t0 c0. induction times as [|t times IH]; intros t0 c0 Hgaps; [done |].
  cbn [gaps_within] in Hgaps. apply andb_true_iff in Hgaps as [Hgap Hgaps].
  rewrite window_counts_cons, Hgap, (IH t (c0 + 1)%Z Hgaps).
  change (seq 1 (length (t :: times))) with (1 :: seq 2 (length times)).
  cbn [map]. replace (c0 + Z.of_nat 1)%Z with (c0 + 1)%Z by lia.
  apply (f_equal (cons _)).
  rewrite <- (seq_shift (length times) 1), map_map.
  apply map_ext. intros i. lia.
Qed.

(** C2 on the code.  Eleven anonymous first views of eleven blogs from one
    address, with Redis answering and no set for the address before: when
    every view comes within five minutes of the one before, the first ten
    are counted and the eleventh is rejected for velocity.  That covers the
    eleven views within five minutes of the specification, and it covers as well
    eleven views spread over six minutes, or over an hour: each add renews
    the expiry of the whole set, so no view of a run that goes on is ever
    dropped from it. *)
Theorem velocity_window_renewed ip times bs db :
  ip ≠ "" → length times = 11 → length bs = 11 → NoDup bs →
  viewable bs db → gaps_within ipVelocityTTL times = true →
  (run_views CalculatePopularity (Some BlogCacheStore) (views_from ip times bs)
             ∅ db).1
  = [Counted; Counted; Counted; Counted; Counted; Counted; Counted; Counted;
     Counted; Counted; VelocityLimited].
Proof.
  intros Hip Htimes Hbs Hnd Hv Hgaps.
  assert ((run_views CalculatePopularity (Some BlogCacheStore)
             (views_from ip times bs) ∅ db).1
          = map velocity_outcome (window_counts ipVelocityTTL None times)) as ->.
  { apply (velocity_by_renewed_window ip times bs ∅ db None ∅);
      first [done | lia | intros x _; apply not_elem_of_empty]. }
  destruct times as [|t0 times]; [done |].
  rewrite window_counts_cons, (window_counts_run _ _ _ _ Hgaps).
  simpl in Htimes. injection Htimes as ->. reflexivity.
Qed.

End ViewFacts.


(** ** The fallback of the fraud checks *)

(** C3 fails on the code.  Eleven views of eleven blogs from one address
    within five minutes: with Redis answering the eleventh is rejected
    (the set holds eleven blogs, the request's own included); with Redis
    unreachable the count is taken over [blog_views], where the request is
    not yet recorded, and the eleventh is counted.  The same holds one
    threshold lower for a user's sixth address within the hour. *)
Lemma fallback_accepts_one_more :
  (run_views demo_popularity (Some BlogCacheStore)
             (views_from "10.0.0.1" times_5min demo_ids) ∅ demo_db).1
  = [Counted; Counted; Counted; Counted; Counted; Counted; Counted; Counted;
     Counted; Counted; VelocityLimited]
  ∧ (run_views demo_popularity (Some DownCacheStore)
               (views_from "10.0.0.1" times_5min demo_ids) tt demo_db).1
    = [Counted; Counted; Counted; Counted; Counted; Counted; Counted; Counted;
       Counted; Counted; Counted]
  ∧ (run_views demo_popularity (Some BlogCacheStore) views_rotating ∅ demo_db).1
    = [Counted; Counted; Counted; Counted; Counted; RotationLimited]
  ∧ (run_views demo_popularity (Some DownCacheStore) views_rotating tt demo_db).1
    = [Counted; Counted; Counted; Counted; Counted; Counted].
Proof. repeat split; vm_compute; reflexivity. Qed.

(** ** The velocity window and the recency window *)

Lemma demo_viewable : viewable demo_ids demo_db.
Proof.
  unfold viewable. apply Forall_forall.
  repeat (apply Forall_cons; split;
          [split; [done | split; [vm_compute; lia | reflexivity]] |]).
  apply Forall_nil_2.
Qed.

(** Eleven views, one every 36 seconds, six minutes from first to last:
    the eleventh is rejected, where the specification has all eleven
    accepted. *)
Lemma velocity_window_renewed_witness :
  (run_views demo_popularity (Some BlogCacheStore)
             (views_from "10.0.0.1" times_6min demo_ids) ∅ demo_db).1
  = [Counted; Counted; Counted; Counted; Counted; Counted; Counted; Counted;
     Counted; Counted; VelocityLimited].
Proof.
  apply (velocity_window_renewed demo_popularity "10.0.0.1" times_6min
           demo_ids demo_db); try done.
  - by apply (bool_decide_unpack _).
  - apply demo_viewable.
Defined.

(** C4 on the code.  A second view of a blog by the same viewer a minute
    after the first is not counted, as the specification says.  A second view
    two days after the first is not counted either, where the specification has it
    counted: HasViewedRecently filters on blog and viewer only. *)
Lemma recency_check_has_no_window :
  let first := mkEvent 0 "b01" "" "10.0.0.1" demo_agent in
  let soon := mkEvent 60 "b01" "" "10.0.0.1" demo_agent in
  let late := mkEvent (48 * 3600) "b01" "" "10.0.0.1" demo_agent in
  let within := run_views demo_popularity (Some BlogCacheStore)
                          [first; soon] ∅ demo_db in
  let after := run_views demo_popularity (Some BlogCacheStore)
                         [first; late] ∅ demo_db in
  within.1 = [Counted; AlreadyViewed]
  ∧ view_count "b01" within.2.2 = Some 1%Z
  ∧ after.1 = [Counted; AlreadyViewed]
  ∧ view_count "b01" after.2.2 = Some 1%Z.
Proof. repeat split; vm_compute; reflexivity. Qed.

(* ===================================================================== *)
(** * Facts about the popularity score *)
(* ===================================================================== *)

Module PopularityFacts.
Import Popularity.

Lemma ln_succ_mono (v v' : Z) :
  (0 ≤ v)%Z → (v ≤ v')%Z → (ln (1 + IZR v) <= ln (1 + IZR v'))%R.
Proof.
  intros H0 Hle. apply IZR_le in H0. apply IZR_le in Hle.
  destruct (Req_dec (IZR v) (IZR v')) as [->|Hne]; [apply Rle_refl |].
  apply Rlt_le, ln_increasing; lra.
Qed.

(** C8: with positive weights the score is a function of its four counts
    that does not decrease when views, likes or comments grow and does not
    increase when dislikes grow; it is 0 on all-zero counts; and
    (10, 3, 1, 2) scores strictly above (10, 1, 3, 2). *)
Theorem popularity_monotone (w1 w2 w3 w4 : R) :
  (0 < w1)%R → (0 < w2)%R → (0 < w3)%R → (0 < w4)%R →
  let score := CalculatePopularity w1 w2 w3 w4 in
  (∀ v v' l d c, (0 ≤ v)%Z → (v ≤ v')%Z → (score v l d c <= score v' l d c)%R)
  ∧ (∀ v l l' d c, (l ≤ l')%Z → (score v l d c <= score v l' d c)%R)
  ∧ (∀ v l d c c', (c ≤ c')%Z → (score v l d c <= score v l d c')%R)
  ∧ (∀ v l d d' c, (d ≤ d')%Z → (score v l d' c <= score v l d c)%R)
  ∧ score 0%Z 0%Z 0%Z 0%Z = 0%R
  ∧ (score 10%Z 1%Z 3%Z 2%Z < score 10%Z 3%Z 1%Z 2%Z)%R.
Proof.
  intros H1 H2 H3 H4 score. subst score. unfold CalculatePopularity.
  repeat split.
  - intros v v' l d c H0 Hle. pose proof (ln_succ_mono v v' H0 Hle) as Hln.
    assert (w1 * ln (1 + IZR v) <= w1 * ln (1 + IZR v'))%R
      by (apply Rmult_le_compat_l; lra).
    lra.
  - intros v l l' d c Hle. apply IZR_le in Hle.
    assert (w2 * IZR l <= w2 * IZR l')%R by (apply Rmult_le_compat_l; lra).
    lra.
  - intros v l d c c' Hle. apply IZR_le in Hle.
    assert (w4 * IZR c <= w4 * IZR c')%R by (apply Rmult_le_compat_l; lra).
    lra.
  - intros v l d d' c Hle. apply IZR_le in Hle.
    assert (w3 * IZR d <= w3 * IZR d')%R by (apply Rmult_le_compat_l; lra).
    lra.
  - rewrite Rplus_0_r, ln_1. lra.
  - lra.
Qed.

Lemma popularity_monotone_witness :
  (CalculatePopularity 1 1 1 1 10 1 3 2 < CalculatePopularity 1 1 1 1 10 3 1 2)%R.
Proof.
  assert (0 < 1)%R as Hpos by lra.
  exact (proj2 (proj2 (proj2 (proj2 (proj2
    (popularity_monotone 1 1 1 1 Hpos Hpos Hpos Hpos)))))).
Defined.

End PopularityFacts.

(* ===================================================================== *)
(** * Further facts about collections *)
(* ===================================================================== *)

Section MoreCountingFacts.
Context {A : Type}.

Lemma find_one_filter (p q : A → bool) (c : list A) :
  (∀ d, p d = true → q d = true) →
  find_one p (List.filter q c) = find_one p c.
Proof.
  intros Hpq. induction c as [|d c IH]; simpl; [done |].
  destruct (p d) eqn:Hp.
  - rewrite (Hpq d Hp). simpl. by rewrite Hp.
  - destruct (q d); simpl; [by rewrite Hp |]; done.
Qed.

Lemma update_one_snoc_None (p : A → bool) f (c : list A) d :
  update_one p f c = None → p d = true →
  update_one p f (c ++ [d]) = Some (c ++ [f d]).
Proof.
  intros Hnone Hd. induction c as [|x c IH]; simpl in *; [by rewrite Hd |].
  destruct (p x); [done |].
  destruct (update_one p f c); [done |]. by rewrite IH.
Qed.


Lemma update_one_mid (p : A → bool) f (l1 l2 : list A) d :
  count_docs p l1 = 0 → p d = true →
  update_one p f (l1 ++ d :: l2) = Some (l1 ++ f d :: l2).
Proof.
  intros Hl1 Hd. induction l1 as [|x l1 IH]; simpl in *; [by rewrite Hd |].
  destruct (p x); [lia |]. by rewrite IH.
Qed.

Lemma update_one_map {B : Type} (p : A → bool) f (g : A → B) (c c' : list A) :
  (∀ d, g (f d) = g d) → update_one p f c = Some c' → map g c' = map g c.
Proof.
  intros Hg Hupd.
  apply update_one_Some in Hupd as (l1 & d & l2 & -> & -> & _ & _).
  rewrite !map_app. simpl. by rewrite Hg.
Qed.

Lemma update_one_Forall (P : A → Prop) (p : A → bool) f (c c' : list A) :
  (∀ d, P d → P (f d)) → update_one p f c = Some c' → Forall P c → Forall P c'.
Proof.
  intros Hf Hupd Hall.
  apply update_one_Some in Hupd as (l1 & d & l2 & -> & -> & _ & _).
  apply Forall_app in Hall as [H1 H2]. apply Forall_cons in H2 as [Hd H2].
  apply Forall_app. split; [done |]. apply Forall_cons. split; [by apply Hf | done].
Qed.

End MoreCountingFacts.

(* ===================================================================== *)
(** * Further facts about reactions *)
(* ===================================================================== *)

Module ReactionQueryFacts.
Import Reaction ReactionFacts ReactionQueries.

(** How a toggle moves the count of a filter: by the documents it writes
    and the one it replaces. *)
Lemma mechanism_count ty uuid u t tt c s c' (q : Like → bool) :
  mechanism ty uuid u t tt c s c' →
  (∀ d, IsDeleted d = true → q d = false) →
  (s = RNone ∧ count_docs q c' = count_docs q c + b2n (q (mkLike uuid u t tt ty false)))
  ∨ (s = RNone ∧ ∃ id, count_docs q c' = count_docs q c + b2n (q (mkLike id u t tt ty false)))
  ∨ (s = type_state ty ∧ ∃ e, user_target_active_filter u t e = true ∧ Type_ e = ty
       ∧ count_docs q c' + b2n (q e) = count_docs q c)
  ∨ (∃ e, s = type_state (Type_ e) ∧ user_target_active_filter u t e = true
       ∧ Type_ e ≠ ty
       ∧ count_docs q c' + b2n (q e) = count_docs q c + b2n (q (with_type ty e))).
Proof.
  intros Hm Hdel.
  destruct Hm as [Hkey | l1 d l2 -> Hd Hdd | l1 e l2 -> He Hty | l1 e l2 -> He Hty].
  - left. split; [done |]. apply count_docs_snoc.
  - right; left. split; [done |]. exists (ID d).
    pose proof (count_docs_replace q l1 l2 d (mkLike (ID d) u t tt ty false)) as H.
    rewrite (Hdel d Hdd) in H. simpl in H. lia.
  - right; right; left. split; [done |]. exists e. split; [done |]. split; [done |].
    pose proof (count_docs_replace q l1 l2 e (with_deleted true e)) as H.
    rewrite (Hdel (with_deleted true e)) in H by done. simpl in H. lia.
  - right; right; right. exists e. split; [done |]. split; [done |]. split; [done |].
    apply count_docs_replace.
Qed.

Lemma target_filter_deleted t ty d :
  IsDeleted d = true → target_type_active_filter t ty d = false.
Proof.
  intros Hd. unfold target_type_active_filter. rewrite Hd. simpl.
  by rewrite andb_false_r.
Qed.

Lemma target_filter_other t t' ty d :
  TargetID d = t → t' ≠ t → target_type_active_filter t' ty d = false.
Proof.
  intros Hd Hne. unfold target_type_active_filter.
  rewrite (bool_decide_eq_false_2 (TargetID d = t')); [done | congruence].
Qed.

Lemma toggle_counts_other ty uuid u t tt c t' ty0 :
  WF c → t' ≠ t →
  count_docs (target_type_active_filter t' ty0) (toggle ty uuid u t tt c)
  = count_docs (target_type_active_filter t' ty0) c.
Proof.
  intros Hwf Hne.
  pose proof (toggle_mechanism ty uuid u t tt c Hwf) as Hm.
  destruct (mechanism_count _ _ _ _ _ _ _ _ (target_type_active_filter t' ty0) Hm
              (target_filter_deleted t' ty0))
    as [[_ H] | [[_ [id H]] | [[_ [e (He & _ & H)]] | [e (_ & He & _ & H)]]]].
  - rewrite (target_filter_other t) in H by done. simpl in H. lia.
  - rewrite (target_filter_other t) in H by done. simpl in H. lia.
  - apply active_filter_true in He as (_ & He & _).
    rewrite (target_filter_other t) in H by done. simpl in H. lia.
  - apply active_filter_true in He as (_ & He & _).
    rewrite !(target_filter_other t) in H by done. simpl in H. lia.
Qed.

Lemma target_filter_new t ty ty0 id u tt :
  target_type_active_filter t ty0 (mkLike id u t tt ty false)
  = bool_decide (ty = ty0).
Proof.
  unfold target_type_active_filter. simpl.
  rewrite bool_decide_eq_true_2 by done. simpl. by rewrite andb_true_r.
Qed.

Lemma target_filter_active u t ty0 e :
  user_target_active_filter u t e = true →
  target_type_active_filter t ty0 e = bool_decide (Type_ e = ty0).
Proof.
  intros He. apply active_filter_true in He as (_ & Ht & Hd).
  unfold target_type_active_filter. rewrite Hd, Ht.
  rewrite bool_decide_eq_true_2 by done. simpl. by rewrite andb_true_r.
Qed.

Lemma target_filter_with_type u t ty ty0 e :
  user_target_active_filter u t e = true →
  target_type_active_filter t ty0 (with_type ty e) = bool_decide (ty = ty0).
Proof.
  intros He. apply active_filter_true in He as (_ & Ht & Hd).
  unfold target_type_active_filter. simpl. rewrite Hd, Ht.
  rewrite bool_decide_eq_true_2 by done. simpl. by rewrite andb_true_r.
Qed.

(** The counts of the toggle's own target, per type [ty0], as integers. *)
Lemma toggle_counts_target ty uuid u t tt c ty0 :
  WF c →
  let n c := Z.of_nat (count_docs (target_type_active_filter t ty0) c) in
  let s := state_of u t c in
  n (toggle ty uuid u t tt c)
  = (n c
     + (if bool_decide (s = type_state ty) then 0
        else if bool_decide (ty = ty0) then 1 else 0)
     - (if bool_decide (s = type_state ty0) then 1 else 0))%Z.
Proof.
  intros Hwf n s.
  pose proof (toggle_mechanism ty uuid u t tt c Hwf) as Hm. fold s in Hm.
  destruct (mechanism_count _ _ _ _ _ _ _ _ (target_type_active_filter t ty0) Hm
              (target_filter_deleted t ty0))
    as [[Hs H] | [[Hs [id H]] | [[Hs [e (He & Hty & H)]] | [e (Hs & He & Hty & H)]]]];
    unfold n.
  - rewrite target_filter_new in H. rewrite H, Hs.
    destruct ty, ty0; simpl; lia.
  - rewrite target_filter_new in H. rewrite H, Hs.
    destruct ty, ty0; simpl; lia.
  - rewrite (target_filter_active u) in H by done. rewrite <- H, Hs, Hty.
    destruct ty, ty0; simpl; lia.
  - rewrite (target_filter_active u), (target_filter_with_type u) in H by done.
    rewrite Hs. destruct (Type_ e), ty, ty0; simpl in *; try done; lia.
Qed.

(** X1: in a well-formed collection a toggle moves the like and dislike
    counts of its target as the state machine says: a like from None adds
    one like, from Liked takes it away, from Disliked adds one like and
    takes one dislike away, and the same with the roles exchanged for a
    dislike; the counts of every other target stay as they are. *)
Theorem toggle_moves_counts k uuid u t tt c :
  WF c →
  let c' := out_likes (apply_op (mkOp k uuid u t tt) c) in
  let s := state_of u t c in
  (Z.of_nat (GetReactionCounts t c').1
   = Z.of_nat (GetReactionCounts t c).1 + (count_change k s).1)%Z
  ∧ (Z.of_nat (GetReactionCounts t c').2
     = Z.of_nat (GetReactionCounts t c).2 + (count_change k s).2)%Z
  ∧ ∀ t', t' ≠ t → GetReactionCounts t' c' = GetReactionCounts t' c.
Proof.
  intros Hwf c' s. subst c'. rewrite apply_op_likes. simpl.
  unfold GetReactionCounts, CountLikesByTargetID, CountDislikesByTargetID. simpl.
  split; [| split].
  - rewrite (toggle_counts_target (kind_type k) uuid u t tt c LIKE_TYPE_LIKE Hwf).
    fold s. destruct k, s; simpl; lia.
  - rewrite (toggle_counts_target (kind_type k) uuid u t tt c LIKE_TYPE_DISLIKE Hwf).
    fold s. destruct k, s; simpl; lia.
  - intros t' Hne. by rewrite !toggle_counts_other.
Qed.

Lemma WF_demo_collection : WF demo_collection.
Proof.
  apply run_WF; [apply WF_nil |].
  split; [by apply (bool_decide_unpack _) |].
  repeat constructor.
Qed.

Lemma toggle_moves_counts_witness :
  (Z.of_nat (GetReactionCounts "b1"
     (out_likes (apply_op (mkOp KLike "r4" "u1" "b1" TargetTypeBlog)
                          demo_collection))).1
   = Z.of_nat (GetReactionCounts "b1" demo_collection).1
     + (count_change KLike (state_of "u1" "b1" demo_collection)).1)%Z.
Proof.
  exact (proj1 (toggle_moves_counts KLike "r4" "u1" "b1" TargetTypeBlog
                  demo_collection WF_demo_collection)).
Defined.

(** A filter that holds only of documents of other pairs does not see
    the toggle. *)
Lemma filter_other_snoc u t (c : list Like) d :
  other_pair u t d = false →
  List.filter (other_pair u t) (c ++ [d]) = List.filter (other_pair u t) c.
Proof. intros Hd. rewrite List.filter_app. simpl. rewrite Hd. apply app_nil_r. Qed.

Lemma filter_other_replace u t (l1 l2 : list Like) d d' :
  other_pair u t d = false → other_pair u t d' = false →
  List.filter (other_pair u t) (l1 ++ d' :: l2)
  = List.filter (other_pair u t) (l1 ++ d :: l2).
Proof. intros Hd Hd'. rewrite !List.filter_app. simpl. by rewrite Hd, Hd'. Qed.

Lemma other_pair_false u t d :
  UserID d = u → TargetID d = t → other_pair u t d = false.
Proof.
  intros Hu Ht. unfold other_pair. by rewrite !bool_decide_eq_true_2.
Qed.

(** X2: a toggle of (user, target) leaves every document of every other
    (user, target) pair as it is and in its place, so that the reaction
    any other pair is seen in does not change. *)
Theorem toggle_leaves_other_pairs k uuid u t tt c :
  WF c →
  let c' := out_likes (apply_op (mkOp k uuid u t tt) c) in
  List.filter (other_pair u t) c' = List.filter (other_pair u t) c
  ∧ ∀ u' t', (u', t') ≠ (u, t) → state_of u' t' c' = state_of u' t' c.
Proof.
  intros Hwf c'. subst c'. rewrite apply_op_likes. simpl.
  assert (List.filter (other_pair u t) (toggle (kind_type k) uuid u t tt c)
          = List.filter (other_pair u t) c) as Hfilter.
  { pose proof (toggle_mechanism (kind_type k) uuid u t tt c Hwf) as Hm.
    destruct Hm as [Hkey | l1 d l2 -> Hd Hdd | l1 e l2 -> He Hty | l1 e l2 -> He Hty].
    - by apply filter_other_snoc, other_pair_false.
    - apply key_filter_true in Hd as (Hu & Ht & _).
      by apply filter_other_replace; apply other_pair_false.
    - apply active_filter_true in He as (Hu & Ht & _).
      by apply filter_other_replace; apply other_pair_false.
    - apply active_filter_true in He as (Hu & Ht & _).
      by apply filter_other_replace; apply other_pair_false. }
  split; [done |].
  intros u' t' Hne. unfold state_of, GetReactionByUserIDAndTargetID.
  assert (∀ d, user_target_active_filter u' t' d = true → other_pair u t d = true)
    as Hpq.
  { intros d Hd. apply active_filter_true in Hd as (Hu & Ht & _).
    unfold other_pair. apply negb_true_iff, andb_false_iff.
    destruct (decide (u' = u)) as [->|Hu'].
    - right. apply bool_decide_eq_false_2. congruence.
    - left. apply bool_decide_eq_false_2. congruence. }
  rewrite <- (find_one_filter _ _ (toggle _ _ _ _ _ _) Hpq).
  rewrite <- (find_one_filter _ _ c Hpq). by rewrite Hfilter.
Qed.

Lemma toggle_leaves_other_pairs_witness :
  state_of "u2" "b1"
    (out_likes (apply_op (mkOp KLike "r4" "u1" "b1" TargetTypeBlog) demo_collection))
  = RLiked.
Proof.
  rewrite (proj2 (toggle_leaves_other_pairs KLike "r4" "u1" "b1" TargetTypeBlog
                    demo_collection WF_demo_collection) "u2" "b1");
    [reflexivity | discriminate].
Defined.

(** X3: with unique ids, a reaction that DeleteReaction has deleted is
    not found by a second DeleteReaction of the same id, which returns
    ErrReactionNotFound and leaves the collection as it is. *)
Theorem delete_reaction_twice id c c' :
  WF c → DeleteReaction id c = (c', None) →
  DeleteReaction id c' = (c', Some ErrReactionNotFound).
Proof.
  intros Hwf Hdel. unfold DeleteReaction in *.
  destruct (update_one _ _ c) as [c1|] eqn:Hupd; [| done].
  injection Hdel as <-.
  apply update_one_Some in Hupd as (l1 & d & l2 & -> & -> & Hd & Hl1).
  apply id_active_filter_true in Hd as [Hid Hdd].
  assert (count_docs (id_active_filter id) (l1 ++ with_deleted true d :: l2) = 0)
    as Hnone.
  { pose proof (wf_id _ Hwf id) as Hle. unfold id_count in Hle.
    rewrite count_docs_mid in Hle. rewrite (bool_decide_eq_true_2 _ Hid) in Hle.
    simpl in Hle.
    pose proof (count_docs_le (id_active_filter id) (λ d, bool_decide (ID d = id)) l2)
      as Hl2.
    rewrite count_docs_mid, Hl1.
    assert (id_active_filter id (with_deleted true d) = false) as ->.
    { unfold id_active_filter. simpl. by rewrite andb_false_r. }
    simpl. apply Nat.le_0_r. etrans; [apply Hl2 |]; [| lia].
    intros x Hx. apply id_active_filter_true in Hx as [Hx _].
    by apply bool_decide_eq_true_2. }
  apply update_one_None with (f := with_deleted true) in Hnone. by rewrite Hnone.
Qed.

Lemma delete_reaction_twice_witness :
  DeleteReaction "r1" (DeleteReaction "r1" demo_collection).1
  = ((DeleteReaction "r1" demo_collection).1, Some ErrReactionNotFound).
Proof.
  apply (delete_reaction_twice "r1" demo_collection _ WF_demo_collection).
  reflexivity.
Defined.


(** X5: with the Mongo repository, GetUserReaction does not tell "no
    reaction" by returning (nil, nil): the repository's ErrReactionNotFound
    is not the use case's variable of that name, errors.Is does not match,
    and the caller gets the wrapped error "failed to get user's reaction:
    reaction not found". *)
Theorem user_reaction_absent_is_error u t c :
  state_of u t c = RNone →
  ∃ e, GetUserReaction u t c = (None, Some e)
       ∧ gError e = "failed to get user's reaction: reaction not found"
       ∧ errors_Is e mongodb_ErrReactionNotFound = true
       ∧ errors_Is e usecase_ErrReactionNotFound = false.
Proof.
  intros Hs. apply state_of_None in Hs. apply find_one_None in Hs.
  unfold GetUserReaction, GetReactionByUserIDAndTargetID. rewrite Hs. simpl.
  by eexists.
Qed.

Lemma user_reaction_absent_is_error_witness :
  ∃ e, GetUserReaction "u3" "b1" demo_collection = (None, Some e)
       ∧ gError e = "failed to get user's reaction: reaction not found"
       ∧ errors_Is e mongodb_ErrReactionNotFound = true
       ∧ errors_Is e usecase_ErrReactionNotFound = false.
Proof. apply (user_reaction_absent_is_error "u3" "b1" demo_collection). reflexivity. Defined.

(** X6: in a well-formed collection LikeBlogHandler never answers with an
    error, and its message tells the state the user is left in: "Blog
    liked successfully" exactly when the reaction is a like afterwards,
    which is when it was not one before. *)
Theorem like_handler_reports_state uuid u b c :
  WF c → id_count uuid c = 0 →
  let '(c', resp) := LikeBlogHandler uuid u b c in
  resp = (if bool_decide (state_of u b c = RLiked) then BlogUnliked else BlogLiked)
  ∧ (resp = BlogLiked ↔ state_of u b c' = RLiked).
Proof.
  intros Hwf Hfresh. unfold LikeBlogHandler. cbv zeta.
  pose proof (apply_op_err (mkOp KLike uuid u b TargetTypeBlog) c Hwf) as Herr.
  pose proof (apply_op_step (mkOp KLike uuid u b TargetTypeBlog) c Hwf Hfresh)
    as (_ & _ & Hstate & _).
  unfold apply_op in Herr, Hstate. simpl in Herr, Hstate. rewrite Herr.
  remember (out_likes (ToggleLike uuid u b TargetTypeBlog c)) as c' eqn:Hc'.
  pose proof Hstate as Hfound.
  unfold state_of at 1 in Hfound. unfold GetReactionByUserIDAndTargetID in Hfound.
  unfold GetUserReaction, GetReactionByUserIDAndTargetID.
  destruct (find_one (user_target_active_filter u b) c') as [l|]; simpl.
  - case_bool_decide as Hl; rewrite Hstate.
    + rewrite Hl in Hfound. destruct (state_of u b c); naive_solver.
    + destruct (Type_ l); [done |]. destruct (state_of u b c); naive_solver.
  - rewrite Hstate. destruct (state_of u b c); naive_solver.
Qed.

Lemma like_handler_reports_state_witness :
  (LikeBlogHandler "r4" "u2" "b1" demo_collection).2 = BlogUnliked.
Proof.
  pose proof (like_handler_reports_state "r4" "u2" "b1" demo_collection
                WF_demo_collection eq_refl) as H.
  destruct (LikeBlogHandler "r4" "u2" "b1" demo_collection) as [c' resp].
  exact (proj1 H).
Defined.

End ReactionQueryFacts.

(* ===================================================================== *)
(** * Facts about reactions on blogs *)
(* ===================================================================== *)

Section ReactionBlogFacts.

Context {score : Type} `{EqDecision score}.
Variable CalculatePopularity : Z → Z → Z → Z → score.

Lemma blog_id_filter_true blogID (b : Blog score) :
  blog_id_filter blogID b = true ↔ ID b = blogID ∧ IsDeleted b = false.
Proof.
  unfold blog_id_filter.
  rewrite andb_true_iff, bool_decide_eq_true, negb_true_iff. tauto.
Qed.

(** The rewrite of the counters of a blog that is there. *)
Lemma sync_reaction_counts_found now t likes dislikes (db : database score) b :
  find_one (blog_id_filter t) (blogs db) = Some b →
  let db' := sync_reaction_counts CalculatePopularity no_faults now t
               (Some (likes, dislikes)) db in
  ∃ b', find_one (blog_id_filter t) (blogs db') = Some b'
        ∧ LikeCount b' = Z.of_nat likes ∧ DislikeCount b' = Z.of_nat dislikes
        ∧ Popularity b'
          = CalculatePopularity (ViewCount b) (Z.of_nat likes) (Z.of_nat dislikes)
                                (CommentCount b)
        ∧ ViewCount b' = ViewCount b ∧ CommentCount b' = CommentCount b
        ∧ blog_views db' = blog_views db.
Proof.
  intros Hfind db'. subst db'.
  unfold sync_reaction_counts, GetBlogByID. simpl. rewrite Hfind.
  unfold repo_UpdateBlog_counts. simpl. rewrite Hfind.
  case_bool_decide as Hset; simpl.
  - exists b. split; [done |].
    pose proof (f_equal LikeCount Hset) as H1.
    pose proof (f_equal DislikeCount Hset) as H2.
    pose proof (f_equal Popularity Hset) as H3.
    simpl in H1, H2, H3. by rewrite <- H1, <- H2, <- H3.
  - destruct (update_one_find_one (blog_id_filter t)
                (set_reaction_counts (Z.of_nat likes) (Z.of_nat dislikes)
                   (CalculatePopularity (ViewCount b) (Z.of_nat likes)
                      (Z.of_nat dislikes) (CommentCount b)) now)
                (blogs db) b Hfind) as (l1 & l2 & Hc & Hl1 & Hupd).
    rewrite Hupd. simpl. eexists. split.
    { apply find_one_mid; [done |].
      by destruct (find_one_In _ _ _ Hfind) as [_ Hb]. }
    done.
Qed.

(** A toggle on a blog reaches the rewrite of the counters, with the
    counts of the collection it leaves. *)
Lemma ToggleLike_counts uuid u t c :
  Reaction.out_counts (Reaction.ToggleLike uuid u t Reaction.TargetTypeBlog c)
  = Some (Reaction.CountLikesByTargetID t
            (Reaction.out_likes (Reaction.ToggleLike uuid u t Reaction.TargetTypeBlog c)),
          Reaction.CountDislikesByTargetID t
            (Reaction.out_likes (Reaction.ToggleLike uuid u t Reaction.TargetTypeBlog c))).
Proof.
  unfold Reaction.ToggleLike, Reaction.GetReactionByUserIDAndTargetID.
  destruct (find_one _ c) as [e|]; simpl.
  - case_bool_decide.
    + by destruct (Reaction.DeleteReaction _ _).
    + by destruct (Reaction.CreateReaction _ _ _).
  - by destruct (Reaction.CreateReaction _ _ _).
Qed.

Lemma ToggleDislike_counts uuid u t c :
  Reaction.out_counts (Reaction.ToggleDislike uuid u t Reaction.TargetTypeBlog c)
  = Some (Reaction.CountLikesByTargetID t
            (Reaction.out_likes (Reaction.ToggleDislike uuid u t Reaction.TargetTypeBlog c)),
          Reaction.CountDislikesByTargetID t
            (Reaction.out_likes (Reaction.ToggleDislike uuid u t Reaction.TargetTypeBlog c))).
Proof.
  unfold Reaction.ToggleDislike, Reaction.GetReactionByUserIDAndTargetID.
  destruct (find_one _ c) as [e|] eqn:Hfind; simpl.
  - case_bool_decide.
    + unfold Reaction.DeleteReaction.
      destruct (update_one _ _ c) as [c'|] eqn:Hupd; [done |].
      apply update_one_None in Hupd.
      destruct (find_one_In _ _ _ Hfind) as [Hin He].
      apply ReactionFacts.active_filter_true in He as (_ & _ & He).
      pose proof (count_docs_In (Reaction.id_active_filter (Reaction.ID e)) c e Hin)
        as Hle.
      rewrite Hupd in Hle. exfalso.
      assert (Reaction.id_active_filter (Reaction.ID e) e = true) as Hid
        by (by apply ReactionFacts.id_active_filter_true).
      specialize (Hle Hid). lia.
    + by destruct (Reaction.CreateReaction _ _ _).
  - by destruct (Reaction.CreateReaction _ _ _).
Qed.

(** X7: after a like or dislike toggle on a blog that is there, with
    every driver call answering, the blog's like_count and dislike_count
    are the numbers of active likes and dislikes of the collection the
    toggle left, its popularity is computed from them and from the views
    and comments it had, and its views, its comments and the view records
    are untouched. *)
Theorem toggle_syncs_blog_counters k now uuid u t c (db : database score) b :
  find_one (blog_id_filter t) (blogs db) = Some b →
  let '((c', db'), _) :=
    ToggleBlog CalculatePopularity k no_faults now uuid u t
               Reaction.TargetTypeBlog c db in
  let likes := Z.of_nat (Reaction.CountLikesByTargetID t c') in
  let dislikes := Z.of_nat (Reaction.CountDislikesByTargetID t c') in
  ∃ b', find_one (blog_id_filter t) (blogs db') = Some b'
        ∧ LikeCount b' = likes ∧ DislikeCount b' = dislikes
        ∧ Popularity b'
          = CalculatePopularity (ViewCount b) likes dislikes (CommentCount b)
        ∧ ViewCount b' = ViewCount b ∧ CommentCount b' = CommentCount b
        ∧ blog_views db' = blog_views db.
Proof.
  intros Hfind. destruct k; simpl.
  - unfold ToggleLikeBlog. rewrite ToggleLike_counts.
    by apply sync_reaction_counts_found.
  - unfold ToggleDislikeBlog. rewrite ToggleDislike_counts.
    by apply sync_reaction_counts_found.
Qed.

(** X8: ToggleLike does not look for its target: a like of a blog id that
    [blogs] does not have is recorded all the same, whatever the driver
    does, and no blog is written; DislikeBlogHandler asks ExistsBlog first
    and answers "Blog not found" without touching the reactions. *)
Theorem like_of_missing_blog_is_recorded F now uuid u t c (db : database score) :
  Reaction.WF c → Reaction.id_count uuid c = 0 →
  Reaction.state_of u t c = Reaction.RNone →
  String.length t = 36 →
  find_one (blog_id_filter t) (blogs db) = None →
  let '((c', db'), err) :=
    ToggleLikeBlog CalculatePopularity F now uuid u t Reaction.TargetTypeBlog c db in
  err = None ∧ Reaction.state_of u t c' = Reaction.RLiked ∧ db' = db
  ∧ DislikeBlogHandler CalculatePopularity F now uuid u t c db
    = ((c, db), BlogNotFound).
Proof.
  intros Hwf Hfresh Hs Hlen Hnone. unfold ToggleLikeBlog.
  pose proof (ReactionFacts.apply_op_err
                (Reaction.mkOp Reaction.KLike uuid u t Reaction.TargetTypeBlog) c Hwf)
    as Herr.
  pose proof (ReactionFacts.apply_op_step
                (Reaction.mkOp Reaction.KLike uuid u t Reaction.TargetTypeBlog) c
                Hwf Hfresh) as (_ & _ & Hstate & _).
  unfold Reaction.apply_op in Herr, Hstate. simpl in Herr, Hstate.
  rewrite Hs in Hstate. simpl in Hstate.
  split; [done |]. split; [done |].
  assert (ExistsBlog F t db = false) as Hex.
  { unfold ExistsBlog, GetBlogByID. destruct (f_GetBlogByID F); [done |].
    by rewrite Hnone. }
  split.
  - rewrite ToggleLike_counts. unfold sync_reaction_counts, repo_UpdateBlog_counts.
    destruct (GetBlogByID F t db) as [blog|]; simpl;
      (destruct (f_UpdateBlog F); [done |]); by rewrite Hnone.
  - unfold DislikeBlogHandler. rewrite Hlen, Hex. done.
Qed.

End ReactionBlogFacts.

Lemma toggle_syncs_blog_counters_witness :
  ∃ b', find_one (blog_id_filter "b01")
          (blogs (ToggleBlog demo_popularity Reaction.KLike no_faults 5 "r1" "u1"
                    "b01" Reaction.TargetTypeBlog [] demo_db).1.2) = Some b'
        ∧ LikeCount b' = 1%Z ∧ DislikeCount b' = 0%Z.
Proof.
  pose proof (toggle_syncs_blog_counters demo_popularity Reaction.KLike 5 "r1" "u1"
                "b01" [] demo_db _ eq_refl) as H.
  destruct (ToggleBlog demo_popularity Reaction.KLike no_faults 5 "r1" "u1" "b01"
              Reaction.TargetTypeBlog [] demo_db) as [[c' db'] err] eqn:Heq.
  destruct H as (b' & H1 & H2 & H3 & _).
  exists b'. split; [exact H1 |].
  injection Heq as Hc' _ _.
  by rewrite H2, H3, <- Hc'.
Defined.

Lemma like_of_missing_blog_is_recorded_witness :
  Reaction.state_of "u1" "0f8fad5b-d9cb-469f-a165-70867728950e"
    (ToggleLikeBlog demo_popularity no_faults 5 "r1" "u1"
       "0f8fad5b-d9cb-469f-a165-70867728950e" Reaction.TargetTypeBlog [] demo_db).1.1
  = Reaction.RLiked.
Proof.
  pose proof (like_of_missing_blog_is_recorded demo_popularity no_faults 5 "r1" "u1"
                "0f8fad5b-d9cb-469f-a165-70867728950e" [] demo_db
                ReactionFacts.WF_nil eq_refl eq_refl eq_refl eq_refl) as H.
  destruct (ToggleLikeBlog _ _ _ _ _ _ _ _ _) as [[c' db'] err].
  exact (proj1 (proj2 H)).
Defined.

(* ===================================================================== *)
(** * Facts about creating, updating and deleting blogs *)
(* ===================================================================== *)

Section BlogLifecycleFacts.

Context {score : Type} `{EqDecision score}.
Variable CalculatePopularity : Z → Z → Z → Z → score.

Lemma GetBlogByID_found F blogID (db : database score) blog :
  GetBlogByID F blogID db = inl blog →
  find_one (blog_id_filter blogID) (blogs db) = Some blog.
Proof.
  unfold GetBlogByID. destruct (f_GetBlogByID F); [done |].
  destruct (find_one _ _); [by intros [= ->] | done].
Qed.

Lemma GetBlogByID_missing F blogID (db : database score) :
  find_one (blog_id_filter blogID) (blogs db) = None →
  ∃ e, GetBlogByID F blogID db = inr e.
Proof.
  intros Hnone. unfold GetBlogByID. rewrite Hnone.
  destruct (f_GetBlogByID F); by eexists.
Qed.

Lemma append_nonempty (s t : string) (a : ascii) : s +:+ String a t ≠ "".
Proof. by destruct s. Qed.

(** ** DeleteBlog *)

(** X9: DeleteBlog either refuses, with an error and with the database
    and the cache exactly as they were, or it deletes, and then the blog
    was there, the caller is its author or an admin, and the blog's
    document is the one marked deleted. *)
Theorem delete_refused_or_authorised {S : Type}
    (blogCache : option (IBlogCache score S)) F G now blogID userID isAdmin
    st (db : database score) :
  let '((st', db'), (ok, err)) :=
    DeleteBlog blogCache F G now blogID userID isAdmin st db in
  if ok
  then err = None
       ∧ ∃ blog l1 l2,
           find_one (blog_id_filter blogID) (blogs db) = Some blog
           ∧ (isAdmin = true ∨ AuthorID blog = userID)
           ∧ blogs db = l1 ++ blog :: l2
           ∧ blogs db' = l1 ++ soft_delete now blog :: l2
           ∧ blog_views db' = blog_views db
  else st' = st ∧ db' = db ∧ err ≠ None.
Proof.
  unfold DeleteBlog.
  case_bool_decide; [done |]. case_bool_decide; [done |].
  destruct (GetBlogByID F blogID db) as [blog|e] eqn:Hget; [| done].
  apply GetBlogByID_found in Hget.
  destruct (negb isAdmin && negb (bool_decide (AuthorID blog = userID))) eqn:Hauth;
    [done |].
  unfold repo_DeleteBlog. destruct (f_DeleteBlog G); [done |].
  destruct (update_one_find_one (blog_id_filter blogID) (soft_delete now)
              (blogs db) blog Hget) as (l1 & l2 & Hc & _ & Hupd).
  rewrite Hupd. simpl. split; [done |].
  exists blog, l1, l2. split; [done |]. split; [| done].
  apply andb_false_iff in Hauth as [Ha | Ha].
  - left. by apply negb_false_iff in Ha.
  - right. apply negb_false_iff in Ha. by apply bool_decide_eq_true in Ha.
Qed.

(** With one document per value of a field, the documents around one
    that has the value do not have it. *)
Lemma unique_around {A : Type} (q : A → bool) (l1 l2 : list A) d :
  count_docs q (l1 ++ d :: l2) ≤ 1 → q d = true →
  count_docs q l1 = 0 ∧ count_docs q l2 = 0.
Proof. intros Hle Hd. rewrite count_docs_mid, Hd in Hle. simpl in Hle. lia. Qed.

Lemma count_docs_replace_none {A : Type} (p q : A → bool) (l1 l2 : list A) d :
  (∀ x, p x = true → q x = true) →
  count_docs q l1 = 0 → count_docs q l2 = 0 → p d = false →
  count_docs p (l1 ++ d :: l2) = 0.
Proof.
  intros Hpq H1 H2 Hd. rewrite count_docs_mid, Hd. simpl.
  pose proof (count_docs_le p q l1 Hpq). pose proof (count_docs_le p q l2 Hpq). lia.
Qed.

(** A DeleteBlog that succeeds: the document it marks and the cache it
    leaves. *)
Lemma DeleteBlog_success {S : Type} (cache : IBlogCache score S) F G now
    blogID userID isAdmin st st' (db db' : database score) :
  DeleteBlog (Some cache) F G now blogID userID isAdmin st db
  = ((st', db'), (true, None)) →
  ∃ blog l1 l2,
    find_one (blog_id_filter blogID) (blogs db) = Some blog
    ∧ blogs db = l1 ++ blog :: l2
    ∧ blogs db' = l1 ++ soft_delete now blog :: l2
    ∧ st' = (if negb (bool_decide (Slug blog = ""))
             then (c_InvalidateBlogBySlug _ cache now (Slug blog)
                     (c_InvalidateBlogLists _ cache now st).1).1
             else (c_InvalidateBlogLists _ cache now st).1).
Proof.
  unfold DeleteBlog.
  case_bool_decide; [done |]. case_bool_decide; [done |].
  destruct (GetBlogByID F blogID db) as [blog|e] eqn:Hget; [| done].
  apply GetBlogByID_found in Hget.
  destruct (negb isAdmin && _); [done |].
  unfold repo_DeleteBlog. destruct (f_DeleteBlog G); [done |].
  destruct (update_one_find_one (blog_id_filter blogID) (soft_delete now)
              (blogs db) blog Hget) as (l1 & l2 & Hc & _ & Hupd).
  rewrite Hupd. intros [= <- <-]. by exists blog, l1, l2.
Qed.

(** X10: with ids and slugs unique, a blog that DeleteBlog has deleted
    through the Redis-backed store is served by nothing any more: every
    later GetBlogByID of its id and every later GetBlogDetail of its slug,
    at any time and whatever the driver does, ends in an error, the cache
    holds no copy of it, and no list page is served from the cache, so
    that every list read goes to the database. *)
Theorem deleted_blog_is_not_served F G now blogID userID isAdmin
    (r r' : gmap string (rentry score)) (db db' : database score) :
  unique_ids db → unique_slugs db →
  DeleteBlog (Some BlogCacheStore) F G now blogID userID isAdmin r db
  = ((r', db'), (true, None)) →
  ∃ blog, find_one (blog_id_filter blogID) (blogs db) = Some blog
    ∧ (∀ F', ∃ e, GetBlogByID F' blogID db' = inr e)
    ∧ (∀ F' now', ∃ e,
         GetBlogDetail (Some BlogCacheStore) F' now' (Slug blog) r' db'
         = (r', inr e))
    ∧ (Slug blog ≠ "" → r' !! blogDetailKey (Slug blog) = None)
    ∧ (∀ key now', (now ≤ now')%Z → HasPrefix key "blogs:list:" = true →
         store_GetBlogsPage now' key r' = (r', (None, false, None))).
Proof.
  intros Hids Hslugs Hdel.
  apply DeleteBlog_success in Hdel as (blog & l1 & l2 & Hfind & Hc & Hc' & Hr').
  simpl in Hr'. unfold store_InvalidateBlogBySlug in Hr'. simpl in Hr'.
  exists blog. split; [done |].
  destruct (find_one_In _ _ _ Hfind) as [_ Hb].
  apply blog_id_filter_true in Hb as [Hid Hnd].
  split; [| split; [| split]].
  - intros F'. apply GetBlogByID_missing. apply find_one_None. rewrite Hc'.
    pose proof (Hids blogID) as Hle. rewrite Hc in Hle.
    destruct (unique_around _ l1 l2 blog Hle) as [H1 H2];
      [by apply bool_decide_eq_true_2 |].
    apply (count_docs_replace_none _ (λ b, bool_decide (ID b = blogID)));
      [| done | done | unfold blog_id_filter; simpl; apply andb_false_r].
    intros x Hx. apply blog_id_filter_true in Hx as [Hx _].
    by apply bool_decide_eq_true_2.
  - intros F' now'. unfold GetBlogDetail.
    case_bool_decide as Hslug; [by eexists |].
    assert (GET now' (blogDetailKey (Slug blog)) r' = Nil) as Hmiss.
    { rewrite Hr'. simpl. apply GET_None, lookup_live_DEL_eq. }
    simpl. unfold store_GetBlogBySlug. rewrite Hmiss.
    unfold GetBlogDetail_db, GetBlogBySlug.
    destruct (f_GetBlogBySlug F'); [by eexists |].
    assert (find_one (blog_slug_filter (Slug blog)) (blogs db') = None) as ->;
      [| by eexists].
    apply find_one_None. rewrite Hc'.
    pose proof (Hslugs (Slug blog)) as Hle. rewrite Hc in Hle.
    destruct (unique_around _ l1 l2 blog Hle) as [H1 H2];
      [by apply bool_decide_eq_true_2 |].
    apply (count_docs_replace_none _ (λ b, bool_decide (Slug b = Slug blog)));
      [| done | done | unfold blog_slug_filter; simpl; apply andb_false_r].
    intros x Hx. unfold blog_slug_filter in Hx.
    by apply andb_true_iff in Hx as [Hx _].
  - intros Hslug. rewrite Hr', (bool_decide_eq_false_2 _ Hslug). simpl.
    unfold DEL. apply lookup_delete_eq.
  - intros key now' Hle Hp. unfold store_GetBlogsPage.
    rewrite (GET_None now' key r'); [done |].
    apply (lookup_live_None_mono now now'); [done |].
    pose proof (proj1 (InvalidateBlogLists_effect now r key) Hp) as Hnone.
    rewrite Hr'. destruct (negb _); [by apply lookup_live_DEL | done].
Qed.

(** ** CreateBlog *)

(** The blog CreateBlog builds. *)
Lemma CreateBlog_cases {S : Type} (blogCache : option (IBlogCache score S))
    G now uuid1 uuid2 aiUC title content authorID slug status img tags
    st (db : database score) st' db' res :
  CreateBlog CalculatePopularity blogCache G now uuid1 uuid2 aiUC title content
             authorID slug status img tags st db = ((st', db'), res) →
  (∃ e, res = inr e ∧ st' = st ∧ db' = db)
  ∨ (∃ base,
       let blog :=
         mkBlog uuid1 title content authorID (base +:+ "-" +:+ uuid2) status
                0 0 0 0 (CalculatePopularity 0 0 0 0) img
                (if bool_decide (status = BlogStatusPublished)
                 then Some now else None) now false in
       res = inl blog
       ∧ base = (if bool_decide (slug = "")
                 then ReplaceAll (ToLower title) " " "-" else slug)
       ∧ title ≠ "" ∧ content ≠ "" ∧ authorID ≠ ""
       ∧ count_docs (blog_id_filter uuid1) (blogs db) = 0
       ∧ blogs db' = blogs db ++ [blog]
       ∧ blog_views db' = blog_views db
       ∧ st' = match blogCache with
               | Some cache => (c_InvalidateBlogLists _ cache now st).1
               | None => st
               end).
Proof.
  unfold CreateBlog.
  case_bool_decide as Ht; [intros [= <- <- <-]; left; by eexists |].
  case_bool_decide as Hc; [intros [= <- <- <-]; left; by eexists |].
  case_bool_decide as Ha; [intros [= <- <- <-]; left; by eexists |].
  match goal with
  | |- context [if ?b then ((st, db), inr ?e) else _] => destruct b
  end; [intros [= <- <- <-]; left; by eexists |].
  unfold repo_CreateBlog. destruct (f_CreateBlog G);
    [intros [= <- <- <-]; left; by eexists |].
  simpl.
  destruct (existsb _ (blogs db)) eqn:Hex;
    [intros [= <- <- <-]; left; by eexists |].
  assert (count_docs (blog_id_filter uuid1) (blogs db) = 0) as Hfresh.
  { clear -Hex. induction (blogs db) as [|b bs IH]; simpl in *; [done |].
    apply orb_false_iff in Hex as [Hb Hbs]. unfold blog_id_filter at 1.
    rewrite Hb. simpl. by apply IH. }
  intros Heq. right.
  eexists. simpl. injection Heq as <- Hdb' <-.
  split; [done |]. split; [done |]. do 3 (split; [done |]). split; [done |].
  split; [| split; [| done]].
  - rewrite <- Hdb'. destruct (0 <? length tags); [| done].
    unfold repo_AddTagsToBlog. destruct (length tags =? 0); [done |].
    destruct (f_AddTagsToBlog G); [done |]. simpl.
    erewrite update_one_snoc_None;
      [done | by apply update_one_None
       | unfold blog_id_filter; simpl; by rewrite bool_decide_eq_true_2].
  - rewrite <- Hdb'. destruct (0 <? length tags); [| done].
    unfold repo_AddTagsToBlog. destruct (length tags =? 0); [done |].
    destruct (f_AddTagsToBlog G); [done |]. simpl.
    by destruct (update_one _ _ _).
Qed.


(** X12: a CreateBlog that returns an error has written nothing: the
    database and the cache are as they were. *)
Theorem refused_creation_writes_nothing {S : Type}
    (blogCache : option (IBlogCache score S))
    G now uuid1 uuid2 aiUC title content authorID slug status img tags
    st (db : database score) e :
  (CreateBlog CalculatePopularity blogCache G now uuid1 uuid2 aiUC title content
              authorID slug status img tags st db).2 = inr e →
  (CreateBlog CalculatePopularity blogCache G now uuid1 uuid2 aiUC title content
              authorID slug status img tags st db).1 = (st, db).
Proof.
  destruct (CreateBlog _ _ _ _ _ _ _ _ _ _ _ _ _ _ _ _) as [[st' db'] res] eqn:Hc.
  simpl. intros ->.
  apply CreateBlog_cases in Hc as [(e' & _ & -> & ->) | Hok]; [done |].
  by destruct Hok as (base & Hres & _).
Qed.

(** X27: after a CreateBlog that succeeds on the Redis-backed store no
    key of the list namespace is served, now or later, so that every list
    read is a miss and goes to the database, where the new blog is; the
    cached blogs of all slugs are served as before. *)
Theorem creation_invalidates_list_pages G now uuid1 uuid2 aiUC title content
    authorID slug status img tags (r r' : gmap string (rentry score))
    (db db' : database score) blog :
  CreateBlog CalculatePopularity (Some BlogCacheStore) G now uuid1 uuid2 aiUC
             title content authorID slug status img tags r db
  = ((r', db'), inl blog) →
  (∀ key now', (now ≤ now')%Z → HasPrefix key "blogs:list:" = true →
     store_GetBlogsPage now' key r' = (r', (None, false, None)))
  ∧ (∀ slug', r' !! blogDetailKey slug' = r !! blogDetailKey slug')
  ∧ In blog (blogs db').
Proof.
  intros Hcreate. apply CreateBlog_cases in Hcreate as [(e & He & _) | Hok];
    [done |].
  destruct Hok as (base & Hres & _ & _ & _ & _ & _ & Hblogs & _ & ->).
  simpl. split; [| split].
  - intros key now' Hle Hp. unfold store_GetBlogsPage.
    rewrite (GET_None now' key); [done |].
    apply (lookup_live_None_mono now now'); [done |].
    by apply InvalidateBlogLists_effect.
  - intros slug'. rewrite InvalidateBlogLists_store. simpl.
    rewrite exec_pipe_lookup.
    destruct (decide (blogDetailKey slug' ∈ SCAN now "blogs:list:" r)) as [Hin|Hin];
      [| by rewrite bool_decide_eq_false_2].
    by apply SCAN_elem_of in Hin as [Hp _].
  - rewrite Hblogs. injection Hres as <-. apply in_or_app. right. by left.
Qed.

(** ** Moderation *)


(** ** UpdateBlog *)

Lemma repo_UpdateBlog_cases F now blogID (u : BlogUpdates score) (db : database score) :
  (repo_UpdateBlog F now blogID u db).1 = db
  ∨ ∃ bs, update_one (blog_id_filter blogID)
            (set_updates (mkUpdates (u_title u) (u_slug u) (u_content u)
                            (u_status u) (u_published_at u)
                            (u_featured_image_id u) (u_popularity u) (Some now)))
            (blogs db) = Some bs
          ∧ (repo_UpdateBlog F now blogID u db).1 = mkDB bs (blog_views db).
Proof.
  unfold repo_UpdateBlog. destruct (f_UpdateBlog F); [by left |].
  destruct (find_one _ _); [| by left].
  case_bool_decide; [by left |]. simpl.
  destruct (update_one _ _ _) as [bs|] eqn:Hupd; [| by left; destruct db].
  right. by exists bs.
Qed.

(** The database UpdateBlog leaves: the one it got, or that after one
    UpdateBlog of the repository whose slug, if any, ends in the new id. *)
Lemma UpdateBlog_db {S : Type} (blogCache : option (IBlogCache score S))
    F now uuid ai blogID authorID title content status img st (db : database score) :
  let db' := (UpdateBlog blogCache F now uuid ai blogID authorID title content
                         status img st db).1.2 in
  db' = db
  ∨ ∃ u, db' = (repo_UpdateBlog F now blogID u db).1
         ∧ (u_slug u = None ∨ ∃ base, u_slug u = Some (base +:+ "-" +:+ uuid)).
Proof.
  unfold UpdateBlog.
  case_bool_decide; [by left |]. case_bool_decide; [by left |].
  destruct (GetBlogByID F blogID db) as [blog|e]; [| by left].
  destruct (negb (bool_decide (AuthorID blog = authorID))); [by left |].
  match goal with
  | |- context [match ?c with Some err => ((st, db), inr err) | None => _ end] =>
      destruct c
  end; [by left |].
  match goal with
  | |- context [if ?b then repo_UpdateBlog F now blogID ?u db else _] =>
      destruct b; [| left];
      [assert (u_slug u = None ∨ ∃ base, u_slug u = Some (base +:+ "-" +:+ uuid))
         as Hslug by (destruct title; simpl; eauto);
       destruct (repo_UpdateBlog F now blogID u db) as [db1 updErr] eqn:Hupd;
       right; exists u; split; [| done];
       rewrite Hupd |]
  end.
  - destruct updErr; [done |]. simpl. by destruct (GetBlogByID F blogID db1).
  - by destruct (GetBlogByID F blogID db).
Qed.

(** X13: UpdateBlog, whatever it is asked and however it ends, leaves
    the id, the author, the four counters and the deleted flag of every
    blog as they were, keeps the blogs in their places and does not touch
    the view records. *)
Theorem update_keeps_identity_and_counters {S : Type}
    (blogCache : option (IBlogCache score S))
    F now uuid ai blogID authorID title content status img st (db : database score) :
  let db' := (UpdateBlog blogCache F now uuid ai blogID authorID title content
                         status img st db).1.2 in
  map fixed_fields (blogs db') = map fixed_fields (blogs db)
  ∧ blog_views db' = blog_views db.
Proof.
  intros db'.
  destruct (UpdateBlog_db blogCache F now uuid ai blogID authorID title content
              status img st db) as [Hdb | (u & Hdb & _)]; fold db' in Hdb;
    rewrite Hdb; [done |].
  destruct (repo_UpdateBlog_cases F now blogID u db) as [-> | (bs & Hupd & ->)];
    [done |].
  simpl. split; [| done]. by eapply update_one_map; [| exact Hupd].
Qed.

(** X14: no slug in the database is ever empty: CreateBlog and UpdateBlog
    both keep that, whatever they are asked and however they end. *)
Theorem stored_slugs_never_empty {S : Type} (blogCache : option (IBlogCache score S))
    F G now uuid1 uuid2 aiUC ai blogID title content authorID slug status img tags
    title' content' status' st (db : database score) :
  slugs_nonempty db →
  slugs_nonempty
    (CreateBlog CalculatePopularity blogCache G now uuid1 uuid2 aiUC title content
                authorID slug status img tags st db).1.2
  ∧ slugs_nonempty
      (UpdateBlog blogCache F now uuid1 ai blogID authorID title' content'
                  status' img st db).1.2.
Proof.
  intros Hall. split.
  - destruct (CreateBlog _ _ _ _ _ _ _ _ _ _ _ _ _ _ _ _) as [[st' db'] res] eqn:Hc.
    apply CreateBlog_cases in Hc as [(e & _ & _ & ->) | Hok]; [done |].
    destruct Hok as (base & _ & _ & _ & _ & _ & _ & Hblogs & _).
    unfold slugs_nonempty. simpl. rewrite Hblogs. apply Forall_app. split; [done |].
    apply Forall_cons. split; [| done]. simpl. apply append_nonempty.
  - destruct (UpdateBlog_db blogCache F now uuid1 ai blogID authorID title' content'
                status' img st db) as [-> | (u & -> & Hslug)]; [done |].
    destruct (repo_UpdateBlog_cases F now blogID u db) as [-> | (bs & Hupd & ->)];
      [done |].
    unfold slugs_nonempty. simpl.
    eapply update_one_Forall; [| exact Hupd | exact Hall].
    intros d Hd. simpl. destruct Hslug as [-> | [base ->]]; simpl; [done |].
    apply append_nonempty.
Qed.

(** ** The like counter *)

Lemma inc_likes_inverse (b : Blog score) : inc_likes (-1) (inc_likes 1 b) = b.
Proof.
  destruct b. unfold inc_likes. simpl. f_equal. lia.
Qed.

(** X15: DecrementLikeCount undoes IncrementLikeCount on a blog whose
    like_count was not negative, and never takes a like_count below zero:
    at zero it returns its error and writes nothing. *)
Theorem like_counter_round_trip G blogID (db db1 : database score) :
  f_DecrementLikeCount G = None →
  Forall (λ b, 0 ≤ LikeCount b)%Z (blogs db) →
  IncrementLikeCount G blogID db = (db1, None) →
  DecrementLikeCount G blogID db1 = (db, None)
  ∧ Forall (λ b, 0 ≤ LikeCount b)%Z (blogs (DecrementLikeCount G blogID db).1).
Proof.
  intros HG Hpos Hinc. split.
  - unfold IncrementLikeCount in Hinc. destruct (f_IncrementLikeCount G); [done |].
    destruct (update_one _ _ (blogs db)) as [bs|] eqn:Hupd; [| done].
    injection Hinc as <-.
    apply update_one_Some in Hupd as (l1 & d & l2 & Hc & -> & Hd & Hl1).
    unfold DecrementLikeCount. rewrite HG. simpl.
    rewrite Hc in Hpos. apply Forall_app in Hpos as [_ Hpos].
    apply Forall_cons in Hpos as [Hpos _].
    rewrite (update_one_mid (blog_liked_filter blogID) (inc_likes (-1)) l1 l2
               (inc_likes 1 d)).
    + rewrite inc_likes_inverse, <- Hc. by destruct db.
    + apply Nat.le_0_r. rewrite <- Hl1. apply count_docs_le.
      intros x Hx. unfold blog_liked_filter in Hx.
      by apply andb_true_iff in Hx as [Hx _].
    + unfold blog_liked_filter.
      change (blog_id_filter blogID (inc_likes 1 d)) with (blog_id_filter blogID d).
      rewrite Hd. simpl. apply Z.ltb_lt. lia.
  - unfold DecrementLikeCount. rewrite HG.
    destruct (update_one _ _ (blogs db)) as [bs|] eqn:Hupd; [| done]. simpl.
    apply update_one_Some in Hupd as (l1 & d & l2 & Hc & -> & Hd & _).
    rewrite Hc in Hpos. apply Forall_app in Hpos as [H1 H2].
    apply Forall_cons in H2 as [_ H2].
    apply Forall_app. split; [done |]. apply Forall_cons. split; [| done].
    unfold blog_liked_filter in Hd. apply andb_true_iff in Hd as [_ Hd].
    apply Z.ltb_lt in Hd. simpl. lia.
Qed.

End BlogLifecycleFacts.

Lemma unique_by_NoDup {A B : Type} `{EqDecision B} (g : A → B) (c : list A) :
  NoDup (map g c) → ∀ v, count_docs (λ d, bool_decide (g d = v)) c ≤ 1.
Proof.
  induction c as [|d c IH]; intros Hnd v; simpl; [lia |].
  apply NoDup_cons in Hnd as [Hd Hnd]. specialize (IH Hnd v).
  case_bool_decide as Hv; [| simpl; lia].
  assert (count_docs (λ d, bool_decide (g d = v)) c = 0) as ->; [| simpl; lia].
  destruct (count_docs _ c) eqn:Hcount; [done |]. exfalso. apply Hd.
  clear -Hcount Hv. subst v. induction c as [|x c IH]; simpl in *; [done |].
  case_bool_decide as Hx.
  - rewrite Hx. apply elem_of_cons. by left.
  - apply elem_of_cons. right. apply IH. simpl in Hcount. lia.
Qed.

Lemma demo_db_unique_ids : unique_ids demo_db.
Proof.
  intros id. apply (unique_by_NoDup ID (blogs demo_db)).
  by apply (bool_decide_unpack _).
Qed.

Lemma demo_db_unique_slugs : unique_slugs demo_db.
Proof.
  intros slug. apply (unique_by_NoDup Slug (blogs demo_db)).
  by apply (bool_decide_unpack _).
Qed.

Lemma demo_db_slugs_nonempty : slugs_nonempty demo_db.
Proof. unfold slugs_nonempty. simpl. repeat constructor; done. Qed.

Lemma deleted_blog_is_not_served_witness :
  ∃ e, GetBlogByID no_faults "b01"
         (DeleteBlog (Some BlogCacheStore) no_faults no_write_faults 100
                     "b01" "author" false ∅ demo_db).1.2 = inr e.
Proof.
  destruct (deleted_blog_is_not_served no_faults no_write_faults 100
              "b01" "author" false ∅
              (DeleteBlog (Some BlogCacheStore) no_faults no_write_faults 100
                          "b01" "author" false ∅ demo_db).1.1
              demo_db
              (DeleteBlog (Some BlogCacheStore) no_faults no_write_faults 100
                          "b01" "author" false ∅ demo_db).1.2
              demo_db_unique_ids demo_db_unique_slugs)
    as (blog & _ & Hid & _).
  - vm_compute. reflexivity.
  - exact (Hid no_faults).
Defined.


Lemma refused_creation_writes_nothing_witness :
  (CreateBlog demo_popularity (None : option (IBlogCache Z unit))
     no_write_faults 7 "id1" "id2" (Some demo_ai_No) "My Title" "text" "author" ""
     BlogStatusPublished None [] () demo_db).1 = ((), demo_db).
Proof.
  apply (refused_creation_writes_nothing demo_popularity
           (None : option (IBlogCache Z unit))
           no_write_faults 7 "id1" "id2" (Some demo_ai_No) "My Title" "text"
           "author" "" BlogStatusPublished None [] () demo_db
           (New "content contains inappropriate material")).
  reflexivity.
Defined.

Lemma stored_slugs_never_empty_witness :
  slugs_nonempty
    (CreateBlog demo_popularity (None : option (IBlogCache Z unit))
       no_write_faults 7 "id1" "id2" None "My Title" "text" "author" ""
       BlogStatusPublished None [] () demo_db).1.2.
Proof.
  exact (proj1 (stored_slugs_never_empty demo_popularity
                  (None : option (IBlogCache Z unit)) no_faults no_write_faults 7
                  "id1" "id2" None (λ _, inl "yes") "b01" "My Title" "text" "author"
                  "" BlogStatusPublished None [] None None None () demo_db
                  demo_db_slugs_nonempty)).
Defined.

Lemma like_counter_round_trip_witness :
  DecrementLikeCount no_write_faults "b01"
    (IncrementLikeCount no_write_faults "b01" demo_db).1 = (demo_db, None).
Proof.
  apply (like_counter_round_trip no_write_faults "b01" demo_db
           (IncrementLikeCount no_write_faults "b01" demo_db).1 eq_refl).
  - simpl. repeat constructor; done.
  - reflexivity.
Defined.

Lemma creation_invalidates_list_pages_witness :
  In demo_created
     (blogs (CreateBlog demo_popularity (Some BlogCacheStore) no_write_faults 7
               "id1" "id2" None "My Title" "text" "author" ""
               BlogStatusPublished None [] ∅ demo_db).1.2).
Proof.
  refine (proj2 (proj2
    (creation_invalidates_list_pages demo_popularity no_write_faults 7 "id1" "id2"
       None "My Title" "text" "author" "" BlogStatusPublished None [] ∅
       (CreateBlog demo_popularity (Some BlogCacheStore) no_write_faults 7
                   "id1" "id2" None "My Title" "text" "author" ""
                   BlogStatusPublished None [] ∅ demo_db).1.1
       demo_db
       (CreateBlog demo_popularity (Some BlogCacheStore) no_write_faults 7
                   "id1" "id2" None "My Title" "text" "author" ""
                   BlogStatusPublished None [] ∅ demo_db).1.2
       demo_created _))).
  vm_compute. reflexivity.
Defined.


(* ===================================================================== *)
(** * Further facts about view tracking *)
(* ===================================================================== *)

Lemma ToLower_app s t : ToLower (s +:+ t) = ToLower s +:+ ToLower t.
Proof. induction s as [|a s IH]; simpl; [done | by rewrite IH]. Qed.

Lemma prefix_app s t : String.prefix s (s +:+ t) = true.
Proof.
  induction s as [|a s IH]; simpl; [by destruct t |].
  destruct (ascii_dec a a); [done | congruence].
Qed.

Lemma Contains_prefix s sub : String.prefix sub s = true → Contains s sub = true.
Proof. intros Hp. destruct s; cbn [Contains]; by rewrite Hp. Qed.

Lemma Contains_cons a s sub : Contains s sub = true → Contains (String a s) sub = true.
Proof. intros Hc. cbn [Contains]. rewrite Hc. apply orb_true_r. Qed.

Lemma Contains_app pre s suf : Contains (pre +:+ s +:+ suf) s = true.
Proof.
  induction pre as [|a pre IH].
  - change ("" +:+ s +:+ suf) with (s +:+ suf).
    apply Contains_prefix, prefix_app.
  - change (String a pre +:+ s +:+ suf) with (String a (pre +:+ s +:+ suf)).
    apply Contains_cons, IH.
Qed.

(** A User-Agent that has a signature in it, in any letter case, is a
    bot's. *)
Lemma isBot_signature pre s suf sig :
  In sig botSignatures → ToLower s = sig → isBot (pre +:+ s +:+ suf) = true.
Proof.
  intros Hin Hs. unfold isBot. apply existsb_exists. exists sig. split; [done |].
  rewrite !ToLower_app, Hs. apply Contains_app.
Qed.

Section TrackingFacts.

Context {score : Type} `{EqDecision score}.
Variable CalculatePopularity : Z → Z → Z → Z → score.


(** How the commit step can end. *)
Lemma commit_view_cases F now blogID userID ip ua (db db' : database score) err :
  commit_view CalculatePopularity F now blogID userID ip ua db = (db', err) →
  (∃ e, err = Some (Errorf "failed to increment view count" e) ∧ db' = db)
  ∨ (∃ e, err = Some (Errorf "failed to record user view" e))
  ∨ (err = None
     ∧ ∃ bs, update_one (blog_id_filter blogID) inc_views (blogs db) = Some bs
         ∧ db' = (UpdateBlogPopularity CalculatePopularity F now blogID
                    (mkDB bs (blog_views db
                              ++ [mkBlogView blogID userID ip ua now]))).1).
Proof.
  unfold commit_view, IncrementViewCount.
  destruct (f_IncrementViewCount F); [intros [= <- <-]; left; by eexists |].
  destruct (update_one _ _ (blogs db)) as [bs|] eqn:Hupd;
    [| intros [= <- <-]; left; by eexists].
  unfold RecordView. destruct (f_RecordView F);
    [intros [= <- <-]; right; left; by eexists |].
  simpl. intros [= <- <-]. right; right. split; [done |]. by exists bs.
Qed.

Lemma handler_failed_increment e :
  TrackBlogViewHandler (Some (Errorf "failed to increment view count" e)) = Failed.
Proof.
  unfold TrackBlogViewHandler. simpl.
  repeat (case_bool_decide as Hm; [discriminate Hm |]). done.
Qed.

Lemma handler_failed_record e :
  TrackBlogViewHandler (Some (Errorf "failed to record user view" e)) = Failed.
Proof.
  unfold TrackBlogViewHandler. simpl.
  repeat (case_bool_decide as Hm; [discriminate Hm |]). done.
Qed.

(** X16: a view request that TrackBlogView turns down as already viewed,
    as over the velocity limit or as over the rotation limit has written
    nothing to the database, with any cache and whatever the driver does;
    one turned down as already viewed has not touched the cache either. *)
Theorem rejected_view_writes_nothing {S : Type}
    (blogCache : option (IBlogCache score S)) F now blogID userID ip ua
    st (db : database score) :
  let res := TrackBlogView CalculatePopularity blogCache F now blogID userID ip ua
                           st db in
  let outcome := TrackBlogViewHandler res.2 in
  (outcome ≠ Counted → outcome ≠ Failed → res.1.2 = db)
  ∧ (outcome = AlreadyViewed → res.1 = (st, db)).
Proof.
  unfold TrackBlogView.
  case_bool_decide; [by split |].
  destruct (bool_decide (userID = "") && bool_decide (ip = "")); [by split |].
  destruct (isBot ua); [by split |].
  destruct (HasViewedRecently F blogID userID ip db) as [[|]|e]; [by split | | by split].
  match goal with
  | |- context [let '(st', rejected) := ?x in _] =>
      destruct x as [st' [err|]] eqn:Hcheck
  end.
  - simpl. split; [done |].
    destruct blogCache as [cache|]; [| done].
    destruct (velocity_check cache F now blogID ip st db) as [st1 [e1|]] eqn:Hv.
    + injection Hcheck as <- <-. revert Hv. unfold velocity_check.
      destruct (c_GetRecentViewCountByIP _ _ _ _ _) as [st2 [n|e2]].
      * destruct (maxIpVelocity <? n)%Z; intros [= <- <-]; done.
      * destruct (GetRecentViewsByIP F ip _ db) as [views|e3];
          [destruct (maxIpVelocity <? _)%Z |]; intros [= <- <-]; done.
    + revert Hcheck. unfold rotation_check.
      case_bool_decide; [done |].
      destruct (c_GetRecentIPCountByUser _ _ _ _ _) as [st2 [n|e2]].
      * destruct (maxUserIPs <? n)%Z; intros [= <- <-]; done.
      * destruct (GetRecentViewsByUser F userID _ db) as [views|e3];
          [destruct (maxUserIPs <? _)%Z |]; intros [= <- <-]; done.
  - destruct (commit_view CalculatePopularity F now blogID userID ip ua db)
      as [db' err] eqn:Hcommit. simpl.
    apply commit_view_cases in Hcommit
      as [(e & -> & ->) | [(e & ->) | (-> & _)]].
    + by rewrite handler_failed_increment.
    + by rewrite handler_failed_record.
    + by split.
Qed.

Lemma repo_UpdateBlog_find F now blogID (u : BlogUpdates score) (db : database score) b :
  find_one (blog_id_filter blogID) (blogs db) = Some b →
  ∃ b', find_one (blog_id_filter blogID) (blogs (repo_UpdateBlog F now blogID u db).1)
        = Some b'
        ∧ fixed_fields b' = fixed_fields b
        ∧ (u_popularity u = None → Popularity b' = Popularity b)
        ∧ ((repo_UpdateBlog F now blogID u db).2 = None →
           ∀ p, u_popularity u = Some p → Popularity b' = p).
Proof.
  intros Hfind.
  unfold repo_UpdateBlog. destruct (f_UpdateBlog F); [by exists b |].
  rewrite Hfind. case_bool_decide; [by exists b |]. simpl.
  destruct (update_one_find_one (blog_id_filter blogID)
              (set_updates (mkUpdates (u_title u) (u_slug u) (u_content u)
                              (u_status u) (u_published_at u)
                              (u_featured_image_id u) (u_popularity u) (Some now)))
              (blogs db) b Hfind) as (l1 & l2 & Hc & Hl1 & Hupd).
  rewrite Hupd. simpl. eexists. split.
  { apply find_one_mid; [done |]. rewrite set_updates_filter.
    by destruct (find_one_In _ _ _ Hfind). }
  split; [done |]. split.
  - intros Hu. simpl. by rewrite Hu.
  - intros _ p Hu. simpl. by rewrite Hu.
Qed.


(** X18: a request whose User-Agent has one of the bot signatures in
    it, in any mix of upper and lower case, is never counted: TrackBlogView
    returns nil for it, which the handler reports as a tracked view, and
    leaves the database and the cache exactly as they were. *)
Theorem bot_views_are_dropped {S : Type} (blogCache : option (IBlogCache score S))
    F now blogID userID ip pre s suf sig st (db : database score) :
  In sig botSignatures → ToLower s = sig →
  blogID ≠ "" → userID ≠ "" ∨ ip ≠ "" →
  TrackBlogView CalculatePopularity blogCache F now blogID userID ip
                (pre +:+ s +:+ suf) st db = ((st, db), None)
  ∧ TrackBlogViewHandler
      (TrackBlogView CalculatePopularity blogCache F now blogID userID ip
                     (pre +:+ s +:+ suf) st db).2 = Counted.
Proof.
  intros Hin Hs Hblog Hwho.
  assert (TrackBlogView CalculatePopularity blogCache F now blogID userID ip
            (pre +:+ s +:+ suf) st db = ((st, db), None)) as Htrack.
  { unfold TrackBlogView.
    rewrite (bool_decide_eq_false_2 _ Hblog).
    assert (bool_decide (userID = "") && bool_decide (ip = "") = false) as ->.
    { apply andb_false_iff.
      destruct Hwho; [left | right]; by apply bool_decide_eq_false_2. }
    by rewrite (isBot_signature pre s suf sig Hin Hs). }
  by rewrite Htrack.
Qed.

(** X19: when UpdateBlogPopularity returns nil, the blog is there and
    its stored popularity is CalculatePopularity of its stored views,
    likes, dislikes and comments, none of which the call has changed. *)
Theorem popularity_update_matches_counts F now blogID (db db' : database score) :
  UpdateBlogPopularity CalculatePopularity F now blogID db = (db', None) →
  ∃ b b', find_one (blog_id_filter blogID) (blogs db) = Some b
          ∧ find_one (blog_id_filter blogID) (blogs db') = Some b'
          ∧ fixed_fields b' = fixed_fields b
          ∧ Popularity b'
            = CalculatePopularity (ViewCount b') (LikeCount b') (DislikeCount b')
                                  (CommentCount b')
          ∧ map fixed_fields (blogs db') = map fixed_fields (blogs db)
          ∧ blog_views db' = blog_views db.
Proof.
  unfold UpdateBlogPopularity, GetBlogCounts.
  destruct (f_GetBlogCounts F); [done |].
  destruct (find_one _ (blogs db)) as [b|] eqn:Hfind; [| done].
  set (u := mkUpdates None None None None None None
              (Some (CalculatePopularity (ViewCount b) (LikeCount b)
                       (DislikeCount b) (CommentCount b))) None).
  intros Hupd.
  destruct (repo_UpdateBlog_find F now blogID u db b Hfind)
    as (b' & Hb' & Hfixed & _ & Hpop).
  rewrite Hupd in Hb', Hpop. simpl in Hb', Hpop.
  exists b, b'. split; [done |]. split; [done |]. split; [done |].
  split; [| split].
  - rewrite (Hpop eq_refl _ eq_refl).
    by injection Hfixed as _ _ -> -> -> -> _.
  - destruct (repo_UpdateBlog_cases F now blogID u db) as [Hd | (bs & Hu & Hd)];
      rewrite Hupd in Hd; simpl in Hd; subst db'; [done |].
    simpl. by eapply update_one_map; [| exact Hu].
  - destruct (repo_UpdateBlog_keeps F now blogID u db) as [Hviews _].
    by rewrite Hupd in Hviews.
Qed.

End TrackingFacts.

(* ===================================================================== *)
(** * Further facts about the cache store and the list reads *)
(* ===================================================================== *)

Lemma append_cancel_l (s a b : string) : s +:+ a = s +:+ b → a = b.
Proof. induction s as [|c s IH]; simpl; [done |]. intros [= H]. by apply IH. Qed.

(** The first byte of a string. *)
Lemma pretty_nonpositive_head (z : Z) (rest rest' : string) (d : Z) :
  (z < 1)%Z → d = 1%Z ∨ d = 10%Z → pretty z +:+ rest ≠ pretty d +:+ rest'.
Proof.
  intros Hz Hd Heq.
  assert (∃ t, pretty d +:+ rest' = String "1" t) as [t Ht].
  { destruct Hd as [-> | ->]; by eexists. }
  rewrite Ht in Heq. destruct z as [|p|p]; [| lia |].
  - change (pretty 0%Z) with "0" in Heq. discriminate Heq.
  - change (pretty (Z.neg p)) with ("-" +:+ pretty p) in Heq. discriminate Heq.
Qed.

Lemma wrap64_small z : (- 2 ^ 63 ≤ z < 2 ^ 63)%Z → wrap64 z = z.
Proof. intros Hz. unfold wrap64. rewrite Z.mod_small; lia. Qed.

(** The two ways GetBlogs counts the pages agree. *)
Lemma total_pages_agree total pageSize :
  (0 ≤ total)%Z → (1 ≤ pageSize)%Z → (total + pageSize < 2 ^ 63)%Z →
  Z.quot (wrap64 (wrap64 (total + pageSize) - 1)) pageSize
  = (if negb (Z.rem total pageSize =? 0)%Z
     then wrap64 (Z.quot total pageSize + 1) else Z.quot total pageSize).
Proof.
  intros Ht Hp Hsum.
  rewrite (wrap64_small (total + pageSize)) by lia.
  rewrite (wrap64_small (total + pageSize - 1)) by lia.
  rewrite !Z.quot_div_nonneg, Z.rem_mod_nonneg by lia.
  pose proof (Z.div_mod total pageSize ltac:(lia)) as Hdm.
  pose proof (Z.mod_pos_bound total pageSize ltac:(lia)) as Hm.
  assert (0 ≤ total `div` pageSize)%Z as Hq by (apply Z.div_pos; lia).
  assert (total `div` pageSize ≤ total)%Z as Hqt by nia.
  destruct (total `mod` pageSize =? 0)%Z eqn:Hz; simpl.
  - apply Z.eqb_eq in Hz. symmetry.
    apply (Z.div_unique _ _ _ (pageSize - 1)); lia.
  - apply Z.eqb_neq in Hz. rewrite wrap64_small by lia. symmetry.
    apply (Z.div_unique _ _ _ (total `mod` pageSize - 1)); lia.
Qed.

Section StoreRoundTrips.

Context {score : Type} `{EqDecision score}.

Lemma GET_SET now now' key d ttl (r : gmap string (rentry score)) :
  GET now' key (SET now key d ttl r)
  = if (now' <=? now + ttl)%Z then Ok d else Nil.
Proof.
  unfold GET, SET, lookup_live. rewrite lookup_insert_eq. unfold live. simpl.
  by destruct (now' <=? now + ttl)%Z.
Qed.

(** X20: what the store has set it serves until the entry's time to live
    is over and not after: a blog set under a slug is a hit for that slug
    for the next 60 minutes and a miss from then on, a list page set under
    a key is a hit for 30 minutes and a miss from then on. *)
Theorem cached_entries_expire now now' slug key b p (r : gmap string (rentry score)) :
  let r1 := (store_SetBlogBySlug now slug b r).1 in
  let r2 := (store_SetBlogsPage now key p r).1 in
  ((now' < now + 60 * 60)%Z →
   (store_GetBlogBySlug now' slug r1).2 = (Some b, true, None))
  ∧ ((now + 60 * 60 < now')%Z →
     (store_GetBlogBySlug now' slug r1).2 = (None, false, None))
  ∧ ((now' < now + 30 * 60)%Z →
     (store_GetBlogsPage now' key r2).2 = (Some p, true, None))
  ∧ ((now + 30 * 60 < now')%Z →
     (store_GetBlogsPage now' key r2).2 = (None, false, None)).
Proof.
  unfold store_SetBlogBySlug, store_SetBlogsPage, store_GetBlogBySlug,
    store_GetBlogsPage. simpl. rewrite !GET_SET. unfold detailTTL, listTTL.
  repeat split; intros Hlt.
  - by rewrite (proj2 (Z.leb_le _ _)) by lia.
  - by rewrite (proj2 (Z.leb_gt _ _)) by lia.
  - by rewrite (proj2 (Z.leb_le _ _)) by lia.
  - by rewrite (proj2 (Z.leb_gt _ _)) by lia.
Qed.

Lemma InvalidateBlogLists_other now (r : gmap string (rentry score)) k :
  HasPrefix k "blogs:list:" = false →
  (store_InvalidateBlogLists now r).1 !! k = r !! k.
Proof.
  intros Hk. rewrite InvalidateBlogLists_store. simpl.
  rewrite exec_pipe_lookup. case_bool_decide as Hin; [| done].
  apply SCAN_elem_of in Hin as [Hp _]. congruence.
Qed.

Lemma lookup_live_ext now k (r r' : gmap string (rentry score)) :
  r' !! k = r !! k → lookup_live now k r' = lookup_live now k r.
Proof. unfold lookup_live. by intros ->. Qed.

(** X21: InvalidateBlogLists deletes list pages only: the cached blog of
    every slug and the fraud sets of every address and every user are
    served after it exactly as before. *)
Theorem list_invalidation_keeps_other_keys now now' slug ip userID
    (r : gmap string (rentry score)) :
  let r' := (store_InvalidateBlogLists now r).1 in
  (store_GetBlogBySlug now' slug r').2 = (store_GetBlogBySlug now' slug r).2
  ∧ (store_GetRecentViewCountByIP now' ip r').2
    = (store_GetRecentViewCountByIP now' ip r).2
  ∧ (store_GetRecentIPCountByUser now' userID r').2
    = (store_GetRecentIPCountByUser now' userID r).2.
Proof.
  intros r'.
  assert (∀ k, HasPrefix k "blogs:list:" = false →
               lookup_live now' k r' = lookup_live now' k r) as Hother.
  { intros k Hk. apply lookup_live_ext. by apply InvalidateBlogLists_other. }
  split; [| split].
  - unfold store_GetBlogBySlug, GET. rewrite (Hother (blogDetailKey slug)) by done.
    destruct (lookup_live _ _ r) as [[[[]|]]|]; done.
  - unfold store_GetRecentViewCountByIP, SCARD. simpl.
    by rewrite (Hother (recentViewsByIPKey ip)).
  - unfold store_GetRecentIPCountByUser, SCARD. simpl.
    by rewrite (Hother (recentViewsByUserKey userID)).
Qed.

End StoreRoundTrips.

Section ListReadFacts.

Context {score : Type} `{EqDecision score}.
Variable FormatRFC3339 : Z → string.
Variable repo_GetBlogs :
  faults → BlogFilterOptions → database score → (list (Blog score) * Z) + error.

(** The list read on the Redis-backed store: a hit is answered from the
    page, anything else goes to the database. *)
Lemma GetBlogs_store_cases F now page ps sb so df dt
    (r : gmap string (rentry score)) db :
  (∃ p, GET now (buildBlogsListCacheKey FormatRFC3339
        page ps sb so df dt) r = Ok (JPage p)
        ∧ GetBlogs FormatRFC3339 repo_GetBlogs (Some BlogCacheStore)
            F now page ps sb so df dt r db
          = (r, inl (Blogs p, Total p, page,
                     if (0 <? ps)%Z
                     then Z.quot (wrap64 (wrap64 (Total p + ps) - 1)) ps
                     else 0%Z)))
  ∨ ((∀ p, GET now (buildBlogsListCacheKey FormatRFC3339
        page ps sb so df dt) r ≠ Ok (JPage p))
     ∧ GetBlogs FormatRFC3339 repo_GetBlogs (Some BlogCacheStore)
         F now page ps sb so df dt r db
       = GetBlogs_db FormatRFC3339 repo_GetBlogs (Some BlogCacheStore) F now
                     page ps sb so df dt r db).
Proof.
  unfold GetBlogs. simpl. unfold store_GetBlogsPage.
  destruct (GET now _ r) as [[b|p]| |e]; try (right; by split).
  left. by exists p.
Qed.

Lemma GetBlogs_db_store F now page ps sb so df dt (r : gmap string (rentry score)) db :
  let page' := if (page <? 1)%Z then 1%Z else page in
  let ps' := if (ps <? 1)%Z then 10%Z else ps in
  GetBlogs_db FormatRFC3339 repo_GetBlogs (Some BlogCacheStore) F now
              page ps sb so df dt r db
  = match repo_GetBlogs F (mkFilter page' ps' sb so df dt) db with
    | inr err => (r, inr (Errorf "failed to get blogs" err))
    | inl (blogs, total) =>
        (SET now (buildBlogsListCacheKey FormatRFC3339 page' ps' sb so df dt)
             (JPage (mkPage (List.filter visible blogs) total)) listTTL r,
         inl (List.filter visible blogs, total, page',
              if negb (Z.rem total ps' =? 0)%Z
              then wrap64 (Z.quot total ps' + 1) else Z.quot total ps'))
    end.
Proof.
  unfold GetBlogs_db. simpl.
  by destruct (repo_GetBlogs F _ db) as [[blogs total]|err].
Qed.

Lemma list_key_normalised page ps sb so df dt :
  (page < 1 ∨ ps < 1)%Z →
  buildBlogsListCacheKey FormatRFC3339 page ps sb so df dt
  ≠ buildBlogsListCacheKey FormatRFC3339
      (if (page <? 1)%Z then 1%Z else page) (if (ps <? 1)%Z then 10%Z else ps)
      sb so df dt.
Proof.
  intros Hout Heq. unfold buildBlogsListCacheKey in Heq.
  apply (append_cancel_l "blogs:list:p=") in Heq.
  destruct (page <? 1)%Z eqn:Hpage.
  - apply Z.ltb_lt in Hpage. revert Heq.
    apply pretty_nonpositive_head; [done | by left].
  - apply Z.ltb_ge in Hpage. destruct Hout as [? | Hps]; [lia |].
    apply append_cancel_l in Heq. apply (append_cancel_l ":s=") in Heq.
    rewrite (proj2 (Z.ltb_lt _ _) Hps) in Heq. revert Heq.
    apply pretty_nonpositive_head; [done | by right].
Qed.

(** X22: a list request with a page or a page size below 1 is looked up
    under the key of the numbers as given and, once answered from the
    database with the defaults 1 and 10, cached under the key of the
    defaults: GetBlogs never writes the key it has read for such a
    request, which is served after the call exactly as before it. *)
Theorem out_of_range_page_is_never_cached F now now' page ps sb so df dt
    (r : gmap string (rentry score)) db :
  (page < 1 ∨ ps < 1)%Z →
  let key := buildBlogsListCacheKey FormatRFC3339 page ps sb so df dt in
  let r' := (GetBlogs FormatRFC3339 repo_GetBlogs (Some BlogCacheStore)
                      F now page ps sb so df dt r db).1 in
  r' !! key = r !! key
  ∧ (store_GetBlogsPage now' key r').2 = (store_GetBlogsPage now' key r).2.
Proof.
  intros Hout key r'.
  assert (r' !! key = r !! key) as Hsame.
  { subst r'.
    destruct (GetBlogs_store_cases F now page ps sb so df dt r db)
      as [(p & _ & ->) | (_ & ->)]; [done |].
    rewrite GetBlogs_db_store.
    destruct (repo_GetBlogs F _ db) as [[blogs total]|err]; [| done].
    simpl. unfold SET. apply lookup_insert_ne.
    intros Heq. by apply (list_key_normalised page ps sb so df dt Hout). }
  split; [done |].
  unfold store_GetBlogsPage, GET. rewrite (lookup_live_ext now' _ _ _ Hsame).
  destruct (lookup_live _ _ r) as [[[[]|]]|]; done.
Qed.

(** X23: a list page that GetBlogs has read from the database and cached
    is answered from the cache for the next 30 minutes: the same request
    gets the same blogs, the same total and the same number of pages,
    whatever the database holds by then and whatever its driver does, and
    the cache is not written again. *)
Theorem list_page_is_served_from_cache F F' now now' page ps sb so df dt
    (r : gmap string (rentry score)) db db' blogs total :
  (1 ≤ page)%Z → (1 ≤ ps)%Z → (0 ≤ total)%Z → (total + ps < 2 ^ 63)%Z →
  GET now (buildBlogsListCacheKey FormatRFC3339 page ps sb so df dt) r = Nil →
  repo_GetBlogs F (mkFilter page ps sb so df dt) db = inl (blogs, total) →
  (now' < now + 30 * 60)%Z →
  let first := GetBlogs FormatRFC3339 repo_GetBlogs (Some BlogCacheStore)
      F now page ps sb so df dt r db in
  (∃ pages, first.2 = inl (List.filter visible blogs, total, page, pages))
  ∧ GetBlogs FormatRFC3339 repo_GetBlogs (Some BlogCacheStore)
      F' now' page ps sb so df dt first.1 db' = first.
Proof.
  intros Hpage Hps Htotal Hsum Hmiss Hrepo Hnow first. subst first.
  destruct (GetBlogs_store_cases F now page ps sb so df dt r db)
    as [(p & Hget & _) | (_ & ->)]; [congruence |].
  rewrite GetBlogs_db_store.
  rewrite (proj2 (Z.ltb_ge page 1)), (proj2 (Z.ltb_ge ps 1)) by lia.
  rewrite Hrepo. cbn [fst snd]. split; [by eexists |].
  match goal with
  | |- context [SET now ?k ?d listTTL r] => set (r1 := SET now k d listTTL r)
  end.
  destruct (GetBlogs_store_cases F' now' page ps sb so df dt r1 db')
    as [(p & Hget & ->) | (Hno & _)].
  - subst r1. rewrite GET_SET in Hget. unfold listTTL in Hget.
    rewrite (proj2 (Z.leb_le _ _)) in Hget by lia. injection Hget as <-. simpl.
    rewrite (proj2 (Z.ltb_lt 0 ps)) by lia.
    by rewrite total_pages_agree.
  - exfalso. subst r1. eapply Hno. rewrite GET_SET. unfold listTTL.
    by rewrite (proj2 (Z.leb_le _ _)) by lia.
Qed.

Lemma Forall_visible_filter (bs : list (Blog score)) :
  Forall (λ b, visible b = true) (List.filter visible bs).
Proof.
  apply Forall_forall. intros b Hb. apply list_elem_of_In in Hb.
  by apply filter_In in Hb as [_ Hb].
Qed.

(** X24: on the Redis-backed store the list read does not return drafts:
    if every cached page holds published and archived blogs only, the blogs
    GetBlogs returns are published or archived, from the cache as from the
    database, and the pages cached after the call are such pages again. *)
Theorem list_read_never_serves_drafts F now page ps sb so df dt
    (r : gmap string (rentry score)) db :
  pages_visible r →
  let res := GetBlogs FormatRFC3339 repo_GetBlogs (Some BlogCacheStore)
      F now page ps sb so df dt r db in
  pages_visible res.1
  ∧ ∀ bs total current pages,
      res.2 = inl (bs, total, current, pages) →
      Forall (λ b, Status b ≠ BlogStatusDraft) bs.
Proof.
  intros Hinv res. subst res.
  assert (∀ bs : list (Blog score), Forall (λ b, visible b = true) bs →
            Forall (λ b, Status b ≠ BlogStatusDraft) bs) as Hdraft.
  { intros bs Hbs. eapply Forall_impl; [exact Hbs |].
    intros b. apply visible_not_draft. }
  destruct (GetBlogs_store_cases F now page ps sb so df dt r db)
    as [(p & Hget & ->) | (_ & ->)].
  - simpl. split; [done |]. intros bs total current pages [= <- _ _ _].
    apply Hdraft. unfold GET, lookup_live in Hget.
    destruct (r !!
      buildBlogsListCacheKey FormatRFC3339 page ps sb so df dt) as [e|] eqn:He; [| done].
    destruct (live now e); [| done].
    destruct (r_value e) as [d|] eqn:Hv; [| done]. injection Hget as ->.
    by apply (Hinv _ e p He).
  - rewrite GetBlogs_db_store.
    destruct (repo_GetBlogs F _ db) as [[blogs total]|err]; simpl; [| by split].
    split.
    + intros k e p. unfold SET.
      destruct (decide (k =
        buildBlogsListCacheKey FormatRFC3339 (if (page <? 1)%Z then 1%Z else page)
                              (if (ps <? 1)%Z then 10%Z else ps) sb so df dt))
        as [-> | Hne].
      * rewrite lookup_insert_eq. intros [= <-]. simpl. intros [= <-]. simpl.
        apply Forall_visible_filter.
      * rewrite lookup_insert_ne by done. apply Hinv.
    + intros bs t c p [= <- _ _ _]. apply Hdraft, Forall_visible_filter.
Qed.

(** X25: GetPopularBlogs is the list read sorted by popularity without
    the draft filter and without the cache: on any database it normalises
    the page and the page size, counts the total and the pages as GetBlogs
    does, and returns the repository's blogs as they come, where GetBlogs
    returns the published and archived ones among them. *)
Theorem popular_list_is_not_filtered F now page ps (db : database score) :
  let plain :=
    (GetBlogs FormatRFC3339 repo_GetBlogs (None : option (IBlogCache score unit))
              F now page ps "popularity" "desc" None None () db).2 in
  match GetPopularBlogs repo_GetBlogs F page ps db with
  | inl (bs, total, current, pages) =>
      plain = inl (List.filter visible bs, total, current, pages)
      ∧ (1 ≤ current)%Z
  | inr e =>
      ∃ e', e = Errorf "failed to get popular blogs" e'
            ∧ plain = inr (Errorf "failed to get blogs" e')
  end.
Proof.
  unfold GetPopularBlogs, GetBlogs, GetBlogs_db. simpl.
  destruct (repo_GetBlogs F _ db) as [[blogs total]|err]; simpl.
  - split; [done |]. destruct (page <? 1)%Z eqn:Hp; [done |].
    by apply Z.ltb_ge in Hp.
  - by eexists.
Qed.

End ListReadFacts.

(** X26: whatever sort field and order a request names, the sort stage
    buildBlogFilterAndSort builds sorts on one of seven fixed fields, on
    created_at when the name is none of the known ones, and descending
    unless the order is exactly "asc". *)
Theorem sort_stage_is_whitelisted (opts : BlogFilterOptions) :
  (sortStage opts).1 ∈ sortKeys
  ∧ ((sortStage opts).1 = "created_at"
     ∨ (sortStage opts).1 = SortBy opts
     ∨ (sortStage opts).1 = "authorDetails." +:+ SortBy opts)
  ∧ (sortStage opts).2 = (if bool_decide (SortOrder opts = "asc") then 1 else -1)%Z.
Proof.
  unfold sortStage, sortKeys. simpl.
  repeat case_bool_decide; simpl; subst;
    repeat match goal with H : SortBy opts = _ |- _ => rewrite H end;
    (split; [set_solver | split; [naive_solver | done]]).
Qed.

(* ===================================================================== *)
(** * The rotation check on the Redis-backed store *)
(* ===================================================================== *)

Lemma recent_keys_differ ip userID :
  recentViewsByIPKey ip ≠ recentViewsByUserKey userID.
Proof. unfold recentViewsByIPKey, recentViewsByUserKey. intros H. discriminate H. Qed.

Lemma recentViewsByIPKey_inj ip ip' :
  recentViewsByIPKey ip = recentViewsByIPKey ip' → ip = ip'.
Proof.
  unfold recentViewsByIPKey. intros H.
  by apply (append_cancel_l "blog:recentviews:ip:") in H.
Qed.

Lemma prefix_true_app p k : String.prefix p k = true → ∃ t, k = p +:+ t.
Proof.
  revert k. induction p as [|a p IH]; intros k Hp; [by exists k |].
  destruct k as [|b k]; [done |]. simpl in Hp.
  destruct (ascii_dec a b) as [-> | ?]; [| done].
  destruct (IH k Hp) as [t ->]. by exists t.
Qed.

Section RotationFacts.

Context {score : Type} `{EqDecision score}.
Variable CalculatePopularity : Z → Z → Z → Z → score.

(** SADD and then EXPIRE on a set key: the member joins the set when the
    key is still served and starts a new set otherwise, the expiry is
    renewed, and no other key is written. *)
Lemma add_to_set now key m ttl (r : gmap string (rentry score)) last s :
  (0 ≤ ttl)%Z → key_set r key ttl last s → m ∉ s →
  (SADD now key m r).2 = None
  ∧ ∃ s1, key_set (EXPIRE now key ttl (SADD now key m r).1) key ttl
                  (Some (now, next_size ttl now last)) s1
          ∧ (∀ x, x ∈ s1 → x = m ∨ x ∈ s)
          ∧ (∀ k, k ≠ key →
               EXPIRE now key ttl (SADD now key m r).1 !! k = r !! k).
Proof.
  intros Httl Hset Hm.
  assert (∀ v : rvalue score, live now (mkEntry v (Some (now + ttl)%Z)) = true)
    as Hlive_new by (intros v; unfold live; simpl; apply Z.leb_le; lia).
  assert (lookup_live now key r = None →
          (SADD now key m r).2 = None
          ∧ key_set (EXPIRE now key ttl (SADD now key m r).1) key ttl
                    (Some (now, 1%Z)) {[m]}
          ∧ (∀ k, k ≠ key →
               EXPIRE now key ttl (SADD now key m r).1 !! k = r !! k)) as Hnew.
  { intros Hnone. rewrite (SADD_new _ _ _ _ Hnone). cbn [fst snd].
    erewrite EXPIRE_live by (by apply lookup_live_insert).
    split; [done |]. split.
    - cbv [key_set fst r_value].
      split; [by rewrite lookup_insert_eq | by rewrite size_singleton].
    - intros k Hk. by rewrite !lookup_insert_ne. }
  destruct last as [[t0 c0]|]; unfold next_size.
  - destruct Hset as [Hr Hsize].
    destruct (now <=? t0 + ttl)%Z eqn:Hlive.
    + assert (lookup_live now key r
              = Some (mkEntry (RSet s) (Some (t0 + ttl)%Z))) as Hlook
        by (unfold lookup_live; rewrite Hr; unfold live; simpl; by rewrite Hlive).
      rewrite (SADD_live _ _ _ _ _ _ Hlook). cbn [fst snd].
      erewrite EXPIRE_live
        by (apply lookup_live_insert; unfold live; simpl; exact Hlive).
      split; [done |]. exists ({[m]} ∪ s). split; [| split].
      * cbv [key_set fst r_value].
        split; [by rewrite lookup_insert_eq |].
        rewrite size_union by (by apply disjoint_singleton_l).
        rewrite size_singleton. lia.
      * intros x Hx. apply elem_of_union in Hx as [Hx | Hx]; [left | by right].
        by apply elem_of_singleton in Hx.
      * intros k Hk. by rewrite !lookup_insert_ne.
    + destruct Hnew as (H1 & H2 & H3).
      { unfold lookup_live. rewrite Hr. unfold live. simpl. by rewrite Hlive. }
      split; [done |]. exists {[m]}.
      split; [done |]. split; [| done].
      intros x Hx. left. by apply elem_of_singleton in Hx.
  - destruct Hnew as (H1 & H2 & H3).
    { unfold lookup_live. by rewrite Hset. }
    split; [done |]. exists {[m]}.
    split; [done |]. split; [| done].
    intros x Hx. left. by apply elem_of_singleton in Hx.
Qed.

Lemma key_set_live now key ttl (r : gmap string (rentry score)) c s :
  (0 ≤ ttl)%Z → key_set r key ttl (Some (now, c)) s →
  SCARD now key r = inl c.
Proof.
  intros Httl [Hr Hsize]. unfold SCARD, lookup_live. rewrite Hr.
  unfold live. cbn [r_expire r_value].
  rewrite (proj2 (Z.leb_le _ _)) by lia. cbn [r_value]. by rewrite Hsize.
Qed.

(** The two fraud checks of one request on the store, for an address
    that has no set yet and a user whose set is known: the velocity check
    passes, the rotation check rejects exactly when the user's set, with
    the request's address in it, holds more than five; only the two keys
    of the request are written. *)
Lemma fraud_checks_store F now b u ip (r : gmap string (rentry score)) db last s :
  u ≠ "" → r !! recentViewsByIPKey ip = None →
  key_set r (recentViewsByUserKey u) userIPRotationTTL last s → ip ∉ s →
  ∃ r2 s2,
    match velocity_check BlogCacheStore F now b ip r db with
    | (st1, Some err) => (st1, Some err)
    | (st1, None) => rotation_check BlogCacheStore F now u ip st1 db
    end
    = (r2, if (maxUserIPs <? next_size userIPRotationTTL now last)%Z
           then Some ErrRotation else None)
    ∧ key_set r2 (recentViewsByUserKey u) userIPRotationTTL
              (Some (now, next_size userIPRotationTTL now last)) s2
    ∧ (∀ x, x ∈ s2 → x = ip ∨ x ∈ s)
    ∧ (∀ ip', ip' ≠ ip →
         r2 !! recentViewsByIPKey ip' = r !! recentViewsByIPKey ip').
Proof.
  intros Hu Hip Hset Hnotin.
  destruct (add_to_set now (recentViewsByIPKey ip) b ipVelocityTTL r None ∅)
    as (Hsadd1 & s1 & Hset1 & _ & Hother1);
    [by unfold ipVelocityTTL | done | apply not_elem_of_empty |].
  remember (EXPIRE now (recentViewsByIPKey ip) ipVelocityTTL
              (SADD now (recentViewsByIPKey ip) b r).1) as r1 eqn:Hr1.
  assert (store_AddRecentViewByIP now ip b ipVelocityTTL r = (r1, None)) as Hadd1.
  { unfold store_AddRecentViewByIP.
    destruct (SADD now (recentViewsByIPKey ip) b r) as [r' e].
    simpl in Hsadd1. subst e. by rewrite Hr1. }
  assert (velocity_check BlogCacheStore F now b ip r db = (r1, None)) as ->.
  { unfold velocity_check.
    change (c_AddRecentViewByIP _ BlogCacheStore) with (@store_AddRecentViewByIP score).
    change (c_GetRecentViewCountByIP _ BlogCacheStore)
      with (@store_GetRecentViewCountByIP score).
    rewrite Hadd1. cbn [fst]. unfold store_GetRecentViewCountByIP.
    by rewrite (key_set_live now _ ipVelocityTTL r1 _ s1 ltac:(done) Hset1). }
  assert (key_set r1 (recentViewsByUserKey u) userIPRotationTTL last s) as Hset'.
  { unfold key_set in *.
    rewrite (Hother1 (recentViewsByUserKey u))
      by (intros Heq; by apply (recent_keys_differ ip u)).
    done. }
  destruct (add_to_set now (recentViewsByUserKey u) ip userIPRotationTTL r1 last s)
    as (Hsadd2 & s2 & Hset2 & Hsub & Hother2);
    [by unfold userIPRotationTTL | done | done |].
  remember (EXPIRE now (recentViewsByUserKey u) userIPRotationTTL
              (SADD now (recentViewsByUserKey u) ip r1).1) as r2 eqn:Hr2.
  assert (store_AddRecentViewByUser now u ip userIPRotationTTL r1 = (r2, None))
    as Hadd2.
  { unfold store_AddRecentViewByUser.
    destruct (SADD now (recentViewsByUserKey u) ip r1) as [r' e].
    simpl in Hsadd2. subst e. by rewrite Hr2. }
  exists r2, s2. split; [| split; [done |]; split; [done |]].
  - unfold rotation_check. rewrite (bool_decide_eq_false_2 _ Hu).
    change (c_AddRecentViewByUser _ BlogCacheStore)
      with (@store_AddRecentViewByUser score).
    change (c_GetRecentIPCountByUser _ BlogCacheStore)
      with (@store_GetRecentIPCountByUser score).
    rewrite Hadd2. cbn [fst]. unfold store_GetRecentIPCountByUser.
    rewrite (key_set_live now _ userIPRotationTTL r2 _ s2 ltac:(done) Hset2).
    by destruct (maxUserIPs <? _)%Z.
  - intros ip' Hne.
    rewrite (Hother2 (recentViewsByIPKey ip'))
      by (apply recent_keys_differ).
    apply Hother1. intros Heq. by apply recentViewsByIPKey_inj in Heq.
Qed.

(** One first view of a blog by a signed-in user from a new address,
    through the store. *)
Lemma track_step_user now u b ip visits (r : gmap string (rentry score)) db last s :
  u ≠ "" → viewable (b :: (visits.*1)) db → b ∉ (visits.*1) → ip ∉ (visits.*2) →
  key_set r (recentViewsByUserKey u) userIPRotationTTL last s →
  (∀ x, x ∈ ip :: (visits.*2) → (x ∉ s) ∧ r !! recentViewsByIPKey x = None) →
  ∃ r1 db1 s1 err,
    track CalculatePopularity (Some BlogCacheStore)
          (mkEvent now b u ip demo_agent) r db = ((r1, db1), err)
    ∧ TrackBlogViewHandler err
      = rotation_outcome (next_size userIPRotationTTL now last)
    ∧ key_set r1 (recentViewsByUserKey u) userIPRotationTTL
              (Some (now, next_size userIPRotationTTL now last)) s1
    ∧ (∀ x, x ∈ (visits.*2) → (x ∉ s1) ∧ r1 !! recentViewsByIPKey x = None)
    ∧ viewable (visits.*1) db1.
Proof.
  intros Hu Hv Hb Hip Hset Hfresh.
  destruct (Hv b) as (Hbne & _ & Hnorec); [apply elem_of_cons; by left |].
  destruct (Hfresh ip) as [Hips Hipkey]; [apply elem_of_cons; by left |].
  destruct (fraud_checks_store no_faults now b u ip r db last s Hu Hipkey Hset Hips)
    as (r2 & s2 & Hchecks & Hset2 & Hsub & Hother).
  assert (∀ x, x ∈ (visits.*2) → (x ∉ s2) ∧ r2 !! recentViewsByIPKey x = None) as Hfresh2.
  { intros x Hx. destruct (Hfresh x) as [Hxs Hxk]; [apply elem_of_cons; by right |].
    assert (x ≠ ip) as Hne by (intros ->; done).
    split; [| by rewrite Hother].
    intros Hin. destruct (Hsub x Hin) as [-> | ?]; done. }
  assert (viewable (visits.*1) db) as Hv'.
  { intros x Hx. apply Hv, elem_of_cons. by right. }
  unfold track, TrackBlogView. cbn [ev_time ev_blog ev_user ev_ip ev_agent].
  rewrite (bool_decide_eq_false_2 (b = "")) by done.
  rewrite (bool_decide_eq_false_2 (u = "")) by done.
  rewrite andb_false_l.
  assert (isBot demo_agent = false) as -> by reflexivity.
  assert (HasViewedRecently no_faults b u ip db = inl false) as ->.
  { unfold HasViewedRecently. cbn [f_HasViewedRecently no_faults].
    pose proof (count_docs_le (viewed_filter b u ip)
                  (λ v, bool_decide (BlogID v = b)) (blog_views db)) as Hle.
    rewrite Hnorec in Hle.
    assert (count_docs (viewed_filter b u ip) (blog_views db) = 0) as ->; [| done].
    apply Nat.le_0_r, Hle. intros d Hd. unfold viewed_filter in Hd.
    by apply andb_true_iff in Hd as [Hd _]. }
  rewrite Hchecks. unfold rotation_outcome.
  destruct (maxUserIPs <? next_size userIPRotationTTL now last)%Z.
  - exists r2, db, s2, (Some ErrRotation).
    split; [done |]. split; [by vm_compute |]. split; [done |]. by split.
  - destruct (commit_view_viewable CalculatePopularity now b u ip demo_agent
                (visits.*1) db Hv Hb) as (db1 & Hcommit & Hv1).
    exists r2, db1, s2, None. rewrite Hcommit.
    split; [done |]. split; [done |]. split; [done |]. by split.
Qed.

(** The rotation check over a whole sequence of first views of distinct
    blogs by one user from distinct addresses. *)
Lemma rotation_by_renewed_window u times visits (r : gmap string (rentry score))
    db last s :
  u ≠ "" → length times = length visits →
  NoDup (visits.*1) → NoDup (visits.*2) → viewable (visits.*1) db →
  key_set r (recentViewsByUserKey u) userIPRotationTTL last s →
  (∀ x, x ∈ (visits.*2) → (x ∉ s) ∧ r !! recentViewsByIPKey x = None) →
  (run_views CalculatePopularity (Some BlogCacheStore) (views_by u times visits)
             r db).1
  = map rotation_outcome (window_counts userIPRotationTTL last times).
Proof.
  intros Hu. revert visits r db last s.
  induction times as [|t times IH];
    intros visits r db last s Hlen Hnd1 Hnd2 Hv Hset Hfresh.
  - by destruct visits.
  - destruct visits as [|[b ip] visits]; [done |]. simpl in Hlen.
    cbn [fmap list_fmap fst snd] in Hnd1, Hnd2, Hv, Hfresh.
    apply NoDup_cons in Hnd1 as [Hb Hnd1]. apply NoDup_cons in Hnd2 as [Hip Hnd2].
    destruct (track_step_user t u b ip visits r db last s Hu Hv Hb Hip Hset Hfresh)
      as (r1 & db1 & s1 & err & Htrack & Hout & Hset1 & Hfresh1 & Hv1).
    rewrite window_counts_cons. fold (next_size userIPRotationTTL t last).
    unfold views_by. cbn [zip_with run_views fst snd]. rewrite Htrack.
    specialize (IH visits r1 db1 (Some (t, next_size userIPRotationTTL t last)) s1
                   ltac:(lia) Hnd1 Hnd2 Hv1 Hset1 Hfresh1).
    unfold views_by in IH.
    destruct (run_views _ _ _ r1 db1) as [outs final]. simpl in IH. simpl.
    by rewrite Hout, IH.
Qed.

(** X28: six first views of six blogs by one signed-in user from six
    addresses, with Redis answering and no fraud set before: when every
    view comes within an hour of the one before, the first five are counted
    and the sixth is rejected for rotation, however long the whole run
    lasts, since each add renews the expiry of the user's whole set. *)
Theorem rotation_window_renewed u times visits db :
  u ≠ "" → length times = 6 → length visits = 6 →
  NoDup (visits.*1) → NoDup (visits.*2) → viewable (visits.*1) db →
  gaps_within userIPRotationTTL times = true →
  (run_views CalculatePopularity (Some BlogCacheStore) (views_by u times visits)
             ∅ db).1
  = [Counted; Counted; Counted; Counted; Counted; RotationLimited].
Proof.
  intros Hu Htimes Hvisits Hnd1 Hnd2 Hv Hgaps.
  rewrite (rotation_by_renewed_window u times visits ∅ db None ∅);
    first [done | lia | intros x _; split; [apply not_elem_of_empty | done] | idtac].
  destruct times as [|t0 times]; [done |].
  rewrite window_counts_cons, (window_counts_run _ _ _ _ Hgaps).
  simpl in Htimes. injection Htimes as ->. reflexivity.
Qed.

(** X29: TrackBlogView writes fraud sets only: on the Redis-backed store
    every key outside the "blog:recentviews:" namespace is after the call
    what it was before, whatever the request and the driver do, so that the
    cached blog of every slug and every cached list page are served as
    before: a counted view does not show in them. *)
Theorem tracking_leaves_cached_content F now blogID userID ip ua
    (r : gmap string (rentry score)) db :
  let r' := (TrackBlogView CalculatePopularity (Some BlogCacheStore) F now blogID
                           userID ip ua r db).1.1 in
  (∀ k, HasPrefix k "blog:recentviews:" = false → r' !! k = r !! k)
  ∧ (∀ now' slug,
       (store_GetBlogBySlug now' slug r').2 = (store_GetBlogBySlug now' slug r).2)
  ∧ (∀ now' key, HasPrefix key "blogs:list:" = true →
       (store_GetBlogsPage now' key r').2 = (store_GetBlogsPage now' key r).2).
Proof.
  intros r'.
  assert (∀ now0 key m ttl (r0 : gmap string (rentry score)) k, k ≠ key →
            EXPIRE now0 key ttl (SADD now0 key m r0).1 !! k = r0 !! k
            ∧ (SADD now0 key m r0).1 !! k = r0 !! k) as Hadd.
  { intros now0 key m ttl r0 k Hk.
    assert ((SADD now0 key m r0).1 !! k = r0 !! k) as Hs.
    { unfold SADD. destruct (lookup_live now0 key r0) as [e|]; simpl;
        [destruct (r_value e); simpl |]; by rewrite ?lookup_insert_ne. }
    split; [| done]. unfold EXPIRE.
    destruct (lookup_live now0 key _); by rewrite ?lookup_insert_ne. }
  assert (∀ k, HasPrefix k "blog:recentviews:" = false → r' !! k = r !! k) as Hkeep.
  { intros k Hk. subst r'.
    assert (∀ x, k ≠ recentViewsByIPKey x) as Hnip by (intros x ->; done).
    assert (∀ x, k ≠ recentViewsByUserKey x) as Hnuser by (intros x ->; done).
    assert (∀ r0 : gmap string (rentry score),
              (store_AddRecentViewByIP now ip blogID ipVelocityTTL r0).1 !! k
              = r0 !! k) as Hip.
    { intros r0. unfold store_AddRecentViewByIP.
      destruct (SADD now (recentViewsByIPKey ip) blogID r0) as [r1 [e|]] eqn:Hs;
        simpl; pose proof (Hadd now (recentViewsByIPKey ip) blogID ipVelocityTTL
                             r0 k (Hnip ip)) as [H1 H2]; rewrite Hs in H1, H2;
        done. }
    assert (∀ r0 : gmap string (rentry score),
              (store_AddRecentViewByUser now userID ip userIPRotationTTL r0).1 !! k
              = r0 !! k) as Huser.
    { intros r0. unfold store_AddRecentViewByUser.
      destruct (SADD now (recentViewsByUserKey userID) ip r0) as [r1 [e|]] eqn:Hs;
        simpl; pose proof (Hadd now (recentViewsByUserKey userID) ip
                             userIPRotationTTL r0 k (Hnuser userID)) as [H1 H2];
        rewrite Hs in H1, H2; done. }
    assert (∀ r0, (velocity_check BlogCacheStore F now blogID ip r0 db).1 !! k
                  = r0 !! k) as Hvel.
    { intros r0. unfold velocity_check. simpl.
      unfold store_GetRecentViewCountByIP.
      destruct (SCARD now _ _) as [n|e]; simpl.
      - destruct (maxIpVelocity <? n)%Z; apply Hip.
      - destruct (GetRecentViewsByIP F ip _ db) as [views|e'];
          [destruct (maxIpVelocity <? _)%Z |]; apply Hip. }
    assert (∀ r0, (rotation_check BlogCacheStore F now userID ip r0 db).1 !! k
                  = r0 !! k) as Hrot.
    { intros r0. unfold rotation_check. case_bool_decide; [done |]. simpl.
      unfold store_GetRecentIPCountByUser.
      destruct (SCARD now _ _) as [n|e]; simpl.
      - destruct (maxUserIPs <? n)%Z; apply Huser.
      - destruct (GetRecentViewsByUser F userID _ db) as [views|e'];
          [destruct (maxUserIPs <? _)%Z |]; apply Huser. }
    unfold TrackBlogView.
    case_bool_decide; [done |].
    destruct (bool_decide (userID = "") && bool_decide (ip = "")); [done |].
    destruct (isBot ua); [done |].
    destruct (HasViewedRecently F blogID userID ip db) as [[|]|e]; [done | | done].
    destruct (velocity_check BlogCacheStore F now blogID ip r db) as [st1 [e1|]] eqn:Hv.
    - simpl. pose proof (Hvel r) as H1. by rewrite Hv in H1.
    - pose proof (Hvel r) as H1. rewrite Hv in H1. simpl in H1.
      pose proof (Hrot st1) as H2.
      destruct (rotation_check BlogCacheStore F now userID ip st1 db) as [st2 [e2|]];
        simpl in *; [by rewrite H2 |].
      destruct (commit_view _ _ _ _ _ _ _ _). simpl. by rewrite H2. }
  split; [done |]. split.
  - intros now' slug. unfold store_GetBlogBySlug, GET.
    rewrite (lookup_live_ext now' _ _ _ (Hkeep (blogDetailKey slug) eq_refl)).
    destruct (lookup_live _ _ r) as [[[[]|]]|]; done.
  - intros now' key Hp. unfold store_GetBlogsPage, GET.
    assert (HasPrefix key "blog:recentviews:" = false) as Hk.
    { apply prefix_true_app in Hp as [t ->]. reflexivity. }
    rewrite (lookup_live_ext now' _ _ _ (Hkeep key Hk)).
    destruct (lookup_live _ _ r) as [[[[]|]]|]; done.
Qed.

End RotationFacts.

(* ===================================================================== *)
(** * The further facts on the small instance *)
(* ===================================================================== *)


Lemma bot_views_are_dropped_witness :
  TrackBlogView demo_popularity (None : option (IBlogCache Z unit)) no_faults
                100 "b01" "u1" "10.0.0.1" ("Google" +:+ "Bot" +:+ "/2.1") () demo_db
  = (((), demo_db), None).
Proof.
  refine (proj1 (bot_views_are_dropped demo_popularity
                   (None : option (IBlogCache Z unit)) no_faults 100 "b01" "u1"
                   "10.0.0.1" "Google" "Bot" "/2.1" "bot" () demo_db _ _ _ _)).
  - by left.
  - reflexivity.
  - discriminate.
  - left. discriminate.
Defined.

Lemma popularity_update_matches_counts_witness :
  map fixed_fields
      (blogs (UpdateBlogPopularity demo_popularity no_faults 5 "b01" demo_db).1)
  = map fixed_fields (blogs demo_db).
Proof.
  destruct (popularity_update_matches_counts demo_popularity no_faults 5 "b01"
              demo_db (UpdateBlogPopularity demo_popularity no_faults 5 "b01"
                                            demo_db).1)
    as (b & b' & _ & _ & _ & _ & Hfixed & _); [reflexivity |].
  exact Hfixed.
Defined.

Lemma out_of_range_page_is_never_cached_witness :
  (GetBlogs demo_format demo_GetBlogs (Some BlogCacheStore) no_faults 0
            0 10 "" "" None None ∅ demo_db).1
    !! buildBlogsListCacheKey demo_format 0 10 "" "" None None
  = (∅ : gmap string (rentry Z))
      !! buildBlogsListCacheKey demo_format 0 10 "" "" None None.
Proof.
  refine (proj1 (out_of_range_page_is_never_cached demo_format demo_GetBlogs
                   no_faults 0 0 0 10 "" "" None None ∅ demo_db _)).
  left. reflexivity.
Defined.

Lemma list_page_is_served_from_cache_witness :
  GetBlogs demo_format demo_GetBlogs (Some BlogCacheStore) no_faults 100
           1 10 "" "" None None
           (GetBlogs demo_format demo_GetBlogs (Some BlogCacheStore) no_faults 0
                     1 10 "" "" None None ∅ demo_db).1
           demo_draft_db
  = GetBlogs demo_format demo_GetBlogs (Some BlogCacheStore) no_faults 0
             1 10 "" "" None None ∅ demo_db.
Proof.
  refine (proj2 (list_page_is_served_from_cache demo_format demo_GetBlogs
                   no_faults no_faults 0 100 1 10 "" "" None None ∅ demo_db
                   demo_draft_db (blogs demo_db) 11 _ _ _ _ _ _ _));
    first [reflexivity | lia].
Defined.

Lemma pages_visible_empty : pages_visible (∅ : gmap string (rentry Z)).
Proof. intros k e p Hk. by rewrite lookup_empty in Hk. Qed.

Lemma list_read_never_serves_drafts_witness :
  pages_visible
    (GetBlogs demo_format demo_GetBlogs (Some BlogCacheStore) no_faults 0
              1 10 "" "" None None ∅ demo_draft_db).1.
Proof.
  exact (proj1 (list_read_never_serves_drafts demo_format demo_GetBlogs no_faults
                  0 1 10 "" "" None None ∅ demo_draft_db pages_visible_empty)).
Defined.

Lemma demo_visits_viewable : viewable (demo_visits.*1) demo_db.
Proof.
  intros b Hb. apply demo_viewable.
  repeat (apply elem_of_cons in Hb as [-> | Hb];
          [by apply (bool_decide_unpack _) |]).
  by apply elem_of_nil in Hb.
Qed.

Lemma rotation_window_renewed_witness :
  (run_views demo_popularity (Some BlogCacheStore)
             (views_by "u1" times_50min demo_visits) ∅ demo_db).1
  = [Counted; Counted; Counted; Counted; Counted; RotationLimited].
Proof.
  apply (rotation_window_renewed demo_popularity "u1" times_50min demo_visits demo_db).
  - discriminate.
  - reflexivity.
  - reflexivity.
  - by apply (bool_decide_unpack _).
  - by apply (bool_decide_unpack _).
  - exact demo_visits_viewable.
  - reflexivity.
Defined.
